(** * The LoRa Cloud Device Management object codec

    A shallow embedding of package [objects] of the LoRaWAN stack: the
    [Hex] codec and the [Request] codec, together with the parts of the Go
    standard library they call ([strings], [encoding/hex], [unicode/utf8],
    [strconv] and [encoding/json]).

    Conventions.
    - Text (a Go [string], or a [[]byte] that holds JSON text) is a
      [string]; its characters are the 8-bit [ascii] values.  The
      conversions [string(b)] and [[]byte(s)] copy the bytes and are the
      identity here.
    - Binary data (the payload of a [Hex]) is a [list byte].
    - A method with a pointer receiver takes the value its receiver holds
      and returns the value the receiver holds afterwards, together with
      the error: [T -> T * option error].
    - Go's [error] interface is the closed sum [error] of the errors the
      modelled code can produce; [None] is the nil error. *)

From Stdlib Require Import Strings.String Strings.Ascii Strings.Byte.
From Stdlib Require Import List NArith ZArith Lia Bool.
Import ListNotations.

Set Warnings "-register-all".

Open Scope list_scope.
Open Scope string_scope.

(** ** Characters *)

(** The quotation mark, 0x22. *)
Definition dquote : ascii := "034"%char.

(** The backslash, 0x5c. *)
Definition bslash : ascii := "092"%char.

(** The numeric value of a character. *)
Definition code (c : ascii) : N := N_of_ascii c.

(** Conversion to Go's [byte] type: the low eight bits. *)
Definition u8 (n : N) : byte := byte_of_ascii (ascii_of_N n).

(** [lo <= c && c <= hi] on bytes. *)
Definition between (lo hi c : ascii) : bool :=
  (code lo <=? code c)%N && (code c <=? code hi)%N.

(** Writes the JSON texts of the examples: every apostrophe stands for a
    quotation mark. *)
Fixpoint js (s : string) : string :=
  match s with
  | EmptyString => EmptyString
  | String c s' => String (if Ascii.eqb c "'" then dquote else c) (js s')
  end.

(** ** Errors *)

(** An error definition of package [errors] (the stack's own error
    package): its code, its name and its message format. *)
Record Definition_ : Type := mkDefinition {
  def_code : string;
  def_name : string;
  def_messageFormat : string
}.

Inductive error : Type :=
| SyntaxError
    (* *json.SyntaxError; the message and the offset are not modelled *)
| UnmarshalTypeError (Value : string) (Type_ : string)
    (* *json.UnmarshalTypeError: the JSON value met and the Go type it was
       to be stored in *)
| MarshalerError (Type_ : string) (Err : error)
    (* *json.MarshalerError *)
| InvalidByteError (c : ascii)
    (* hex.InvalidByteError *)
| ErrLength
    (* hex.ErrLength *)
| DefinedError (d : Definition_) (attributes : list (string * string))
    (* an error of package errors: a definition with its attributes *)
| ForeignError (msg : string).
    (* an error returned by a package that is not part of the model *)

(** Modelled from the spec: [errors.DefineInvalidArgument] of package
    [errors], which is not among the sources; an invalid-argument error
    definition with the given name and message format. *)
Definition DefineInvalidArgument (name messageFormat : string) : Definition_ :=
  mkDefinition "InvalidArgument" name messageFormat.

(** Modelled from the spec: [Definition.WithAttributes] of package
    [errors]: the error of that definition carrying the attribute. *)
Definition WithAttributes (d : Definition_) (k v : string) : error :=
  DefinedError d [(k, v)].

(** ** Package strings *)

Module strings.

(** [s[n:]] *)
Fixpoint from (n : nat) (s : string) : string :=
  match n, s with
  | O, _ => s
  | S n', String _ s' => from n' s'
  | S _, EmptyString => EmptyString
  end.

(** [s[:n]] *)
Fixpoint upto (n : nat) (s : string) : string :=
  match n, s with
  | O, _ => EmptyString
  | S n', String c s' => String c (upto n' s')
  | S _, EmptyString => EmptyString
  end.

Definition HasPrefix (s prefix : string) : bool :=
  (String.length prefix <=? String.length s)%nat && String.eqb (upto (String.length prefix) s) prefix.

Definition HasSuffix (s suffix : string) : bool :=
  (String.length suffix <=? String.length s)%nat
  && String.eqb (from (String.length s - String.length suffix) s) suffix.

Definition TrimPrefix (s prefix : string) : string :=
  if HasPrefix s prefix then from (String.length prefix) s else s.

Definition TrimSuffix (s suffix : string) : string :=
  if HasSuffix s suffix then upto (String.length s - String.length suffix) s else s.

End strings.

(** ** Package encoding/hex *)

Module hex.

Definition hextable : string := "0123456789abcdef".

(** [hextable[i]] *)
Definition hexdigit (i : N) : ascii :=
  match String.get (N.to_nat i) hextable with
  | Some c => c
  | None => zero
  end.

(** Two characters for every byte: [hextable[v>>4]], [hextable[v&0x0f]]. *)
Fixpoint EncodeToString (src : list byte) : string :=
  match src with
  | [] => EmptyString
  | v :: rest =>
      String (hexdigit (N.shiftr (Byte.to_N v) 4))
        (String (hexdigit (N.land (Byte.to_N v) 15)) (EncodeToString rest))
  end.

(** The value of a hexadecimal character, [None] for any other byte. *)
Definition fromHexChar (c : ascii) : option N :=
  if between "0" "9" c then Some (code c - code "0")%N
  else if between "a" "f" c then Some (code c - code "a" + 10)%N
  else if between "A" "F" c then Some (code c - code "A" + 10)%N
  else None.

(** [Decode] over the pairs of [src]: the bytes decoded before the first
    error, and that error.  A character that is no hexadecimal digit is
    reported before an odd length. *)
Fixpoint Decode (src : string) : list byte * option error :=
  match src with
  | EmptyString => ([], None)
  | String p EmptyString =>
      match fromHexChar p with
      | None => ([], Some (InvalidByteError p))
      | Some _ => ([], Some ErrLength)
      end
  | String p (String q rest) =>
      match fromHexChar p with
      | None => ([], Some (InvalidByteError p))
      | Some a =>
          match fromHexChar q with
          | None => ([], Some (InvalidByteError q))
          | Some b =>
              let (out, err) := Decode rest in
              (u8 (N.lor (N.shiftl a 4) b) :: out, err)
          end
      end
  end.

(** [DecodeString] returns [src[:n], err]: on an error, the bytes decoded
    before it. *)
Definition DecodeString (s : string) : list byte * option error := Decode s.

End hex.

(** ** Hex *)

(** Hex represents hex encoded bytes. *)
Definition Hex : Type := list byte.

(** [fmt.Sprintf] with the format of [Hex.MarshalJSON], a quotation mark,
    [%s] and a quotation mark. *)
Definition Sprintf_quoted (s : string) : string :=
  String dquote (s ++ String dquote EmptyString).

(** MarshalJSON implements json.Marshaler. *)
Definition Hex_MarshalJSON (h : Hex) : string * option error :=
  (Sprintf_quoted (hex.EncodeToString h), None).

(** UnmarshalJSON implements json.Unmarshaler.  The receiver is assigned
    whatever [hex.DecodeString] returns, also when it returns an error. *)
Definition Hex_UnmarshalJSON (b : string) (h : Hex) : Hex * option error :=
  let s := strings.TrimSuffix
             (strings.TrimPrefix b (String dquote EmptyString))
             (String dquote EmptyString) in
  hex.DecodeString s.

(** ** Package unicode/utf8 *)

Module utf8.

(** A rune is a code point; [RuneError] is U+FFFD. *)
Definition RuneError : N := 65533.
Definition MaxRune : N := 1114111.
Definition RuneSelf : N := 128.

(** [DecodeRune] unpacks the first UTF-8 encoding of [p]: the rune and its
    width in bytes; [(RuneError, 1)] for an encoding that is invalid and
    [(RuneError, 0)] for the empty text.  The table [first] of the
    library gives, for a leading byte, the width and the range accepted
    for the second byte. *)
Definition DecodeRune (p : string) : N * nat :=
  match p with
  | EmptyString => (RuneError, 0)
  | String p0 rest =>
      let c0 := code p0 in
      if (c0 <? 128)%N then (c0, 1)
      else if ((c0 <? 194) || (244 <? c0))%N then (RuneError, 1)
      else
        let sz := if (c0 <? 224)%N then 2 else if (c0 <? 240)%N then 3 else 4 in
        let lo := if (c0 =? 224)%N then 160%N else if (c0 =? 240)%N then 144%N else 128%N in
        let hi := if (c0 =? 237)%N then 159%N else if (c0 =? 244)%N then 143%N else 191%N in
        if (String.length p <? sz)%nat then (RuneError, 1)
        else
          match rest with
          | EmptyString => (RuneError, 1)
          | String p1 rest1 =>
              let b1 := code p1 in
              if ((b1 <? lo) || (hi <? b1))%N then (RuneError, 1)
              else if (sz <=? 2)%nat
              then (N.lor (N.shiftl (N.land c0 31) 6) (N.land b1 63), 2)
              else
                match rest1 with
                | EmptyString => (RuneError, 1)
                | String p2 rest2 =>
                    let b2 := code p2 in
                    if ((b2 <? 128) || (191 <? b2))%N then (RuneError, 1)
                    else if (sz <=? 3)%nat
                    then (N.lor (N.lor (N.shiftl (N.land c0 15) 12)
                                       (N.shiftl (N.land b1 63) 6))
                                (N.land b2 63), 3)
                    else
                      match rest2 with
                      | EmptyString => (RuneError, 1)
                      | String p3 _ =>
                          let b3 := code p3 in
                          if ((b3 <? 128) || (191 <? b3))%N then (RuneError, 1)
                          else (N.lor (N.lor (N.lor (N.shiftl (N.land c0 7) 18)
                                                    (N.shiftl (N.land b1 63) 12))
                                             (N.shiftl (N.land b2 63) 6))
                                      (N.land b3 63), 4)
                      end
                end
          end
  end.

Definition chr (n : N) : ascii := ascii_of_N n.

Definition encode3 (r : N) : string :=
  String (chr (N.lor 224 (N.shiftr r 12)))
    (String (chr (N.lor 128 (N.land (N.shiftr r 6) 63)))
       (String (chr (N.lor 128 (N.land r 63))) EmptyString)).

(** [EncodeRune]: the UTF-8 encoding of the rune; a surrogate or a rune
    beyond [MaxRune] is encoded as [RuneError]. *)
Definition EncodeRune (r : N) : string :=
  if (r <=? 127)%N then String (chr r) EmptyString
  else if (r <=? 2047)%N then
    String (chr (N.lor 192 (N.shiftr r 6)))
      (String (chr (N.lor 128 (N.land r 63))) EmptyString)
  else if ((MaxRune <? r) || ((55296 <=? r) && (r <=? 57343)))%N then encode3 RuneError
  else if (r <=? 65535)%N then encode3 r
  else
    String (chr (N.lor 240 (N.shiftr r 18)))
      (String (chr (N.lor 128 (N.land (N.shiftr r 12) 63)))
         (String (chr (N.lor 128 (N.land (N.shiftr r 6) 63)))
            (String (chr (N.lor 128 (N.land r 63))) EmptyString))).

(** [ValidString]: the text consists of valid UTF-8 encodings only. *)
Fixpoint valid_loop (fuel : nat) (s : string) : bool :=
  match s with
  | EmptyString => true
  | String _ _ =>
      match fuel with
      | O => false
      | S fuel' =>
          let (r, size) := DecodeRune s in
          if (r =? RuneError)%N && (size =? 1)%nat then false
          else valid_loop fuel' (strings.from size s)
      end
  end.

Definition ValidString (s : string) : bool := valid_loop (String.length s) s.

End utf8.

(** ** Package unicode/utf16 *)

Module utf16.

Definition IsSurrogate (r : N) : bool := ((55296 <=? r) && (r <? 57344))%N.

(** The code point of a surrogate pair, U+FFFD when the pair is not valid. *)
Definition DecodeRune (r1 r2 : N) : N :=
  if ((55296 <=? r1) && (r1 <? 56320) && (56320 <=? r2) && (r2 <? 57344))%N
  then (N.lor (N.shiftl (r1 - 55296) 10) (r2 - 56320) + 65536)%N
  else utf8.RuneError.

End utf16.

(** ** Package strconv *)

Module strconv.

Definition is_digit (c : ascii) : bool := between "0" "9" c.

(** The value of a text of decimal digits, [None] when a character is no
    digit. *)
Fixpoint digits_value (acc : N) (s : string) : option N :=
  match s with
  | EmptyString => Some acc
  | String c s' =>
      if is_digit c then digits_value (acc * 10 + (code c - code "0"))%N s'
      else None
  end.

(** [ParseUint(s, 10, 64)]: a nonempty text of decimal digits, without a
    sign, whose value fits 64 bits; [None] for the syntax and the range
    error. *)
Definition ParseUint (s : string) : option N :=
  match s with
  | EmptyString => None
  | _ =>
      match digits_value 0 s with
      | Some n => if (n <? 2 ^ 64)%N then Some n else None
      | None => None
      end
  end.

(** [ParseInt(s, 10, 64)]: an optional sign and a nonempty text of
    decimal digits, whose value fits 64 bits. *)
Definition ParseInt (s : string) : option Z :=
  match s with
  | EmptyString => None
  | String c s' =>
      let neg := Ascii.eqb c "-" in
      let body := if Ascii.eqb c "+" || neg then s' else s in
      match body with
      | EmptyString => None
      | _ =>
          match digits_value 0 body with
          | Some n =>
              if neg then
                if (n <=? 2 ^ 63)%N then Some (- Z.of_N n)%Z else None
              else
                if (n <? 2 ^ 63)%N then Some (Z.of_N n) else None
          | None => None
          end
      end
  end.

(** The loop of [formatBits] in base 10: the digits are written before
    [a], the least significant first, until the number is below ten.
    [fuel] bounds the number of digits. *)
Fixpoint formatBits (fuel : nat) (u : N) (a : string) : string :=
  match fuel with
  | O => a
  | S fuel' =>
      if (u <? 10)%N then String (ascii_of_N (code "0" + u)) a
      else formatBits fuel' (u / 10) (String (ascii_of_N (code "0" + u mod 10)) a)
  end.

(** [FormatUint(n, 10)]: the decimal digits, without leading zeros. *)
Definition FormatUint (n : N) : string :=
  formatBits (S (N.to_nat (N.log2 n))) n EmptyString.

(** [FormatInt(i, 10)]: a minus sign before the digits of a negative
    number. *)
Definition FormatInt (i : Z) : string :=
  if (i <? 0)%Z then String "-" (FormatUint (Z.to_N (- i)))
  else FormatUint (Z.to_N i).

End strconv.

(** ** Package encoding/json: the scanner *)

(** The scanner of the library delimits the values of a JSON text; the
    decoder then visits them.  A scanned text is kept as the tree of its
    values.  A literal (null, true, false, a number or a quoted string)
    is kept as it is written; an array and an object also keep the text
    they were read from, which is what an [Unmarshaler] receives.  The
    key of a member is kept as its quoted literal. *)
Inductive json : Type :=
| JLiteral (item : string)
| JArray (raw : string) (elems : list json)
| JObject (raw : string) (members : list (string * json)).

Module json.

(** The text of a value, without the space around it. *)
Definition raw (j : json) : string :=
  match j with
  | JLiteral item => item
  | JArray r _ => r
  | JObject r _ => r
  end.

Definition isSpace (c : ascii) : bool :=
  Ascii.eqb c " " || Ascii.eqb c "009" || Ascii.eqb c "013" || Ascii.eqb c "010".

Fixpoint skipSpace (s : string) : string :=
  match s with
  | String c s' => if isSpace c then skipSpace s' else s
  | EmptyString => s
  end.

Definition isHex (c : ascii) : bool :=
  between "0" "9" c || between "a" "f" c || between "A" "F" c.

(** The characters that may follow a backslash, [u] apart. *)
Definition isEscape (c : ascii) : bool :=
  Ascii.eqb c dquote || Ascii.eqb c bslash || Ascii.eqb c "/" || Ascii.eqb c "b"
  || Ascii.eqb c "f" || Ascii.eqb c "n" || Ascii.eqb c "r" || Ascii.eqb c "t".

Definition cons_fst (c : ascii) (r : option (string * string)) : option (string * string) :=
  match r with
  | Some (body, rest) => Some (String c body, rest)
  | None => None
  end.

(** The scanner inside a string, after the opening quotation mark: the
    text up to the closing mark and the text after it.  A control
    character, an unknown escape and a missing closing mark are errors. *)
Fixpoint stringBody (s : string) : option (string * string) :=
  match s with
  | EmptyString => None
  | String c s1 =>
      if Ascii.eqb c dquote then Some (EmptyString, s1)
      else if Ascii.eqb c bslash then
        match s1 with
        | EmptyString => None
        | String e s2 =>
            if isEscape e then cons_fst c (cons_fst e (stringBody s2))
            else if Ascii.eqb e "u" then
              match s2 with
              | String h1 (String h2 (String h3 (String h4 s3))) =>
                  if isHex h1 && isHex h2 && isHex h3 && isHex h4
                  then cons_fst c (cons_fst e (cons_fst h1 (cons_fst h2
                         (cons_fst h3 (cons_fst h4 (stringBody s3))))))
                  else None
              | _ => None
              end
            else None
        end
      else if (code c <? 32)%N then None
      else cons_fst c (stringBody s1)
  end.

(** The longest prefix of decimal digits and the text after it. *)
Fixpoint digits (s : string) : string * string :=
  match s with
  | String c s' =>
      if strconv.is_digit c then let (d, rest) := digits s' in (String c d, rest)
      else (EmptyString, s)
  | EmptyString => (EmptyString, s)
  end.

(** The integer part of a number: a zero, or a digit from 1 to 9 and
    digits. *)
Definition intPart (s : string) : option (string * string) :=
  match s with
  | String c s' =>
      if Ascii.eqb c "0" then Some (String c EmptyString, s')
      else if between "1" "9" c then let (d, rest) := digits s' in Some (String c d, rest)
      else None
  | EmptyString => None
  end.

(** The optional fraction: a point and at least one digit. *)
Definition fracPart (s : string) : option (string * string) :=
  match s with
  | String c s' =>
      if Ascii.eqb c "." then
        match digits s' with
        | (EmptyString, _) => None
        | (d, rest) => Some (String c d, rest)
        end
      else Some (EmptyString, s)
  | EmptyString => Some (EmptyString, s)
  end.

(** The optional exponent: e or E, an optional sign and at least one
    digit. *)
Definition expPart (s : string) : option (string * string) :=
  match s with
  | String c s' =>
      if Ascii.eqb c "e" || Ascii.eqb c "E" then
        let (sign, s'') :=
          match s' with
          | String g t => if Ascii.eqb g "+" || Ascii.eqb g "-"
                          then (String g EmptyString, t) else (EmptyString, s')
          | EmptyString => (EmptyString, s')
          end in
        match digits s'' with
        | (EmptyString, _) => None
        | (d, rest) => Some (String c (sign ++ d), rest)
        end
      else Some (EmptyString, s)
  | EmptyString => Some (EmptyString, s)
  end.

(** A number: an optional minus sign, the integer part, the fraction and
    the exponent. *)
Definition number (s : string) : option (string * string) :=
  let (sign, s0) :=
    match s with
    | String c t => if Ascii.eqb c "-" then (String c EmptyString, t) else (EmptyString, s)
    | EmptyString => (EmptyString, s)
    end in
  match intPart s0 with
  | None => None
  | Some (i, s1) =>
      match fracPart s1 with
      | None => None
      | Some (f, s2) =>
          match expPart s2 with
          | None => None
          | Some (e, s3) => Some (sign ++ i ++ f ++ e, s3)
          end
      end
  end.

(** One of the words true, false and null. *)
Definition word (w s : string) : option (string * string) :=
  if strings.HasPrefix s w then Some (w, strings.from (String.length w) s) else None.

(** The text that was read: what [s] has before [rest]. *)
Definition consumed (s rest : string) : string :=
  strings.upto (String.length s - String.length rest) s.

(** The value at the head of [s] and the text after it.  [fuel] bounds
    the number of nested calls; [scan] gives enough of it. *)
Fixpoint value (fuel : nat) (s : string) : option (json * string) :=
  match fuel with
  | O => None
  | S fuel' =>
      match s with
      | EmptyString => None
      | String c s1 =>
          if Ascii.eqb c "{" then
            match skipSpace s1 with
            | EmptyString => None
            | String c2 s2 as s1' =>
                if Ascii.eqb c2 "}" then Some (JObject (consumed s s2) [], s2)
                else
                  match members fuel' s1' with
                  | Some (ms, rest) => Some (JObject (consumed s rest) ms, rest)
                  | None => None
                  end
            end
          else if Ascii.eqb c "[" then
            match skipSpace s1 with
            | EmptyString => None
            | String c2 s2 as s1' =>
                if Ascii.eqb c2 "]" then Some (JArray (consumed s s2) [], s2)
                else
                  match elements fuel' s1' with
                  | Some (vs, rest) => Some (JArray (consumed s rest) vs, rest)
                  | None => None
                  end
            end
          else if Ascii.eqb c dquote then
            match stringBody s1 with
            | Some (body, rest) =>
                Some (JLiteral (String dquote (body ++ String dquote EmptyString)), rest)
            | None => None
            end
          else if Ascii.eqb c "-" || strconv.is_digit c then
            match number s with
            | Some (lit, rest) => Some (JLiteral lit, rest)
            | None => None
            end
          else
            let w := if Ascii.eqb c "t" then "true"
                     else if Ascii.eqb c "f" then "false"
                     else if Ascii.eqb c "n" then "null"
                     else EmptyString in
            match w with
            | EmptyString => None
            | _ =>
                match word w s with
                | Some (lit, rest) => Some (JLiteral lit, rest)
                | None => None
                end
            end
      end
  end

(** The elements of an array from its first value on, and the text after
    the closing bracket. *)
with elements (fuel : nat) (s : string) : option (list json * string) :=
  match fuel with
  | O => None
  | S fuel' =>
      match value fuel' s with
      | None => None
      | Some (v, s1) =>
          match skipSpace s1 with
          | String c s2 =>
              if Ascii.eqb c "," then
                match elements fuel' (skipSpace s2) with
                | Some (vs, rest) => Some (v :: vs, rest)
                | None => None
                end
              else if Ascii.eqb c "]" then Some ([v], s2)
              else None
          | EmptyString => None
          end
      end
  end

(** The members of an object from its first key on, and the text after
    the closing brace.  A key is a string. *)
with members (fuel : nat) (s : string) : option (list (string * json) * string) :=
  match fuel with
  | O => None
  | S fuel' =>
      match s with
      | String q s0 =>
          if Ascii.eqb q dquote then
            match stringBody s0 with
            | None => None
            | Some (body, s1) =>
                let key := String dquote (body ++ String dquote EmptyString) in
                match skipSpace s1 with
                | String colon s2 =>
                    if Ascii.eqb colon ":" then
                      match value fuel' (skipSpace s2) with
                      | None => None
                      | Some (v, s3) =>
                          match skipSpace s3 with
                          | String c s4 =>
                              if Ascii.eqb c "," then
                                match members fuel' (skipSpace s4) with
                                | Some (ms, rest) => Some ((key, v) :: ms, rest)
                                | None => None
                                end
                              else if Ascii.eqb c "}" then Some ([(key, v)], s4)
                              else None
                          | EmptyString => None
                          end
                      end
                    else None
                | EmptyString => None
                end
            end
          else None
      | EmptyString => None
      end
  end.

(** [checkValid] and the segmentation of the scanner: the text is one
    JSON value, with space around it at most. *)
Definition scan (data : string) : option json :=
  match value (2 * String.length data + 2) (skipSpace data) with
  | Some (j, rest) =>
      match skipSpace rest with
      | EmptyString => Some j
      | _ => None
      end
  | None => None
  end.

(** *** Quoted strings *)

(** [getu4]: the rune of a backslash, the letter u and four hexadecimal
    digits at the head of [s]; [None] stands for the result -1. *)
Definition getu4 (s : string) : option N :=
  match s with
  | String b (String u (String h1 (String h2 (String h3 (String h4 _))))) =>
      if Ascii.eqb b bslash && Ascii.eqb u "u" then
        match hex.fromHexChar h1, hex.fromHexChar h2,
              hex.fromHexChar h3, hex.fromHexChar h4 with
        | Some d1, Some d2, Some d3, Some d4 =>
            Some (((d1 * 16 + d2) * 16 + d3) * 16 + d4)%N
        | _, _, _, _ => None
        end
      else None
  | _ => None
  end.

Definition app_some (p : string) (r : option string) : option string :=
  match r with
  | Some t => Some (p ++ t)
  | None => None
  end.

Definition chr1 (n : N) : string := String (ascii_of_N n) EmptyString.

(** The loop of [unquoteBytes] over the text between the quotation marks:
    escapes are replaced by what they stand for and an invalid UTF-8
    encoding by U+FFFD.  [None] stands for [ok == false]. *)
Fixpoint unquoteLoop (fuel : nat) (s : string) : option string :=
  match s with
  | EmptyString => Some EmptyString
  | String c s1 =>
      match fuel with
      | O => None
      | S fuel' =>
          if Ascii.eqb c bslash then
            match s1 with
            | EmptyString => None
            | String e s2 =>
                if Ascii.eqb e dquote || Ascii.eqb e bslash || Ascii.eqb e "/"
                   || Ascii.eqb e "'"
                then app_some (String e EmptyString) (unquoteLoop fuel' s2)
                else if Ascii.eqb e "b" then app_some (chr1 8) (unquoteLoop fuel' s2)
                else if Ascii.eqb e "f" then app_some (chr1 12) (unquoteLoop fuel' s2)
                else if Ascii.eqb e "n" then app_some (chr1 10) (unquoteLoop fuel' s2)
                else if Ascii.eqb e "r" then app_some (chr1 13) (unquoteLoop fuel' s2)
                else if Ascii.eqb e "t" then app_some (chr1 9) (unquoteLoop fuel' s2)
                else if Ascii.eqb e "u" then
                  match getu4 s with
                  | None => None
                  | Some rr =>
                      let s3 := strings.from 6 s in
                      if utf16.IsSurrogate rr then
                        let dec :=
                          match getu4 s3 with
                          | Some rr1 => utf16.DecodeRune rr rr1
                          | None => utf8.RuneError
                          end in
                        if negb (dec =? utf8.RuneError)%N
                        then app_some (utf8.EncodeRune dec)
                               (unquoteLoop fuel' (strings.from 6 s3))
                        else app_some (utf8.EncodeRune utf8.RuneError)
                               (unquoteLoop fuel' s3)
                      else app_some (utf8.EncodeRune rr) (unquoteLoop fuel' s3)
                  end
                else None
            end
          else if Ascii.eqb c dquote || (code c <? 32)%N then None
          else if (code c <? utf8.RuneSelf)%N
          then app_some (String c EmptyString) (unquoteLoop fuel' s1)
          else
            let (rr, size) := utf8.DecodeRune s in
            app_some (utf8.EncodeRune rr) (unquoteLoop fuel' (strings.from size s))
      end
  end.

(** [unquote]: the text a quoted string literal stands for. *)
Definition unquote (item : string) : option string :=
  match item with
  | String q body =>
      if Ascii.eqb q dquote && (2 <=? String.length item)%nat
         && strings.HasSuffix item (String dquote EmptyString)
      then
        let inner := strings.upto (String.length body - 1) body in
        unquoteLoop (String.length inner) inner
      else None
  | EmptyString => None
  end.

(** The characters that [encodeState.string] writes as they are when it
    escapes HTML: the table [htmlSafeSet]. *)
Definition htmlSafe (c : ascii) : bool :=
  (32 <=? code c)%N && (code c <? 128)%N
  && negb (Ascii.eqb c dquote) && negb (Ascii.eqb c bslash)
  && negb (Ascii.eqb c "<") && negb (Ascii.eqb c ">") && negb (Ascii.eqb c "&").

(** The escape of a character below [RuneSelf] that is not written as it
    is. *)
Definition escapeByte (b : ascii) : string :=
  String bslash
    (if Ascii.eqb b bslash || Ascii.eqb b dquote then String b EmptyString
     else if Ascii.eqb b "010" then "n"
     else if Ascii.eqb b "013" then "r"
     else if Ascii.eqb b "009" then "t"
     else String "u" (String "0" (String "0"
            (String (hex.hexdigit (N.shiftr (code b) 4))
               (String (hex.hexdigit (N.land (code b) 15)) EmptyString))))).

(** The loop of [encodeState.string] with HTML escaping, which is what
    [Marshal] uses: the text between the quotation marks. *)
Fixpoint stringLoop (fuel : nat) (s : string) : string :=
  match s with
  | EmptyString => EmptyString
  | String b s1 =>
      match fuel with
      | O => EmptyString
      | S fuel' =>
          if (code b <? utf8.RuneSelf)%N then
            if htmlSafe b then String b (stringLoop fuel' s1)
            else escapeByte b ++ stringLoop fuel' s1
          else
            let (c, size) := utf8.DecodeRune s in
            if (c =? utf8.RuneError)%N && (size =? 1)%nat
            then String bslash "ufffd" ++ stringLoop fuel' (strings.from size s)
            else if (c =? 8232)%N || (c =? 8233)%N
            then String bslash "u202"
                 ++ String (hex.hexdigit (N.land c 15)) EmptyString
                 ++ stringLoop fuel' (strings.from size s)
            else strings.upto size s ++ stringLoop fuel' (strings.from size s)
      end
  end.

(** [encodeState.string]: the quoted literal of a text. *)
Definition quote (s : string) : string :=
  String dquote (stringLoop (String.length s) s ++ String dquote EmptyString).

(** *** Compaction of the text of a Marshaler *)

(** The bytes [compact] copies: space outside strings is dropped, and
    the characters that HTML escaping replaces are replaced.  [inStr]
    and [esc] follow the scanner: inside a string, after a backslash. *)
Fixpoint compactLoop (inStr esc : bool) (s : string) : string :=
  match s with
  | EmptyString => EmptyString
  | String c s1 =>
      let inStr' := if inStr then esc || negb (Ascii.eqb c dquote) else Ascii.eqb c dquote in
      let esc' := inStr && negb esc && Ascii.eqb c bslash in
      if Ascii.eqb c "<" || Ascii.eqb c ">" || Ascii.eqb c "&" then
        String bslash (String "u" (String "0" (String "0"
          (String (hex.hexdigit (N.shiftr (code c) 4))
             (String (hex.hexdigit (N.land (code c) 15))
                (compactLoop inStr' esc' s1))))))
      else
        match s1 with
        | String c1 (String c2 s3) =>
            if (code c =? 226)%N && (code c1 =? 128)%N
               && ((code c2 =? 168)%N || (code c2 =? 169)%N)
            then String bslash "u202"
                 ++ String (hex.hexdigit (N.land (code c2) 15)) EmptyString
                 ++ compactLoop inStr false s3
            else if negb inStr && isSpace c then compactLoop inStr' esc' s1
            else String c (compactLoop inStr' esc' s1)
        | _ =>
            if negb inStr && isSpace c then compactLoop inStr' esc' s1
            else String c (compactLoop inStr' esc' s1)
        end
  end.

(** [compact] with HTML escaping: [None] when the text is not valid
    JSON. *)
Definition compact (src : string) : option string :=
  match scan src with
  | Some _ => Some (compactLoop false false src)
  | None => None
  end.

(** *** Matching the key of a member with the name of a field *)

(** [b & caseMask] *)
Definition upper (b : ascii) : N := N.land (code b) 223.

(** [simpleLetterEqualFold], for a name of letters other than k and s. *)
Fixpoint simpleLetterEqualFold (s t : string) : bool :=
  match s, t with
  | EmptyString, EmptyString => true
  | String b s', String c t' => (upper b =? upper c)%N && simpleLetterEqualFold s' t'
  | _, _ => false
  end.

(** [equalFoldRight], for a name of letters with a k or an s: the Kelvin
    sign and the long s fold to them. *)
Fixpoint equalFoldRight (s t : string) : bool :=
  match s with
  | EmptyString => match t with EmptyString => true | _ => false end
  | String sb s' =>
      match t with
      | EmptyString => false
      | String tb t' =>
          if (code tb <? utf8.RuneSelf)%N then
            (Ascii.eqb sb tb
             || ((code "A" <=? upper sb)%N && (upper sb <=? code "Z")%N
                 && (upper sb =? upper tb)%N))
            && equalFoldRight s' t'
          else
            let (tr, size) := utf8.DecodeRune t in
            (if Ascii.eqb sb "s" || Ascii.eqb sb "S" then (tr =? 383)%N
             else if Ascii.eqb sb "k" || Ascii.eqb sb "K" then (tr =? 8490)%N
             else false)
            && equalFoldRight s' (strings.from size t)
      end
  end.

Fixpoint hasSpecial (s : string) : bool :=
  match s with
  | EmptyString => false
  | String b s' => (upper b =? code "K")%N || (upper b =? code "S")%N || hasSpecial s'
  end.

(** [foldFunc] on a field name made of ASCII letters, which is what the
    names of the structures of this package are. *)
Definition equalFold (name key : string) : bool :=
  if hasSpecial name then equalFoldRight name key else simpleLetterEqualFold name key.

(** The field a key selects: the field of that very name, or else the
    first field whose name folds to the key. *)
Fixpoint findField (fields : list string) (key : string) (f : option string) : option string :=
  match fields with
  | [] => f
  | ff :: rest =>
      if String.eqb ff key then Some ff
      else findField rest key
             (match f with
              | None => if equalFold ff key then Some ff else None
              | Some _ => f
              end)
  end.

(** *** The decoder *)

(** The course of a decoding.  An [UnmarshalTypeError] is saved and the
    decoding goes on ([Saved] holds the first one); the error of an
    [Unmarshaler] ends it ([Abort]). *)
Inductive status : Type :=
| Done
| Saved (e : error)
| Abort (e : error).

(** [s1], which did not end the decoding, and then [s2]. *)
Definition andThen (s1 s2 : status) : status :=
  match s1, s2 with
  | Done, _ => s2
  | Saved e, Abort e' => Abort e'
  | Saved e, _ => Saved e
  | Abort e, _ => Abort e
  end.

(** The error [Unmarshal] returns. *)
Definition statusError (s : status) : option error :=
  match s with
  | Done => None
  | Saved e | Abort e => Some e
  end.

(** What a literal is, told by its first byte as [literalStore] does. *)
Inductive kind : Type := KNull | KBool | KString | KNumber.

Definition literalKind (item : string) : kind :=
  match item with
  | String c _ =>
      if Ascii.eqb c "n" then KNull
      else if Ascii.eqb c "t" || Ascii.eqb c "f" then KBool
      else if Ascii.eqb c dquote then KString
      else KNumber
  | EmptyString => KNumber
  end.

(** The panic of a decoder that meets a literal the scanner would not
    have let through. *)
Definition phasePanic : error :=
  ForeignError "JSON decoder out of sync - data changing underfoot?".

(** A value stored in a Go [string]. *)
Definition decodeString (typ : string) (j : json) (v : string) : string * status :=
  match j with
  | JLiteral item =>
      match literalKind item with
      | KNull => (v, Done)
      | KBool => (v, Saved (UnmarshalTypeError "bool" typ))
      | KNumber => (v, Saved (UnmarshalTypeError "number" typ))
      | KString =>
          match unquote item with
          | Some s => (s, Done)
          | None => (v, Abort phasePanic)
          end
      end
  | JArray _ _ => (v, Saved (UnmarshalTypeError "array" typ))
  | JObject _ _ => (v, Saved (UnmarshalTypeError "object" typ))
  end.

(** A value stored in an unsigned integer of [bitSize] bits: the number
    is parsed by [strconv.ParseUint] and must not overflow the type. *)
Definition decodeUint (bitSize : N) (typ : string) (j : json) (v : N) : N * status :=
  match j with
  | JLiteral item =>
      match literalKind item with
      | KNull => (v, Done)
      | KBool => (v, Saved (UnmarshalTypeError "bool" typ))
      | KString => (v, Saved (UnmarshalTypeError "string" typ))
      | KNumber =>
          match strconv.ParseUint item with
          | Some n =>
              if (n <? 2 ^ bitSize)%N then (n, Done)
              else (v, Saved (UnmarshalTypeError ("number " ++ item) typ))
          | None => (v, Saved (UnmarshalTypeError ("number " ++ item) typ))
          end
      end
  | JArray _ _ => (v, Saved (UnmarshalTypeError "array" typ))
  | JObject _ _ => (v, Saved (UnmarshalTypeError "object" typ))
  end.

(** A value stored in a signed integer of [bitSize] bits. *)
Definition decodeInt (bitSize : N) (typ : string) (j : json) (v : Z) : Z * status :=
  match j with
  | JLiteral item =>
      match literalKind item with
      | KNull => (v, Done)
      | KBool => (v, Saved (UnmarshalTypeError "bool" typ))
      | KString => (v, Saved (UnmarshalTypeError "string" typ))
      | KNumber =>
          match strconv.ParseInt item with
          | Some n =>
              if ((- 2 ^ Z.of_N (bitSize - 1) <=? n) && (n <? 2 ^ Z.of_N (bitSize - 1)))%Z
              then (n, Done)
              else (v, Saved (UnmarshalTypeError ("number " ++ item) typ))
          | None => (v, Saved (UnmarshalTypeError ("number " ++ item) typ))
          end
      end
  | JArray _ _ => (v, Saved (UnmarshalTypeError "array" typ))
  | JObject _ _ => (v, Saved (UnmarshalTypeError "object" typ))
  end.

(** A value stored through a pointer: null makes the pointer nil; for
    any other value a nil pointer is first given a new zero value. *)
Definition decodePtr {T : Type} (zero : T) (dec : json -> T -> T * status)
    (j : json) (p : option T) : option T * status :=
  let store :=
    let (x, st) := dec j (match p with Some x => x | None => zero end) in
    (Some x, st) in
  match j with
  | JLiteral item =>
      match literalKind item with
      | KNull => (None, Done)
      | _ => store
      end
  | _ => store
  end.

(** A value handed to an [Unmarshaler]: it receives the text of the
    value, and its error ends the decoding. *)
Definition decodeUnmarshaler {T : Type} (um : string -> T -> T * option error)
    (j : json) (v : T) : T * status :=
  let (v', err) := um (raw j) v in
  (v', match err with Some e => Abort e | None => Done end).

(** The elements of an array stored in a slice, one after the other;
    element [i] is stored over the element the slice has there, or over
    a zero value. *)
Fixpoint arrayLoop {T : Type} (zero : T) (dec : json -> T -> T * status)
    (elems : list json) (old : list T) : list T * status :=
  match elems with
  | [] => ([], Done)
  | j :: rest =>
      let (x, st) := dec j (match old with x :: _ => x | [] => zero end) in
      match st with
      | Abort e => (x :: tl old, Abort e)
      | _ =>
          let (xs, st') := arrayLoop zero dec rest (tl old) in
          (x :: xs, andThen st st')
      end
  end.

(** A value stored in a slice, which is nil ([None]) or holds elements:
    null makes the slice nil and an array replaces its elements. *)
Definition decodeSlice {T : Type} (zero : T) (dec : json -> T -> T * status)
    (typ : string) (j : json) (v : option (list T)) : option (list T) * status :=
  match j with
  | JLiteral item =>
      match literalKind item with
      | KNull => (None, Done)
      | KBool => (v, Saved (UnmarshalTypeError "bool" typ))
      | KString => (v, Saved (UnmarshalTypeError "string" typ))
      | KNumber => (v, Saved (UnmarshalTypeError "number" typ))
      end
  | JArray _ elems =>
      let (l, st) := arrayLoop zero dec elems (match v with Some l => l | None => [] end) in
      (Some l, st)
  | JObject _ _ => (v, Saved (UnmarshalTypeError "object" typ))
  end.

(** The members of an object stored in a structure, one after the
    other: [store] stores the value of a member in the field its key
    selects, and does nothing for a key that selects none. *)
Fixpoint objectLoop {T : Type} (store : string -> json -> T -> T * status)
    (members : list (string * json)) (v : T) : T * status :=
  match members with
  | [] => (v, Done)
  | (k, j) :: rest =>
      match unquote k with
      | None => (v, Abort phasePanic)
      | Some key =>
          let (v1, st) := store key j v in
          match st with
          | Abort e => (v1, Abort e)
          | _ =>
              let (v2, st') := objectLoop store rest v1 in
              (v2, andThen st st')
          end
      end
  end.

(** A value stored in a structure. *)
Definition decodeStruct {T : Type} (store : string -> json -> T -> T * status)
    (typ : string) (j : json) (v : T) : T * status :=
  match j with
  | JLiteral item =>
      match literalKind item with
      | KNull => (v, Done)
      | KBool => (v, Saved (UnmarshalTypeError "bool" typ))
      | KString => (v, Saved (UnmarshalTypeError "string" typ))
      | KNumber => (v, Saved (UnmarshalTypeError "number" typ))
      end
  | JArray _ _ => (v, Saved (UnmarshalTypeError "array" typ))
  | JObject _ ms => objectLoop store ms v
  end.

(** [Unmarshal]: the text is checked first, and nothing is stored when
    it is not valid JSON; then the value is stored by [dec], the decoder
    of the type of [v]. *)
Definition Unmarshal {T : Type} (dec : json -> T -> T * status)
    (data : string) (v : T) : T * option error :=
  match scan data with
  | None => (v, Some SyntaxError)
  | Some j => let (v', st) := dec j v in (v', statusError st)
  end.

(** [RawMessage.UnmarshalJSON]: the message becomes a copy of the text. *)
Definition RawMessage_UnmarshalJSON (data : string) (m : string) : string * option error :=
  (data, None).

(** *** The encoder *)

(** The texts with a comma between them. *)
Fixpoint join (l : list string) : string :=
  match l with
  | [] => EmptyString
  | [x] => x
  | x :: rest => x ++ "," ++ join rest
  end.

(** The encoding of a value with a [MarshalJSON] method: the text the
    method returns, compacted. *)
Definition marshalerEncoder (typ : string) (m : string * option error) : string * option error :=
  match m with
  | (_, Some e) => (EmptyString, Some (MarshalerError typ e))
  | (b, None) =>
      match compact b with
      | Some t => (t, None)
      | None => (EmptyString, Some (MarshalerError typ SyntaxError))
      end
  end.

End json.

(** ** Package types *)

(** [types.EUI64], the 64-bit extended unique identifier of package
    [types], is not among the sources.  The type, its zero value, the
    text [encoding/json] writes for a value of the type and the way it
    stores a JSON value in one are parameters. *)
Class EUI64_type : Type := {
  EUI64 : Type;
  EUI64_zero : EUI64;
  EUI64_encode : EUI64 -> string * option error;
  EUI64_decode : json -> EUI64 -> EUI64 * json.status
}.

(** ** Package objects: the requests *)

Section objects.

Context {eui : EUI64_type}.

Definition ResetRequestParam : Type := N.

(** A slice of strings: nil, or its elements. *)
Definition GetInfoRequestParam : Type := option (list string).

(** The fields behind a pointer are optional; [JoinEUI] is held by
    value. *)
Record SetConfRequestParam : Type := mkSetConf {
  ADRMode : option N;
  JoinEUI : EUI64;
  Interval : option N;
  Region : option N;
  OpMode : option N
}.

Record FileDoneRequestParam : Type := mkFileDone {
  SID : Z;
  SCtr : Z
}.

Definition FUOTARequestParam : Type := Hex.

(** The interface [requestParam]: the types with the method
    [isRequestParam].  A request holds a pointer to a parameter; the
    pointer is not kept apart from what it points to. *)
Inductive requestParam : Type :=
| ResetParam (p : ResetRequestParam)
| GetInfoParam (p : GetInfoRequestParam)
| SetConfParam (p : SetConfRequestParam)
| FileDoneParam (p : FileDoneRequestParam)
| FUOTAParam (p : FUOTARequestParam).

(** Request encapsulates a modem request.  [Param] is [None] for the nil
    interface. *)
Record Request : Type := mkRequest {
  Type_ : string;
  Param : option requestParam
}.

Definition ResetRequestType : string := "RESET".
Definition RejoinRequestType : string := "REJOIN".
Definition MuteRequestType : string := "MUTE".
Definition GetInfoRequestType : string := "GETINFO".
Definition SetConfRequestType : string := "SETCONF".
Definition FileDoneRequestType : string := "FILEDONE".
Definition FUOTARequestType : string := "FUOTA".

(** [Param] is a [json.RawMessage]: the text of the value, empty for
    nil. *)
Record baseRequest : Type := mkBaseRequest {
  brType : string;
  brParam : string
}.

Definition errInvalidRequestType : Definition_ :=
  DefineInvalidArgument "invalid_request_type" "request type `{type}` is invalid".

(** *** What encoding/json does at the types of this package *)

(** The fields of [baseRequest], by their JSON names. *)
Definition store_baseRequest (key : string) (j : json) (v : baseRequest)
    : baseRequest * json.status :=
  match json.findField ["type"; "param"] key None with
  | Some f =>
      if String.eqb f "type" then
        let (x, st) := json.decodeString "string" j (brType v) in
        (mkBaseRequest x (brParam v), st)
      else
        let (x, st) := json.decodeUnmarshaler json.RawMessage_UnmarshalJSON j (brParam v) in
        (mkBaseRequest (brType v) x, st)
  | None => (v, json.Done)
  end.

Definition decode_baseRequest : json -> baseRequest -> baseRequest * json.status :=
  json.decodeStruct store_baseRequest "objects.baseRequest".

Definition decode_ResetRequestParam : json -> ResetRequestParam -> ResetRequestParam * json.status :=
  json.decodeUint 8 "objects.ResetRequestParam".

Definition decode_GetInfoRequestParam
    : json -> GetInfoRequestParam -> GetInfoRequestParam * json.status :=
  json.decodeSlice EmptyString (json.decodeString "string") "objects.GetInfoRequestParam".

(** The fields of [SetConfRequestParam], by their JSON names. *)
Definition store_SetConfRequestParam (key : string) (j : json) (v : SetConfRequestParam)
    : SetConfRequestParam * json.status :=
  match json.findField ["adrmode"; "joineui"; "interval"; "region"; "opmode"] key None with
  | Some f =>
      if String.eqb f "adrmode" then
        let (x, st) := json.decodePtr 0%N (json.decodeUint 8 "uint8") j (ADRMode v) in
        (mkSetConf x (JoinEUI v) (Interval v) (Region v) (OpMode v), st)
      else if String.eqb f "joineui" then
        let (x, st) := EUI64_decode j (JoinEUI v) in
        (mkSetConf (ADRMode v) x (Interval v) (Region v) (OpMode v), st)
      else if String.eqb f "interval" then
        let (x, st) := json.decodePtr 0%N (json.decodeUint 8 "uint8") j (Interval v) in
        (mkSetConf (ADRMode v) (JoinEUI v) x (Region v) (OpMode v), st)
      else if String.eqb f "region" then
        let (x, st) := json.decodePtr 0%N (json.decodeUint 8 "uint8") j (Region v) in
        (mkSetConf (ADRMode v) (JoinEUI v) (Interval v) x (OpMode v), st)
      else
        let (x, st) := json.decodePtr 0%N (json.decodeUint 32 "uint32") j (OpMode v) in
        (mkSetConf (ADRMode v) (JoinEUI v) (Interval v) (Region v) x, st)
  | None => (v, json.Done)
  end.

Definition decode_SetConfRequestParam
    : json -> SetConfRequestParam -> SetConfRequestParam * json.status :=
  json.decodeStruct store_SetConfRequestParam "objects.SetConfRequestParam".

(** The fields of [FileDoneRequestParam], by their JSON names. *)
Definition store_FileDoneRequestParam (key : string) (j : json) (v : FileDoneRequestParam)
    : FileDoneRequestParam * json.status :=
  match json.findField ["sid"; "sctr"] key None with
  | Some f =>
      if String.eqb f "sid" then
        let (x, st) := json.decodeInt 32 "int32" j (SID v) in
        (mkFileDone x (SCtr v), st)
      else
        let (x, st) := json.decodeInt 32 "int32" j (SCtr v) in
        (mkFileDone (SID v) x, st)
  | None => (v, json.Done)
  end.

Definition decode_FileDoneRequestParam
    : json -> FileDoneRequestParam -> FileDoneRequestParam * json.status :=
  json.decodeStruct store_FileDoneRequestParam "objects.FileDoneRequestParam".

(** *** The methods of FUOTARequestParam *)

(** MarshalJSON implements json.Marshaler. *)
Definition FUOTARequestParam_MarshalJSON (f : FUOTARequestParam) : string * option error :=
  Hex_MarshalJSON f.

(** UnmarshalJSON implements json.Unmarshaler: the receiver is assigned
    only when the local [h] was decoded without an error. *)
Definition FUOTARequestParam_UnmarshalJSON (b : string) (f : FUOTARequestParam)
    : FUOTARequestParam * option error :=
  let h : Hex := [] in
  let (h, err) := Hex_UnmarshalJSON b h in
  match err with
  | Some e => (f, Some e)
  | None => (h, None)
  end.

Definition decode_FUOTARequestParam
    : json -> FUOTARequestParam -> FUOTARequestParam * json.status :=
  json.decodeUnmarshaler FUOTARequestParam_UnmarshalJSON.

(** [json.Unmarshal(data, v)] for [v] a [requestParam]: the value is
    stored in what the pointer held by the interface points to. *)
Definition Unmarshal_requestParam (data : string) (v : requestParam)
    : requestParam * option error :=
  match v with
  | ResetParam p =>
      let (p', err) := json.Unmarshal decode_ResetRequestParam data p in (ResetParam p', err)
  | GetInfoParam p =>
      let (p', err) := json.Unmarshal decode_GetInfoRequestParam data p in (GetInfoParam p', err)
  | SetConfParam p =>
      let (p', err) := json.Unmarshal decode_SetConfRequestParam data p in (SetConfParam p', err)
  | FileDoneParam p =>
      let (p', err) := json.Unmarshal decode_FileDoneRequestParam data p in (FileDoneParam p', err)
  | FUOTAParam p =>
      let (p', err) := json.Unmarshal decode_FUOTARequestParam data p in (FUOTAParam p', err)
  end.

(** *** Request.UnmarshalJSON *)

(** The zero values of the declarations [var br baseRequest] and
    [var p ...]. *)
Definition zero_baseRequest : baseRequest := mkBaseRequest EmptyString EmptyString.
Definition zero_SetConfRequestParam : SetConfRequestParam :=
  mkSetConf None EUI64_zero None None None.
Definition zero_FileDoneRequestParam : FileDoneRequestParam := mkFileDone 0 0.
Definition zero_Request : Request := mkRequest EmptyString None.

(** UnmarshalJSON implements json.Unmarshaler.  The envelope is decoded
    first; [r.Type] is assigned before the switch; a recognised type
    with a parameter assigns [r.Param] a pointer to a new parameter,
    which the last statement decodes [br.Param] into. *)
Definition Request_UnmarshalJSON (b : string) (r : Request) : Request * option error :=
  let (br, err) := json.Unmarshal decode_baseRequest b zero_baseRequest in
  match err with
  | Some e => (r, Some e)
  | None =>
      let r := mkRequest (brType br) (Param r) in
      let unmarshalParam (p : requestParam) : Request * option error :=
        let r := mkRequest (Type_ r) (Some p) in
        let (p', err) := Unmarshal_requestParam (brParam br) p in
        (mkRequest (Type_ r) (Some p'), err) in
      if String.eqb (brType br) ResetRequestType then
        unmarshalParam (ResetParam 0%N)
      else if String.eqb (brType br) RejoinRequestType
              || String.eqb (brType br) MuteRequestType then
        (r, None)
      else if String.eqb (brType br) GetInfoRequestType then
        unmarshalParam (GetInfoParam None)
      else if String.eqb (brType br) SetConfRequestType then
        unmarshalParam (SetConfParam zero_SetConfRequestParam)
      else if String.eqb (brType br) FileDoneRequestType then
        unmarshalParam (FileDoneParam zero_FileDoneRequestParam)
      else if String.eqb (brType br) FUOTARequestType then
        unmarshalParam (FUOTAParam [])
      else
        (r, Some (WithAttributes errInvalidRequestType "type" (brType br)))
  end.

(** *** json.Marshal of a Request *)

Definition fieldText (name value : string) : string :=
  json.quote name ++ ":" ++ value.

(** A field behind a pointer, with [omitempty]: nothing for nil. *)
Definition optUint (name : string) (p : option N) : list string :=
  match p with
  | Some n => [fieldText name (strconv.FormatUint n)]
  | None => []
  end.

(** The text of a parameter.  A nil slice is written null; a field
    tagged [omitempty] is left out when its pointer is nil; [JoinEUI]
    is an array, which [omitempty] never leaves out. *)
Definition encode_requestParam (v : requestParam) : string * option error :=
  match v with
  | ResetParam p => (strconv.FormatUint p, None)
  | GetInfoParam None => ("null", None)
  | GetInfoParam (Some l) => ("[" ++ json.join (map json.quote l) ++ "]", None)
  | SetConfParam p =>
      match EUI64_encode (JoinEUI p) with
      | (_, Some e) => (EmptyString, Some e)
      | (t, None) =>
          ("{" ++ json.join (optUint "adrmode" (ADRMode p)
                             ++ [fieldText "joineui" t]
                             ++ optUint "interval" (Interval p)
                             ++ optUint "region" (Region p)
                             ++ optUint "opmode" (OpMode p))%list
               ++ "}", None)
      end
  | FileDoneParam p =>
      ("{" ++ json.join [fieldText "sid" (strconv.FormatInt (SID p));
                         fieldText "sctr" (strconv.FormatInt (SCtr p))]
           ++ "}", None)
  | FUOTAParam p =>
      json.marshalerEncoder "objects.FUOTARequestParam" (FUOTARequestParam_MarshalJSON p)
  end.

(** [json.Marshal(r)]: the fields [type] and [param] of the structure;
    [param] is tagged [omitempty] and left out for the nil interface. *)
Definition Marshal_Request (r : Request) : string * option error :=
  match Param r with
  | None => ("{" ++ fieldText "type" (json.quote (Type_ r)) ++ "}", None)
  | Some v =>
      match encode_requestParam v with
      | (_, Some e) => (EmptyString, Some e)
      | (t, None) =>
          ("{" ++ json.join [fieldText "type" (json.quote (Type_ r)); fieldText "param" t]
               ++ "}", None)
      end
  end.

End objects.

(** ** A realisation of the parameters *)

(** An identifier held as bytes and written, like a [Hex], as the
    hexadecimal digits of its bytes in a JSON string; it is read by an
    [Unmarshaler] that assigns its receiver only when the text was
    decoded without an error.  The properties of the requests hold for
    every realisation of [EUI64_type]; this one shows that their
    hypotheses can be met. *)
Definition hexEUI64_UnmarshalJSON (b : string) (e : list byte) : list byte * option error :=
  let (h, err) := Hex_UnmarshalJSON b [] in
  match err with
  | Some x => (e, Some x)
  | None => (h, None)
  end.

Definition hexEUI64 : EUI64_type := {|
  EUI64 := list byte;
  EUI64_zero := [x00; x00; x00; x00; x00; x00; x00; x00];
  EUI64_encode := fun e => json.marshalerEncoder "types.EUI64" (Hex_MarshalJSON e);
  EUI64_decode := json.decodeUnmarshaler hexEUI64_UnmarshalJSON
|}.

(** * The vocabulary of the specification *)

(** A character of [0-9a-fA-F]. *)
Definition is_hex_digit (c : ascii) : bool :=
  between "0" "9" c || between "a" "f" c || between "A" "F" c.

(** A character of [0-9a-f]. *)
Definition is_lower_hex_digit (c : ascii) : bool :=
  between "0" "9" c || between "a" "f" c.

(** The lowercase form of a text: the letters A to Z are replaced. *)
Definition lower_char (c : ascii) : ascii :=
  if between "A" "Z" c then ascii_of_N (code c + 32) else c.

Fixpoint lowercase (s : string) : string :=
  match s with
  | EmptyString => EmptyString
  | String c s' => String (lower_char c) (lowercase s')
  end.

(** Every character of the text satisfies [p]. *)
Fixpoint all_chars (p : ascii -> bool) (s : string) : bool :=
  match s with
  | EmptyString => true
  | String c s' => p c && all_chars p s'
  end.

(** The text without its last character. *)
Fixpoint but_last (s : string) : string :=
  match s with
  | EmptyString => EmptyString
  | String c EmptyString => EmptyString
  | String c s' => String c (but_last s')
  end.

(** The last character of the text. *)
Fixpoint last_char (s : string) : option ascii :=
  match s with
  | EmptyString => None
  | String c EmptyString => Some c
  | String _ s' => last_char s'
  end.

(** One leading quotation mark is removed, if there is one. *)
Definition strip_leading_quote (s : string) : string :=
  match s with
  | String c s' => if Ascii.eqb c dquote then s' else s
  | EmptyString => s
  end.

(** One trailing quotation mark is removed, if there is one. *)
Definition strip_trailing_quote (s : string) : string :=
  match last_char s with
  | Some c => if Ascii.eqb c dquote then but_last s else s
  | None => s
  end.

(** The text that is left for the hexadecimal decoder. *)
Definition strip_quotes (s : string) : string :=
  strip_trailing_quote (strip_leading_quote s).

(** The errors of the hexadecimal decoder, the DecodeError of the
    specification. *)
Definition is_DecodeError (e : error) : bool :=
  match e with
  | InvalidByteError _ | ErrLength => true
  | _ => false
  end.

(** The error the hexadecimal decoder reports at a text that does not
    begin with two hexadecimal digits: the first character that is no
    digit, or the length when one digit is left. *)
Definition error_at (rest : string) : option error :=
  match rest with
  | EmptyString => None
  | String c EmptyString =>
      Some (if is_hex_digit c then ErrLength else InvalidByteError c)
  | String c (String d _) =>
      if is_hex_digit c then
        if is_hex_digit d then None else Some (InvalidByteError d)
      else Some (InvalidByteError c)
  end.



(** The value a hexadecimal digit stands for. *)
Definition digit_value (c : ascii) : N :=
  if between "0" "9" c then code c - 48
  else if between "a" "f" c then code c - 87
  else code c - 55.

(** The bytes a hexadecimal text stands for, two digits for each. *)
Fixpoint hex_value (s : string) : list N :=
  match s with
  | String c (String d rest) => (16 * digit_value c + digit_value d)%N :: hex_value rest
  | _ => []
  end.

Section RequestVocabulary.

Context {eui : EUI64_type}.

(** The closed set of discriminators. *)
Definition discriminators : list string :=
  [ResetRequestType; RejoinRequestType; MuteRequestType; GetInfoRequestType;
   SetConfRequestType; FileDoneRequestType; FUOTARequestType].

(** The discriminators whose variant carries a payload. *)
Definition payload_discriminators : list string :=
  [ResetRequestType; GetInfoRequestType; SetConfRequestType;
   FileDoneRequestType; FUOTARequestType].

Definition one_of (l : list string) (t : string) : bool := existsb (String.eqb t) l.

(** The envelope of a text: what the first pass of the decoder makes of
    it, the discriminator and the payload that is not yet interpreted. *)
Definition envelope (b : string) : baseRequest * option error :=
  json.Unmarshal decode_baseRequest b zero_baseRequest.

(** InvalidRequestType, carrying the discriminator. *)
Definition InvalidRequestType (t : string) : error :=
  DefinedError errInvalidRequestType [("type", t)].

(** The new parameter that the decoder points [r.Param] to for a
    discriminator with a payload. *)
Definition new_param (t : string) : option requestParam :=
  if String.eqb t ResetRequestType then Some (ResetParam 0%N)
  else if String.eqb t GetInfoRequestType then Some (GetInfoParam None)
  else if String.eqb t SetConfRequestType then Some (SetConfParam zero_SetConfRequestParam)
  else if String.eqb t FileDoneRequestType then Some (FileDoneParam zero_FileDoneRequestParam)
  else if String.eqb t FUOTARequestType then Some (FUOTAParam [])
  else None.

(** The key of a member selects the field [f] among [fields]. *)
Definition selects (fields : list string) (f : string) (k : string) : bool :=
  match json.unquote k with
  | Some key =>
      match json.findField fields key None with
      | Some g => String.eqb g f
      | None => false
      end
  | None => false
  end.

(** The object has a member that is stored in [Param]. *)
Definition has_param_member (ms : list (string * json)) : bool :=
  existsb (fun m => selects ["type"; "param"] "param" (fst m)) ms.

End RequestVocabulary.

(** ** The declared shapes of the payloads *)









(** What may follow a value in the texts of the encoder: nothing, a
    comma or a closing bracket. *)
Definition ends_value (rest : string) : bool :=
  match rest with
  | EmptyString => true
  | String c _ => Ascii.eqb c "," || Ascii.eqb c "}" || Ascii.eqb c "]"
  end.

(** The text [text] is scanned as the value [j], whatever follows it. *)
Definition scans_as (k : nat) (text : string) (j : json) : Prop :=
  forall fuel rest,
    k <= fuel -> ends_value rest = true ->
    json.value fuel (text ++ rest) = Some (j, rest).

(** ** UTF-8 encodings, byte by byte *)

(** A byte of a multi-byte encoding. *)
Definition high (c : ascii) : bool := negb (code c <? 128)%N.

(** A leading byte of a multi-byte encoding. *)
Definition lead (c0 : ascii) : bool :=
  negb (code c0 <? 128)%N && negb ((code c0 <? 194) || (244 <? code c0))%N.

(** The second byte is in the range its leading byte accepts. *)
Definition second_ok (c0 c1 : ascii) : bool :=
  negb ((code c1 <? (if (code c0 =? 224)%N then 160%N
                     else if (code c0 =? 240)%N then 144%N else 128%N))%N
        || ((if (code c0 =? 237)%N then 159%N
             else if (code c0 =? 244)%N then 143%N else 191%N) <? code c1)%N).

(** A continuation byte. *)
Definition cont (c : ascii) : bool := negb ((code c <? 128) || (191 <? code c))%N.

Definition rune2 (c0 c1 : ascii) : N :=
  N.lor (N.shiftl (N.land (code c0) 31) 6) (N.land (code c1) 63).

Definition rune3 (c0 c1 c2 : ascii) : N :=
  N.lor (N.lor (N.shiftl (N.land (code c0) 15) 12) (N.shiftl (N.land (code c1) 63) 6))
        (N.land (code c2) 63).

Definition rune4 (c0 c1 c2 c3 : ascii) : N :=
  N.lor (N.lor (N.lor (N.shiftl (N.land (code c0) 7) 18)
                      (N.shiftl (N.land (code c1) 63) 12))
               (N.shiftl (N.land (code c2) 63) 6))
        (N.land (code c3) 63).

(** The valid encodings of two, three and four bytes. *)
Definition enc2 (c0 c1 : ascii) : bool :=
  lead c0 && (code c0 <? 224)%N && second_ok c0 c1.

Definition enc3 (c0 c1 c2 : ascii) : bool :=
  lead c0 && negb (code c0 <? 224)%N && (code c0 <? 240)%N && second_ok c0 c1 && cont c2.

Definition enc4 (c0 c1 c2 c3 : ascii) : bool :=
  lead c0 && negb (code c0 <? 224)%N && negb (code c0 <? 240)%N
  && second_ok c0 c1 && cont c2 && cont c3.

(** The text [h] put before the body that the scanner of strings
    returns. *)
Definition prepend (h : string) (r : option (string * string)) : option (string * string) :=
  match r with
  | Some (body, rest) => Some (h ++ body, rest)
  | None => None
  end.

(** A character that stands for itself in a JSON string: no quotation
    mark, no backslash and no control character. *)
Definition plain (c : ascii) : bool :=
  negb (Ascii.eqb c dquote) && negb (Ascii.eqb c bslash) && negb (code c <? 32)%N.

(** The fields of an object as the encoder writes them: the name, the
    text of the value and the value it is scanned as. *)
Definition fields_text (fs : list (string * string * json)) : string :=
  json.join (map (fun f => fieldText (fst (fst f)) (snd (fst f))) fs).

Definition fields_members (fs : list (string * string * json)) : list (string * json) :=
  map (fun f => (json.quote (fst (fst f)), snd f)) fs.

Section RequestEncoding.

Context {eui : EUI64_type}.

(** A pointer to an unsigned integer of [bits] bits, or nil. *)
Definition opt_below (bits : N) (o : option N) : Prop :=
  match o with
  | Some n => (n < 2 ^ bits)%N
  | None => True
  end.

(** The value is a signed integer of 32 bits. *)
Definition int32 (i : Z) : Prop := (- 2 ^ 31 <= i < 2 ^ 31)%Z.

(** A well-formed request: the parameter is of the variant of the
    discriminator, none for REJOIN and MUTE, and the numbers are within
    the width of their Go types. *)
Definition well_formed (r : Request) : Prop :=
  match Param r with
  | None => Type_ r = RejoinRequestType \/ Type_ r = MuteRequestType
  | Some (ResetParam n) => Type_ r = ResetRequestType /\ (n < 2 ^ 8)%N
  | Some (GetInfoParam _) => Type_ r = GetInfoRequestType
  | Some (SetConfParam p) =>
      Type_ r = SetConfRequestType
      /\ opt_below 8 (ADRMode p) /\ opt_below 8 (Interval p)
      /\ opt_below 8 (Region p) /\ opt_below 32 (OpMode p)
  | Some (FileDoneParam p) =>
      Type_ r = FileDoneRequestType /\ int32 (SID p) /\ int32 (SCtr p)
  | Some (FUOTAParam _) => Type_ r = FUOTARequestType
  end.

(** The field names of a GETINFO request are valid UTF-8. *)
Definition names_valid (r : Request) : Prop :=
  match Param r with
  | Some (GetInfoParam (Some l)) => Forall (fun s => utf8.ValidString s = true) l
  | _ => True
  end.

(** What is asked of the JSON form of an identifier, which is a
    parameter: it is written as a string of characters that stand for
    themselves, and that string is read back as the identifier. *)
Definition EUI64_roundtrip : Prop :=
  forall e : EUI64,
    exists t,
      EUI64_encode e = (Sprintf_quoted t, None)
      /\ all_chars plain t = true
      /\ forall e0, EUI64_decode (JLiteral (Sprintf_quoted t)) e0 = (e, json.Done).


(** The field of a pointer to an unsigned integer, as the encoder writes
    it: nothing for nil. *)
Definition optField (name : string) (o : option N) : list (string * string * json) :=
  match o with
  | Some n => [(name, strconv.FormatUint n, JLiteral (strconv.FormatUint n))]
  | None => []
  end.

(** The fields of a SETCONF parameter as the encoder writes them, [t]
    being the text of the identifier. *)
Definition SetConf_fields (p : SetConfRequestParam) (t : string)
    : list (string * string * json) :=
  (optField "adrmode" (ADRMode p)
   ++ [("joineui", Sprintf_quoted t, JLiteral (Sprintf_quoted t))]
   ++ optField "interval" (Interval p)
   ++ optField "region" (Region p)
   ++ optField "opmode" (OpMode p))%list.

(** The fields of the envelope as the encoder writes them. *)
Definition envelope_fields (T : string) (param : option (string * json))
    : list (string * string * json) :=
  ("type", json.quote T, JLiteral (json.quote T))
  :: match param with
     | Some (text, j) => [("param", text, j)]
     | None => []
     end.

End RequestEncoding.

(** The object has a member that is stored in [Type]. *)
Definition has_type_member (ms : list (string * json)) : bool :=
  existsb (fun m => selects ["type"; "param"] "type" (fst m)) ms.

(** The error, with the byte it reports in lowercase. *)
Definition lower_error (e : error) : error :=
  match e with
  | InvalidByteError c => InvalidByteError (lower_char c)
  | _ => e
  end.

(** * The license headers

    A shallow embedding of the program [.make/headers.go], which checks,
    adds and removes the license header of source files.

    Conventions.
    - The file system is a map from the names of the files to their
      contents.  Opening a file that does not exist fails; creating,
      writing, closing and renaming succeed.
    - A reader is the text that is left to read.
    - The log is the list of the messages, without the date the logger
      puts before each. *)

Module headers.

(** The line feed, 0x0a. *)
Definition newline : ascii := "010"%char.

(** ** Package regexp, for the patterns of the program *)

(** The patterns of the program are sequences of literals, of [.*] and
    of [$].  Without flags, [.] matches any character but the line feed
    and [$] matches at the end of the text. *)
Inductive atom : Type :=
| Lit (s : string)
| AnyStar
| EndText.

Definition Regexp : Type := list atom.

(** The pattern matches a prefix of the text. *)
Fixpoint matchHere (re : Regexp) : string -> bool :=
  match re with
  | [] => fun _ => true
  | Lit x :: re' =>
      fun s => strings.HasPrefix s x && matchHere re' (strings.from (String.length x) s)
  | AnyStar :: re' =>
      fix star (s : string) : bool :=
        matchHere re' s
        || match s with
           | String c s' => negb (Ascii.eqb c newline) && star s'
           | EmptyString => false
           end
  | EndText :: re' =>
      fun s =>
        match s with
        | EmptyString => matchHere re' s
        | String _ _ => false
        end
  end.

(** [re.Match(b)]: the text contains a match of the pattern. *)
Fixpoint Match (re : Regexp) (b : string) : bool :=
  matchHere re b
  || match b with
     | String _ b' => Match re b'
     | EmptyString => false
     end.

Definition makeRegex : Regexp := [AnyStar; Lit ".make"; EndText].
Definition makefileRegex : Regexp := [AnyStar; Lit "Makefile"; EndText].
Definition shRegex : Regexp := [AnyStar; Lit ".sh"; EndText].
Definition generatedRegex : Regexp := [Lit "generated"].

(** ** Package bufio *)

(** [ReadString(delim)] of a reader that holds [s]: the text up to and
    with the first delimiter and what is left to read; the flag tells
    that the end of the text was met before a delimiter ([io.EOF]), and
    the text is then all that was left. *)
Fixpoint ReadString (delim : ascii) (s : string) : string * string * bool :=
  match s with
  | EmptyString => (EmptyString, EmptyString, true)
  | String c s' =>
      if Ascii.eqb c delim then (String c EmptyString, s', false)
      else
        let '(line, rest, eof) := ReadString delim s' in
        (String c line, rest, eof)
  end.

(** ** Errors, files and the log *)

Inductive err : Type :=
| PathError (op path : string)
    (* *os.PathError: the file does not exist *)
| Errorf (msg : string).
    (* fmt.Errorf *)

(** [e.Error()], which the verb [%s] writes. *)
Definition Error (e : err) : string :=
  match e with
  | PathError op path => op ++ " " ++ path ++ ": no such file or directory"
  | Errorf msg => msg
  end.

Definition FS : Type := string -> option string.

(** The file [name] holds [content]. *)
Definition write (fs : FS) (name content : string) : FS :=
  fun n => if String.eqb n name then Some content else fs n.

(** [os.Rename(oldpath, newpath)] of a file that exists. *)
Definition Rename (fs : FS) (oldpath newpath : string) : FS :=
  fun n =>
    if String.eqb n newpath then fs oldpath
    else if String.eqb n oldpath then None
    else fs n.

(** ** The program *)

Definition prefixFunction (filename : string) : string -> string :=
  let commentPrefix :=
    if Match makeRegex filename || Match makefileRegex filename || Match shRegex filename
    then "#" else "//" in
  fun line =>
    if String.eqb line EmptyString || String.eqb line (String newline EmptyString)
    then commentPrefix ++ line
    else commentPrefix ++ " " ++ line.

(** The loop of [hasHeaders], [(valid, generated)]; [fuel] bounds the
    number of its rounds, and [None] is a loop that was cut short. *)
Fixpoint hasHeadersLoop (fuel : nat) (withPrefix : string -> string)
    (licenseReader checkedFileReader : string) : option (bool * bool) :=
  match fuel with
  | O => None
  | S fuel' =>
      let '(licenseLine, licenseReader', eof) := ReadString newline licenseReader in
      if eof then Some (true, false)
      else
        let '(checkedFileLine, checkedFileReader', _) :=
          ReadString newline checkedFileReader in
        let expected := withPrefix licenseLine in
        if negb (String.eqb checkedFileLine expected) then
          if Match generatedRegex checkedFileLine then Some (false, true)
          else Some (false, false)
        else hasHeadersLoop fuel' withPrefix licenseReader' checkedFileReader'
  end.

(** [hasHeaders(licenseContent, filename)]: [(valid, generated, err)].
    Every round but the last reads a line of the license, so that there
    is one round more than the license has characters at most. *)
Definition hasHeaders (fs : FS) (licenseContent filename : string)
    : option (bool * bool * option err) :=
  match fs filename with
  | None => Some (false, false, Some (PathError "open" filename))
  | Some file =>
      let withPrefix := prefixFunction filename in
      match hasHeadersLoop (S (String.length licenseContent)) withPrefix licenseContent file with
      | Some (valid, generated) => Some (valid, generated, None)
      | None => None
      end
  end.

(** The loop of [addHeader]: the lines of the license are written to
    the new file, after [written]. *)
Fixpoint addHeaderLoop (fuel : nat) (withPrefix : string -> string)
    (licenseReader written : string) : option string :=
  match fuel with
  | O => None
  | S fuel' =>
      let '(licenseLine, licenseReader', eof) := ReadString newline licenseReader in
      if eof then Some written
      else addHeaderLoop fuel' withPrefix licenseReader' (written ++ withPrefix licenseLine)
  end.

(** [addHeader(licenseContent, filename)]: the file system afterwards
    and the error. *)
Definition addHeader (fs : FS) (licenseContent filename : string) : option (FS * option err) :=
  let tempFilename := filename ++ "-fixed-headers" in
  let fs := write fs tempFilename EmptyString in
  let withPrefix := prefixFunction filename in
  match addHeaderLoop (S (String.length licenseContent)) withPrefix licenseContent
          EmptyString with
  | None => None
  | Some written =>
      let fs := write fs tempFilename written in
      let written := written ++ String newline EmptyString in
      let fs := write fs tempFilename written in
      match fs filename with
      | None => Some (fs, Some (PathError "open" filename))
      | Some originalFile =>
          let fs := write fs tempFilename (written ++ originalFile) in
          Some (Rename fs tempFilename filename, None)
      end
  end.

(** [nbLines(str)]; an [int] holds the number, a slice being shorter
    than 2^63. *)
Fixpoint nbLinesLoop (nb : Z) (str : string) : Z :=
  match str with
  | EmptyString => nb
  | String char str' =>
      nbLinesLoop (if Ascii.eqb char newline then nb + 1 else nb)%Z str'
  end.

Definition nbLines (str : string) : Z := nbLinesLoop 1 str.

(** The loop of [removeHeaders], for the [n] rounds that are left: what
    is left to read after them, or the error of a line that ends with
    the text. *)
Fixpoint removeHeadersLoop (n : nat) (originalFileReader : string) : string + err :=
  match n with
  | O => inl originalFileReader
  | S n' =>
      let '(_, originalFileReader', eof) := ReadString newline originalFileReader in
      if eof then inr (Errorf ("could not read original file content (" ++ "EOF" ++ ")"))
      else removeHeadersLoop n' originalFileReader'
  end.

(** [removeHeaders(nbLines, filename)]: the file system afterwards and
    the error. *)
Definition removeHeaders (fs : FS) (nbLines : Z) (filename : string) : FS * option err :=
  let tempFilename := filename ++ "-without-headers" in
  let fs := write fs tempFilename EmptyString in
  match fs filename with
  | None => (fs, Some (PathError "open" filename))
  | Some originalFile =>
      match removeHeadersLoop (Z.to_nat nbLines) originalFile with
      | inr e => (fs, Some e)
      | inl rest =>
          let fs := write fs tempFilename rest in
          (Rename fs tempFilename filename, None)
      end
  end.

Record headersOperation : Type := mkOperation {
  licenseContent : string;
  filenames : list string
}.

(** The loop of [check] over the files that are left: the log and
    [allFilesValid] afterwards. *)
Fixpoint checkLoop (fs : FS) (o : headersOperation) (files : list string)
    (log : list string) (allFilesValid : bool) : option (list string * bool) :=
  match files with
  | [] => Some (log, allFilesValid)
  | file :: files' =>
      match hasHeaders fs (licenseContent o) file with
      | None => None
      | Some (valid, generated, Some e) =>
          checkLoop fs o files'
            (log ++ ["Could not check headers in " ++ file ++ ": " ++ Error e
                     ++ String newline EmptyString])
            false
      | Some (valid, generated, None) =>
          if negb valid && negb generated then
            checkLoop fs o files'
              (log ++ ["Invalid headers in " ++ file ++ "."
                       ++ String newline EmptyString])
              false
          else checkLoop fs o files' log allFilesValid
      end
  end.

(** [o.check()], with the log it writes. *)
Definition check (fs : FS) (o : headersOperation) : option (list string * bool) :=
  checkLoop fs o (filenames o) [] true.

(** The loop of [remove] over the files that are left: the file
    system, the log and [wasError] afterwards. *)
Fixpoint removeLoop (fs : FS) (o : headersOperation) (files : list string)
    (log : list string) (wasError : option err) : option (FS * list string * option err) :=
  match files with
  | [] => Some (fs, log, wasError)
  | file :: files' =>
      match hasHeaders fs (licenseContent o) file with
      | None => None
      | Some (valid, generated, Some e) =>
          removeLoop fs o files'
            (log ++ ["Could not check headers in " ++ file ++ ": " ++ Error e
                     ++ String newline EmptyString])
            (Some e)
      | Some (valid, generated, None) =>
          if negb generated then
            if negb valid then
              removeLoop fs o files'
                (log ++ ["No headers in " ++ file ++ "." ++ String newline EmptyString])
                wasError
            else
              match removeHeaders fs (nbLines (licenseContent o)) file with
              | (fs', Some e) =>
                  removeLoop fs' o files'
                    (log ++ ["Could not remove headers in " ++ file ++ ": " ++ Error e
                             ++ String newline EmptyString])
                    (Some e)
              | (fs', None) => removeLoop fs' o files' log wasError
              end
          else removeLoop fs o files' log wasError
      end
  end.

(** [o.remove()]: the file system and the log afterwards, and the
    result. *)
Definition remove (fs : FS) (o : headersOperation) : option (FS * list string * bool) :=
  match removeLoop fs o (filenames o) [] None with
  | Some (fs', log, wasError) =>
      Some (fs', log, match wasError with None => true | Some _ => false end)
  | None => None
  end.

(** The loop of [fix] over the files that are left. *)
Fixpoint fixLoop (fs : FS) (o : headersOperation) (files : list string)
    (log : list string) (wasError : option err) : option (FS * list string * option err) :=
  match files with
  | [] => Some (fs, log, wasError)
  | file :: files' =>
      match hasHeaders fs (licenseContent o) file with
      | None => None
      | Some (valid, generated, Some e) =>
          fixLoop fs o files'
            (log ++ ["Could not remove headers in " ++ file ++ ": " ++ Error e
                     ++ String newline EmptyString])
            (Some e)
      | Some (valid, generated, None) =>
          if negb valid && negb generated then
            match addHeader fs (licenseContent o) file with
            | None => None
            | Some (fs', Some e) =>
                fixLoop fs' o files'
                  (log ++ ["Could not fix " ++ file ++ ": " ++ Error e
                           ++ String newline EmptyString])
                  wasError
            | Some (fs', None) =>
                fixLoop fs' o files'
                  (log ++ ["Fixed headers in " ++ file ++ "." ++ String newline EmptyString])
                  wasError
            end
          else fixLoop fs o files' log wasError
      end
  end.

(** [o.fix()]: the file system and the log afterwards, and the result. *)
Definition fix_ (fs : FS) (o : headersOperation) : option (FS * list string * bool) :=
  match fixLoop fs o (filenames o) [] None with
  | Some (fs', log, wasError) =>
      Some (fs', log, match wasError with None => true | Some _ => false end)
  | None => None
  end.

End headers.

(** ** The vocabulary of the properties of the headers *)

(** The lines of a text that end with a line feed, each with its line
    feed. *)
Fixpoint complete_lines_from (line : string) (s : string) : list string :=
  match s with
  | EmptyString => []
  | String c s' =>
      if Ascii.eqb c headers.newline
      then (line ++ String c EmptyString) :: complete_lines_from EmptyString s'
      else complete_lines_from (line ++ String c EmptyString) s'
  end.

Definition complete_lines (s : string) : list string :=
  complete_lines_from EmptyString s.

(** The text has no line feed. *)
Definition no_newline (s : string) : bool :=
  all_chars (fun c => negb (Ascii.eqb c headers.newline)) s.

(** The text is one line: it ends with a line feed and has no other. *)
Definition one_line (s : string) : Prop :=
  exists t, s = t ++ String headers.newline EmptyString /\ no_newline t = true.

(** The texts one after the other. *)
Fixpoint concat_lines (l : list string) : string :=
  match l with
  | [] => EmptyString
  | x :: l' => x ++ concat_lines l'
  end.

(** The header of a file: the lines of the license, each with the
    comment prefix of the file. *)
Definition header_of (licenseContent filename : string) : string :=
  concat_lines (map (headers.prefixFunction filename) (complete_lines licenseContent)).

(** What [hasHeaders] makes of a file, told from the lines of the
    license: [(valid, generated)]. *)
Fixpoint header_lines_match (withPrefix : string -> string) (lines : list string)
    (file : string) : bool * bool :=
  match lines with
  | [] => (true, false)
  | line :: lines' =>
      let '(checked, file', _) := headers.ReadString headers.newline file in
      if String.eqb checked (withPrefix line)
      then header_lines_match withPrefix lines' file'
      else if headers.Match headers.generatedRegex checked then (false, true)
      else (false, false)
  end.

(** The text ends with the text [suffix]. *)
Fixpoint ends_with (s suffix : string) : bool :=
  String.eqb s suffix
  || match s with
     | String _ s' => ends_with s' suffix
     | EmptyString => false
     end.

(** The comment prefix of a file, told from the end of its name. *)
Definition comment_prefix (filename : string) : string :=
  if ends_with filename ".make" || ends_with filename "Makefile" || ends_with filename ".sh"
  then "#" else "//".

(** The file passes the check: it exists, and its header is valid or
    the file is generated. *)
Definition file_ok (fs : headers.FS) (licenseContent filename : string) : bool :=
  match fs filename with
  | None => false
  | Some file =>
      let (valid, generated) :=
        header_lines_match (headers.prefixFunction filename)
          (complete_lines licenseContent) file in
      valid || generated
  end.

(** The text has the text [sub] in it. *)
Fixpoint contains (s sub : string) : bool :=
  strings.HasPrefix s sub
  || match s with
     | String _ s' => contains s' sub
     | EmptyString => false
     end.

(** * Properties of the Hex codec *)

(** ** The vocabulary of the specification *)

(** ** Slices of texts *)

Lemma from_length_app (p s : string) :
  strings.from (String.length p) (p ++ s) = s.
Proof. induction p as [| c p IH]; simpl; auto. Qed.

Lemma upto_length_app (p s : string) :
  strings.upto (String.length p) (p ++ s) = p.
Proof. induction p as [| c p IH]; simpl; [ destruct s | rewrite IH ]; auto. Qed.

Lemma append_assoc (s t u : string) : (s ++ t) ++ u = s ++ (t ++ u).
Proof. induction s as [| c s IH]; simpl; [| rewrite IH ]; reflexivity. Qed.

Lemma append_empty_r (s : string) : s ++ EmptyString = s.
Proof. induction s as [| c s IH]; simpl; [| rewrite IH ]; reflexivity. Qed.

Lemma length_app (s t : string) :
  String.length (s ++ t) = String.length s + String.length t.
Proof. induction s; simpl; auto. Qed.

Lemma upto_but_last (s : string) :
  strings.upto (String.length s - 1) s = but_last s.
Proof.
  induction s as [| c s IH]; simpl; auto.
  destruct s as [| d s]; auto.
  simpl in *. rewrite Nat.sub_0_r in IH. rewrite IH. reflexivity.
Qed.

Lemma from_last (s : string) (c : ascii) :
  last_char s = Some c ->
  strings.from (String.length s - 1) s = String c EmptyString.
Proof.
  induction s as [| d s IH]; simpl; [ discriminate |].
  destruct s as [| d' s]; intros H.
  - inversion H; reflexivity.
  - simpl in *. rewrite Nat.sub_0_r in IH. auto.
Qed.

Lemma last_char_length (s : string) :
  last_char s = None -> s = EmptyString.
Proof.
  induction s as [| d s IH]; simpl; auto.
  destruct s; [ discriminate | intros H; apply IH in H; discriminate ].
Qed.

(** [strings.TrimPrefix] with a quotation mark strips one leading mark. *)
Lemma TrimPrefix_quote (s : string) :
  strings.TrimPrefix s (String dquote EmptyString) = strip_leading_quote s.
Proof.
  unfold strings.TrimPrefix, strings.HasPrefix, strip_leading_quote.
  destruct s as [| c s]; simpl; auto.
  destruct (Ascii.eqb_spec c dquote) as [-> | Hne].
  - reflexivity.
  - destruct (String.eqb_spec (String c EmptyString) (String dquote EmptyString))
      as [E | _]; [ inversion E; contradiction | reflexivity ].
Qed.

(** [strings.TrimSuffix] with a quotation mark strips one trailing mark. *)
Lemma TrimSuffix_quote (s : string) :
  strings.TrimSuffix s (String dquote EmptyString) = strip_trailing_quote s.
Proof.
  unfold strings.TrimSuffix, strings.HasSuffix, strip_trailing_quote.
  destruct (last_char s) as [c |] eqn:L.
  - assert (Hlen : (1 <=? String.length s)%nat = true).
    { destruct s; [ discriminate | reflexivity ]. }
    change (String.length (String dquote EmptyString)) with 1%nat.
    rewrite Hlen, (from_last s c L). simpl andb.
    destruct (Ascii.eqb_spec c dquote) as [-> | Hne].
    + apply upto_but_last.
    + destruct (String.eqb_spec (String c EmptyString) (String dquote EmptyString))
        as [E | _]; [ inversion E; contradiction | reflexivity ].
  - apply last_char_length in L. subst s. reflexivity.
Qed.

Lemma strip_quotes_Trim (b : string) :
  strings.TrimSuffix (strings.TrimPrefix b (String dquote EmptyString))
    (String dquote EmptyString) = strip_quotes b.
Proof. rewrite TrimPrefix_quote, TrimSuffix_quote. reflexivity. Qed.

Lemma last_char_app_quote (s : string) :
  last_char (s ++ String dquote EmptyString) = Some dquote
  /\ but_last (s ++ String dquote EmptyString) = s.
Proof.
  induction s as [| c s [IH1 IH2]]; [ simpl; auto |].
  destruct s as [| d s]; [ simpl; auto |].
  change ((String c (String d s)) ++ String dquote EmptyString)
    with (String c (String d (s ++ String dquote EmptyString))).
  change (String d s ++ String dquote EmptyString)
    with (String d (s ++ String dquote EmptyString)) in IH1, IH2.
  split.
  - exact IH1.
  - change (but_last (String c (String d (s ++ String dquote EmptyString))))
      with (String c (but_last (String d (s ++ String dquote EmptyString)))).
    rewrite IH2. reflexivity.
Qed.

Lemma strip_quotes_quoted (s : string) :
  strip_quotes (Sprintf_quoted s) = s.
Proof.
  unfold strip_quotes, Sprintf_quoted, strip_leading_quote, strip_trailing_quote.
  rewrite Ascii.eqb_refl.
  destruct (last_char_app_quote s) as [-> ->]. rewrite Ascii.eqb_refl. reflexivity.
Qed.

(** ** Induction on a text, two characters at a time *)

Lemma string_pair_ind (P : string -> Prop) :
  P EmptyString ->
  (forall c, P (String c EmptyString)) ->
  (forall c d s, P s -> P (String c (String d s))) ->
  forall s, P s.
Proof.
  intros H0 H1 H2.
  fix IH 1. intros [| c [| d s]].
  - exact H0.
  - apply H1.
  - apply H2, IH.
Qed.

(** ** Bytes and digits *)

Lemma nibbles_of_byte (v : byte) :
  hex.fromHexChar (hex.hexdigit (N.shiftr (Byte.to_N v) 4))
    = Some (N.shiftr (Byte.to_N v) 4)
  /\ hex.fromHexChar (hex.hexdigit (N.land (Byte.to_N v) 15))
    = Some (N.land (Byte.to_N v) 15)
  /\ u8 (N.lor (N.shiftl (N.shiftr (Byte.to_N v) 4) 4) (N.land (Byte.to_N v) 15)) = v.
Proof. destruct v; vm_compute; auto. Qed.

Lemma digits_of_byte (v : byte) :
  is_lower_hex_digit (hex.hexdigit (N.shiftr (Byte.to_N v) 4)) = true
  /\ is_lower_hex_digit (hex.hexdigit (N.land (Byte.to_N v) 15)) = true
  /\ (16 * digit_value (hex.hexdigit (N.shiftr (Byte.to_N v) 4))
      + digit_value (hex.hexdigit (N.land (Byte.to_N v) 15)))%N = Byte.to_N v.
Proof. destruct v; vm_compute; auto. Qed.

(** What [fromHexChar] returns: the value of a digit, below sixteen, whose
    lowercase character is the one of [hextable]. *)
Lemma fromHexChar_spec (c : ascii) :
  match hex.fromHexChar c with
  | Some a =>
      is_hex_digit c = true /\ a = digit_value c /\ (a < 16)%N
      /\ hex.hexdigit a = lower_char c
  | None => is_hex_digit c = false
  end.
Proof.
  destruct c as [[] [] [] [] [] [] [] []]; vm_compute; auto.
Qed.

Lemma hex_digit_not_quote (c : ascii) :
  is_hex_digit c = true -> Ascii.eqb c dquote = false.
Proof.
  destruct c as [[] [] [] [] [] [] [] []]; intros H; try discriminate H; reflexivity.
Qed.

Lemma nibble_cases (a : N) :
  (a < 16)%N ->
  In a [0; 1; 2; 3; 4; 5; 6; 7; 8; 9; 10; 11; 12; 13; 14; 15]%N.
Proof.
  intros H. simpl.
  destruct a as [| p]; [ auto |].
  do 4 (destruct p as [p | p |]; try (exfalso; lia); auto 20).
Qed.

Lemma byte_of_nibbles (a b : N) :
  (a < 16)%N -> (b < 16)%N ->
  N.shiftr (Byte.to_N (u8 (N.lor (N.shiftl a 4) b))) 4 = a
  /\ N.land (Byte.to_N (u8 (N.lor (N.shiftl a 4) b))) 15 = b.
Proof.
  intros Ha Hb. apply nibble_cases in Ha. apply nibble_cases in Hb.
  simpl in Ha, Hb.
  repeat (destruct Ha as [<- | Ha]; [| try contradiction ]);
    repeat (destruct Hb as [<- | Hb]; [ vm_compute; auto | try contradiction ]).
Qed.

(** ** The decoder on the text of the encoder *)

Lemma Decode_EncodeToString (h : list byte) :
  hex.Decode (hex.EncodeToString h) = (h, None).
Proof.
  induction h as [| v h IH]; [ reflexivity |].
  cbn [hex.EncodeToString hex.Decode].
  destruct (nibbles_of_byte v) as (-> & -> & E).
  rewrite IH, E. reflexivity.
Qed.

Lemma EncodeToString_length (h : list byte) :
  String.length (hex.EncodeToString h) = 2 * List.length h.
Proof. induction h as [| v h IH]; simpl; [| rewrite IH ]; lia. Qed.

Lemma EncodeToString_lower (h : list byte) :
  all_chars is_lower_hex_digit (hex.EncodeToString h) = true.
Proof.
  induction h as [| v h IH]; [ reflexivity |].
  cbn [hex.EncodeToString all_chars].
  destruct (digits_of_byte v) as (-> & -> & _). exact IH.
Qed.

Lemma EncodeToString_value (h : list byte) :
  hex_value (hex.EncodeToString h) = map Byte.to_N h.
Proof.
  induction h as [| v h IH]; [ reflexivity |].
  cbn [hex.EncodeToString hex_value map].
  destruct (digits_of_byte v) as (_ & _ & ->). rewrite IH. reflexivity.
Qed.

(** ** What the decoder returns *)

Lemma Decode_spec (s : string) :
  match hex.Decode s with
  | (out, None) =>
      Nat.even (String.length s) = true
      /\ all_chars is_hex_digit s = true
      /\ map Byte.to_N out = hex_value s
      /\ hex.EncodeToString out = lowercase s
  | (_, Some e) =>
      is_DecodeError e = true
      /\ (Nat.even (String.length s) = false \/ all_chars is_hex_digit s = false)
  end.
Proof.
  induction s as [| c | c d s IH] using string_pair_ind.
  - cbn. auto.
  - cbn [hex.Decode]. pose proof (fromHexChar_spec c) as Hc.
    destruct (hex.fromHexChar c); cbn; auto.
  - cbn [hex.Decode].
    pose proof (fromHexChar_spec c) as Hc. pose proof (fromHexChar_spec d) as Hd.
    destruct (hex.fromHexChar c) as [a |].
    2:{ cbn. rewrite Hc. auto. }
    destruct (hex.fromHexChar d) as [b |].
    2:{ cbn. rewrite Hd, andb_false_r. auto. }
    destruct Hc as (Hc & -> & Ha & Hca). destruct Hd as (Hd & -> & Hb & Hdb).
    destruct (hex.Decode s) as [out [e |]].
    + destruct IH as [He IH]. split; [ exact He |].
      cbn [String.length all_chars]. rewrite Hc, Hd. cbn [andb].
      change (Nat.even (S (S (String.length s)))) with (Nat.even (String.length s)).
      exact IH.
    + destruct IH as (Hev & Hall & Hval & Henc).
      cbn [String.length all_chars map hex_value hex.EncodeToString lowercase].
      rewrite Hc, Hd, Hall, Hval, Henc.
      destruct (byte_of_nibbles _ _ Ha Hb) as [Hhi Hlo].
      rewrite Hhi, Hlo, Hca, Hdb.
      assert (Hv : Byte.to_N (u8 (N.lor (N.shiftl (digit_value c) 4) (digit_value d)))
                   = (16 * digit_value c + digit_value d)%N).
      { clear - Ha Hb. apply nibble_cases in Ha. apply nibble_cases in Hb.
        simpl in Ha, Hb.
        repeat (destruct Ha as [<- | Ha]; [| try contradiction ]);
          repeat (destruct Hb as [<- | Hb]; [ vm_compute; auto | try contradiction ]). }
      rewrite Hv. auto.
Qed.

Lemma strip_quotes_hex (s : string) :
  all_chars is_hex_digit s = true -> strip_quotes s = s.
Proof.
  intros H. unfold strip_quotes.
  assert (E : strip_leading_quote s = s).
  { destruct s as [| c s]; [ reflexivity |]. simpl in *.
    apply andb_prop in H. rewrite (hex_digit_not_quote c); tauto. }
  rewrite E. unfold strip_trailing_quote.
  destruct (last_char s) as [c |] eqn:L; [| reflexivity ].
  assert (Hc : is_hex_digit c = true).
  { clear E. induction s as [| d s IH]; [ discriminate |].
    simpl in H. apply andb_prop in H. destruct H as [Hd Hs].
    destruct s as [| d' s]; [ inversion L; subst; exact Hd |].
    apply IH; assumption. }
  rewrite (hex_digit_not_quote c Hc). reflexivity.
Qed.

(** ** The claims on the Hex codec *)

(** C3.  Hex encode is total: for every byte sequence it returns no error
    and the text it returns is a quotation mark, two lowercase hexadecimal
    digits for every byte (the digits of that byte, nothing before and
    nothing between) and a quotation mark; the empty byte sequence gives
    the two quotation marks alone. *)
Theorem C3_Hex_encode_total (h : Hex) :
  (exists t,
      Hex_MarshalJSON h = (String dquote (t ++ String dquote EmptyString), None)
      /\ String.length t = 2 * List.length h
      /\ all_chars is_lower_hex_digit t = true
      /\ hex_value t = map Byte.to_N h)
  /\ Hex_MarshalJSON [] = (String dquote (String dquote EmptyString), None).
Proof.
  split; [| reflexivity ].
  exists (hex.EncodeToString h). split; [ reflexivity |].
  auto using EncodeToString_length, EncodeToString_lower, EncodeToString_value.
Qed.

(** C4.  Hex decode strips one leading and one trailing quotation mark if
    present and reads what is left as hexadecimal: it returns a
    DecodeError exactly when what is left has odd length or holds a
    character outside 0-9a-fA-F, and otherwise the bytes the digits stand
    for; the quoted text abc, of odd length, is rejected. *)
Theorem C4_Hex_decode_errors (b : string) (h : Hex) :
  strings.TrimSuffix (strings.TrimPrefix b (String dquote EmptyString))
      (String dquote EmptyString) = strip_quotes b
  /\ match Hex_UnmarshalJSON b h with
     | (out, None) =>
         Nat.even (String.length (strip_quotes b)) = true
         /\ all_chars is_hex_digit (strip_quotes b) = true
         /\ map Byte.to_N out = hex_value (strip_quotes b)
     | (_, Some e) =>
         is_DecodeError e = true
         /\ (Nat.even (String.length (strip_quotes b)) = false
             \/ all_chars is_hex_digit (strip_quotes b) = false)
     end
  /\ snd (Hex_UnmarshalJSON (js "'abc'") h) = Some ErrLength.
Proof.
  split; [ apply strip_quotes_Trim |]. split; [| reflexivity ].
  unfold Hex_UnmarshalJSON, hex.DecodeString. rewrite strip_quotes_Trim.
  pose proof (Decode_spec (strip_quotes b)) as H.
  destruct (hex.Decode (strip_quotes b)) as [out [e |]]; tauto.
Qed.

(** Decoding the text of the encoder gives the bytes back. *)
Lemma Hex_decode_encode (b h0 : Hex) :
  Hex_UnmarshalJSON (fst (Hex_MarshalJSON b)) h0 = (b, None).
Proof.
  unfold Hex_UnmarshalJSON, Hex_MarshalJSON, hex.DecodeString. cbn [fst].
  rewrite strip_quotes_Trim, strip_quotes_quoted. apply Decode_EncodeToString.
Qed.

(** C2, as stated, fails on the second half: the encoder wraps the digits
    in quotation marks, so that encoding the bytes decoded from AB gives
    the four characters of the quoted ab and not the two characters ab. *)
Lemma C2_Hex_roundtrip_counterexample :
  Nat.even (String.length "AB") = true
  /\ all_chars is_hex_digit "AB" = true
  /\ fst (Hex_MarshalJSON (fst (Hex_UnmarshalJSON "AB" []))) <> lowercase "AB".
Proof. repeat split. vm_compute. discriminate. Qed.

(** C2, amended.  For every byte sequence b, Hex decode of Hex encode of b
    returns exactly b; and for every even-length text s of characters in
    0-9a-fA-F, Hex encode of Hex decode of s returns the lowercase form of
    s wrapped in quotation marks. *)
Theorem C2_Hex_roundtrip (b : Hex) (s : string) (h0 : Hex) :
  Hex_UnmarshalJSON (fst (Hex_MarshalJSON b)) h0 = (b, None)
  /\ (Nat.even (String.length s) = true ->
      all_chars is_hex_digit s = true ->
      snd (Hex_UnmarshalJSON s h0) = None
      /\ Hex_MarshalJSON (fst (Hex_UnmarshalJSON s h0))
         = (Sprintf_quoted (lowercase s), None)).
Proof.
  split.
  - apply Hex_decode_encode.
  - intros Hev Hall.
    unfold Hex_UnmarshalJSON, Hex_MarshalJSON, hex.DecodeString.
    rewrite strip_quotes_Trim, (strip_quotes_hex s Hall).
    pose proof (Decode_spec s) as H.
    destruct (hex.Decode s) as [out [e |]]; cbn [fst snd].
    + destruct H as [_ [H | H]]; congruence.
    + destruct H as (_ & _ & _ & ->). auto.
Qed.

Lemma C2_Hex_roundtrip_witness :
  Hex_UnmarshalJSON (fst (Hex_MarshalJSON [x01; xab])) [] = ([x01; xab], None)
  /\ snd (Hex_UnmarshalJSON "AbC9" []) = None
  /\ Hex_MarshalJSON (fst (Hex_UnmarshalJSON "AbC9" []))
     = (Sprintf_quoted (lowercase "AbC9"), None).
Proof.
  destruct (C2_Hex_roundtrip [x01; xab] "AbC9" []) as [H1 H2].
  split; [ exact H1 | apply H2; reflexivity ].
Defined.

(** * Properties of the Request codec *)

Section RequestProperties.

Context {eui : EUI64_type}.

(** ** The vocabulary of the specification *)

(** ** The switch of the decoder *)

Lemma one_of_false (l : list string) (t x : string) :
  one_of l t = false -> In x l -> String.eqb t x = false.
Proof.
  unfold one_of. intros H Hin.
  destruct (String.eqb t x) eqn:E; [| reflexivity ].
  rewrite <- H. symmetry. apply existsb_exists. eauto.
Qed.

(** An envelope that fails to decode: the error is returned and the
    receiver is as it was. *)
Lemma UnmarshalJSON_envelope_error (b : string) (r : Request) (br : baseRequest) (e : error) :
  envelope b = (br, Some e) -> Request_UnmarshalJSON b r = (r, Some e).
Proof.
  unfold envelope, Request_UnmarshalJSON. intros ->. reflexivity.
Qed.

(** The discriminators without a payload. *)
Lemma UnmarshalJSON_no_payload (b : string) (r : Request) (br : baseRequest) :
  envelope b = (br, None) ->
  brType br = RejoinRequestType \/ brType br = MuteRequestType ->
  Request_UnmarshalJSON b r = (mkRequest (brType br) (Param r), None).
Proof.
  unfold envelope, Request_UnmarshalJSON. intros -> [-> | ->]; reflexivity.
Qed.

(** The switch, once the envelope is decoded. *)
Lemma UnmarshalJSON_switch (b : string) (r : Request) (br : baseRequest) :
  envelope b = (br, None) ->
  Request_UnmarshalJSON b r
  = if String.eqb (brType br) RejoinRequestType || String.eqb (brType br) MuteRequestType
    then (mkRequest (brType br) (Param r), None)
    else
      match new_param (brType br) with
      | Some p =>
          (mkRequest (brType br) (Some (fst (Unmarshal_requestParam (brParam br) p))),
           snd (Unmarshal_requestParam (brParam br) p))
      | None => (mkRequest (brType br) (Param r), Some (InvalidRequestType (brType br)))
      end.
Proof.
  unfold envelope, Request_UnmarshalJSON, new_param. intros ->.
  destruct (String.eqb_spec (brType br) ResetRequestType) as [E | _].
  { rewrite E. cbn -[Unmarshal_requestParam].
    destruct (Unmarshal_requestParam _ _); reflexivity. }
  destruct (String.eqb (brType br) RejoinRequestType || String.eqb (brType br) MuteRequestType);
    [ reflexivity |].
  repeat match goal with
  | |- context [if String.eqb ?x ?y then _ else _] =>
      destruct (String.eqb x y);
      [ cbn -[Unmarshal_requestParam];
        destruct (Unmarshal_requestParam _ _); reflexivity |]
  end.
  reflexivity.
Qed.

(** The discriminators with a payload: the payload is decoded into a new
    parameter and the error of that decoding is returned as it is. *)
Lemma UnmarshalJSON_payload (b : string) (r : Request) (br : baseRequest) :
  envelope b = (br, None) ->
  one_of payload_discriminators (brType br) = true ->
  exists p, new_param (brType br) = Some p
    /\ Request_UnmarshalJSON b r
       = (mkRequest (brType br) (Some (fst (Unmarshal_requestParam (brParam br) p))),
          snd (Unmarshal_requestParam (brParam br) p)).
Proof.
  intros Henv H. rewrite (UnmarshalJSON_switch b r br Henv).
  unfold one_of, payload_discriminators in H. cbn [existsb] in H.
  repeat match type of H with
  | (String.eqb ?x ?y || _) = true =>
      destruct (String.eqb_spec x y) as [E | _];
      [ rewrite E; eexists; split; reflexivity | cbn [orb] in H ]
  end.
  discriminate.
Qed.

(** The default case of the switch. *)
Lemma UnmarshalJSON_default (b : string) (r : Request) (br : baseRequest) :
  envelope b = (br, None) ->
  one_of discriminators (brType br) = false ->
  Request_UnmarshalJSON b r
  = (mkRequest (brType br) (Param r), Some (InvalidRequestType (brType br))).
Proof.
  unfold envelope, Request_UnmarshalJSON. intros -> H.
  rewrite !(one_of_false _ _ _ H) by (simpl; auto 10).
  reflexivity.
Qed.

(** ** An envelope without a param member *)

Lemma store_baseRequest_other (key : string) (j : json) (v : baseRequest) :
  match json.findField ["type"; "param"] key None with
  | Some g => String.eqb g "param"
  | None => false
  end = false ->
  brParam (fst (store_baseRequest key j v)) = brParam v.
Proof.
  unfold store_baseRequest. cbn [json.findField].
  destruct (String.eqb "type" key).
  { intros _. cbn. destruct (json.decodeString _ _ _); reflexivity. }
  destruct (String.eqb "param" key); [ discriminate |].
  destruct (json.equalFold "type" key).
  { intros _. cbn. destruct (json.decodeString _ _ _); reflexivity. }
  destruct (json.equalFold "param" key); [ discriminate | reflexivity ].
Qed.

Lemma objectLoop_no_param (ms : list (string * json)) (v : baseRequest) :
  has_param_member ms = false ->
  brParam (fst (json.objectLoop store_baseRequest ms v)) = brParam v.
Proof.
  revert v. induction ms as [| [k j] ms IH]; intros v H; [ reflexivity |].
  cbn [has_param_member existsb fst] in H. apply orb_false_elim in H.
  destruct H as [Hk Hms]. unfold selects in Hk.
  cbn [json.objectLoop].
  destruct (json.unquote k) as [key |]; [| reflexivity ].
  pose proof (store_baseRequest_other key j v Hk) as Hs.
  destruct (store_baseRequest key j v) as [v1 st]. cbn [fst] in Hs.
  specialize (IH v1 Hms).
  destruct (json.objectLoop store_baseRequest ms v1) as [v2 st'].
  cbn [fst] in IH.
  destruct st; cbn [fst]; congruence.
Qed.

Lemma envelope_no_param (b raw : string) (ms : list (string * json)) (br : baseRequest)
    (err : option error) :
  json.scan b = Some (JObject raw ms) ->
  has_param_member ms = false ->
  envelope b = (br, err) ->
  brParam br = EmptyString.
Proof.
  unfold envelope, json.Unmarshal. intros -> Hms.
  unfold decode_baseRequest, json.decodeStruct.
  pose proof (objectLoop_no_param ms zero_baseRequest Hms) as H.
  destruct (json.objectLoop store_baseRequest ms zero_baseRequest) as [v st].
  intros E. inversion E; subst. exact H.
Qed.

(** No parameter can be read from no text. *)
Lemma Unmarshal_requestParam_empty (p : requestParam) :
  Unmarshal_requestParam EmptyString p = (p, Some SyntaxError).
Proof. destruct p; reflexivity. Qed.

(** ** The claims on the dispatch *)

(** C5.  An envelope whose type is a string outside the closed set of
    discriminators fails with InvalidRequestType carrying that very
    string; the payload is not interpreted, the result being the same
    whatever the payload is; in particular for the type FOO. *)
Theorem C5_unknown_discriminator :
  (forall (b : string) (r : Request) (br : baseRequest),
      envelope b = (br, None) ->
      one_of discriminators (brType br) = false ->
      Request_UnmarshalJSON b r
      = (mkRequest (brType br) (Param r),
         Some (WithAttributes errInvalidRequestType "type" (brType br))))
  /\ (forall (b1 b2 : string) (r : Request) (br1 br2 : baseRequest),
      envelope b1 = (br1, None) ->
      envelope b2 = (br2, None) ->
      brType br1 = brType br2 ->
      one_of discriminators (brType br1) = false ->
      Request_UnmarshalJSON b1 r = Request_UnmarshalJSON b2 r)
  /\ Request_UnmarshalJSON (js "{'type':'FOO','param':{}}") zero_Request
     = (mkRequest "FOO" None, Some (InvalidRequestType "FOO")).
Proof.
  split; [| split ].
  - intros b r br Henv H. apply UnmarshalJSON_default; assumption.
  - intros b1 b2 r br1 br2 H1 H2 E H.
    rewrite (UnmarshalJSON_default b1 r br1 H1 H).
    rewrite E in H. rewrite (UnmarshalJSON_default b2 r br2 H2 H).
    rewrite E. reflexivity.
  - vm_compute. reflexivity.
Qed.

(** C7.  For the discriminators REJOIN and MUTE the payload is ignored:
    the decoding succeeds whatever the payload is and the request holds
    the discriminator and no parameter of its own (the receiver keeps
    the one it had, none for a new request); the envelopes with the type
    MUTE, without a param and with the param ignored, give the same
    request without a parameter. *)
Theorem C7_no_payload_variants :
  (forall (b : string) (r : Request) (br : baseRequest),
      envelope b = (br, None) ->
      brType br = RejoinRequestType \/ brType br = MuteRequestType ->
      Request_UnmarshalJSON b r = (mkRequest (brType br) (Param r), None))
  /\ Request_UnmarshalJSON (js "{'type':'MUTE'}") zero_Request
     = (mkRequest MuteRequestType None, None)
  /\ Request_UnmarshalJSON (js "{'type':'MUTE','param':'ignored'}") zero_Request
     = (mkRequest MuteRequestType None, None).
Proof.
  split; [| split ].
  - intros b r br Henv H. apply UnmarshalJSON_no_payload; assumption.
  - vm_compute. reflexivity.
  - vm_compute. reflexivity.
Qed.

(** C10.  An envelope without a param member leaves the payload of the
    envelope empty, and for the five discriminators with a payload the
    decoder still reads it: the decoding fails, with the syntax error of
    an empty text.  Hence an envelope without a param member is decoded
    without an error for REJOIN and MUTE only. *)
Theorem C10_absent_param (b raw : string) (ms : list (string * json))
    (r : Request) (br : baseRequest) :
  json.scan b = Some (JObject raw ms) ->
  has_param_member ms = false ->
  envelope b = (br, None) ->
  brParam br = EmptyString
  /\ (one_of payload_discriminators (brType br) = true ->
      exists r', Request_UnmarshalJSON b r = (r', Some SyntaxError))
  /\ (snd (Request_UnmarshalJSON b r) = None ->
      brType br = RejoinRequestType \/ brType br = MuteRequestType).
Proof.
  intros Hscan Hms Henv.
  pose proof (envelope_no_param b raw ms br None Hscan Hms Henv) as Hp.
  split; [ exact Hp |]. split.
  - intros H. destruct (UnmarshalJSON_payload b r br Henv H) as (p & _ & ->).
    rewrite Hp, Unmarshal_requestParam_empty. eexists. reflexivity.
  - rewrite (UnmarshalJSON_switch b r br Henv).
    destruct (String.eqb_spec (brType br) RejoinRequestType) as [E | _]; [ auto |].
    destruct (String.eqb_spec (brType br) MuteRequestType) as [E | _]; [ auto |].
    cbn [orb]. destruct (new_param (brType br)) as [p |]; cbn [snd].
    + rewrite Hp, Unmarshal_requestParam_empty. discriminate.
    + discriminate.
Qed.

(** ** The receiver after an error *)

(** The bytes a failing [hex.Decode] returns are those of the pairs of
    digits before the error. *)
Lemma Decode_partial (s : string) (out : list byte) (e : error) :
  hex.Decode s = (out, Some e) ->
  hex.Decode (strings.upto (2 * List.length out) s) = (out, None).
Proof.
  revert out. induction s as [| c | c d s IH] using string_pair_ind; intros out.
  - discriminate.
  - cbn [hex.Decode]. destruct (hex.fromHexChar c); intros H; inversion H; reflexivity.
  - cbn [hex.Decode].
    destruct (hex.fromHexChar c) as [a |] eqn:Ea; [| intros H; inversion H; reflexivity ].
    destruct (hex.fromHexChar d) as [b' |] eqn:Eb; [| intros H; inversion H; reflexivity ].
    destruct (hex.Decode s) as [out' err'] eqn:Es.
    intros H. inversion H; subst. specialize (IH out' eq_refl).
    change (2 * List.length (u8 (N.lor (N.shiftl a 4) b') :: out'))
      with (2 * S (List.length out')).
    replace (2 * S (List.length out')) with (S (S (2 * List.length out'))) by lia.
    cbn [strings.upto hex.Decode]. rewrite Ea, Eb, IH. reflexivity.
Qed.

(** A failing [hex.Decode] has decoded the pairs of digits before the
    place of the error, all of them. *)
Lemma Decode_before_error (s : string) (out : list byte) (e : error) :
  hex.Decode s = (out, Some e) ->
  exists prefix rest,
    s = prefix ++ rest
    /\ Nat.even (String.length prefix) = true
    /\ all_chars is_hex_digit prefix = true
    /\ map Byte.to_N out = hex_value prefix
    /\ List.length out = Nat.div2 (String.length prefix)
    /\ error_at rest = Some e.
Proof.
  revert out. induction s as [| c | c d s IH] using string_pair_ind; intros out.
  - discriminate.
  - cbn [hex.Decode]. pose proof (fromHexChar_spec c) as Hc.
    destruct (hex.fromHexChar c); intros H; inversion H; subst;
      exists EmptyString, (String c EmptyString); cbn [error_at];
      [ destruct Hc as (-> & _) | rewrite Hc ]; repeat split; reflexivity.
  - cbn [hex.Decode].
    pose proof (fromHexChar_spec c) as Hc. pose proof (fromHexChar_spec d) as Hd.
    destruct (hex.fromHexChar c) as [a |].
    2:{ intros H; inversion H; subst. exists EmptyString, (String c (String d s)).
        cbn [error_at]. rewrite Hc. repeat split; reflexivity. }
    destruct Hc as (Hc & -> & Ha & _).
    destruct (hex.fromHexChar d) as [b |].
    2:{ intros H; inversion H; subst. exists EmptyString, (String c (String d s)).
        cbn [error_at]. rewrite Hc, Hd. repeat split; reflexivity. }
    destruct Hd as (Hd & -> & Hb & _).
    destruct (hex.Decode s) as [out' err'] eqn:Es.
    intros H. inversion H; subst.
    destruct (IH out' eq_refl) as (prefix & rest & -> & Hev & Hall & Hval & Hlen & Herr).
    exists (String c (String d prefix)), rest.
    cbn [append String.length all_chars hex_value map List.length Nat.div2].
    rewrite Hc, Hd, Hall, Hval, Hlen.
    assert (Hv : Byte.to_N (u8 (N.lor (N.shiftl (digit_value c) 4) (digit_value d)))
                 = (16 * digit_value c + digit_value d)%N).
    { clear - Ha Hb. apply nibble_cases in Ha. apply nibble_cases in Hb.
      simpl in Ha, Hb.
      repeat (destruct Ha as [<- | Ha]; [| try contradiction ]);
        repeat (destruct Hb as [<- | Hb]; [ vm_compute; auto | try contradiction ]). }
    rewrite Hv.
    change (Nat.even (S (S (String.length prefix)))) with (Nat.even (String.length prefix)).
    repeat split; assumption.
Qed.

(** C9, amended.  Every error of Request decode is returned to the
    caller.  An envelope that fails to decode leaves the receiver
    unchanged.  Past the envelope the receiver's Type holds the
    discriminator: when the discriminator is not recognised the Param of
    the receiver is unchanged, and when the payload of a recognised
    discriminator fails to decode the Param holds the new parameter as
    far as it was decoded.  A failing Hex decode assigns its receiver the
    bytes decoded before the error: the text, less its quotation marks,
    is pairs of hexadecimal digits up to the place of the error, and the
    receiver holds the bytes of all these pairs, one for each; the error
    is the one of that place.  The decode of a FUOTA parameter leaves its
    receiver unchanged. *)
Theorem C9_receiver_after_error (b : string) (r : Request) (h : Hex) :
  match envelope b with
  | (_, Some e) => Request_UnmarshalJSON b r = (r, Some e)
  | (br, None) =>
      Type_ (fst (Request_UnmarshalJSON b r)) = brType br
      /\ (one_of discriminators (brType br) = false ->
          Request_UnmarshalJSON b r
          = (mkRequest (brType br) (Param r), Some (InvalidRequestType (brType br))))
      /\ (one_of payload_discriminators (brType br) = true ->
          exists p, new_param (brType br) = Some p
            /\ Request_UnmarshalJSON b r
               = (mkRequest (brType br)
                    (Some (fst (Unmarshal_requestParam (brParam br) p))),
                  snd (Unmarshal_requestParam (brParam br) p)))
  end
  /\ (forall out e,
        Hex_UnmarshalJSON b h = (out, Some e) ->
        hex.Decode (strings.upto (2 * List.length out) (strip_quotes b)) = (out, None)
        /\ exists prefix rest,
             strip_quotes b = prefix ++ rest
             /\ Nat.even (String.length prefix) = true
             /\ all_chars is_hex_digit prefix = true
             /\ map Byte.to_N out = hex_value prefix
             /\ List.length out = Nat.div2 (String.length prefix)
             /\ error_at rest = Some e)
  /\ (forall e,
        snd (FUOTARequestParam_UnmarshalJSON b h) = Some e ->
        fst (FUOTARequestParam_UnmarshalJSON b h) = h).
Proof.
  split; [| split ].
  - destruct (envelope b) as [br [e |]] eqn:Henv.
    + apply (UnmarshalJSON_envelope_error b r br e Henv).
    + split; [| split ].
      * rewrite (UnmarshalJSON_switch b r br Henv).
        destruct (_ || _); [ reflexivity |].
        destruct (new_param (brType br)); reflexivity.
      * apply UnmarshalJSON_default; assumption.
      * apply UnmarshalJSON_payload; assumption.
  - unfold Hex_UnmarshalJSON, hex.DecodeString. rewrite strip_quotes_Trim.
    intros out e H. split; [ apply (Decode_partial _ _ _ H) |].
    apply (Decode_before_error _ _ _ H).
  - unfold FUOTARequestParam_UnmarshalJSON. intros e.
    destruct (Hex_UnmarshalJSON b []) as [h' [e' |]]; cbn; [ reflexivity | discriminate ].
Qed.

(** C8.  What the code does on the envelope of the claim: Region is
    populated, the four fields behind a pointer tell an absent value
    (nil) from a zero, but JoinEUI, a field held by value, holds the zero
    identifier, and encoding the decoded request writes a joineui
    member. *)
Theorem C8_SetConf_JoinEUI_by_value :
  Request_UnmarshalJSON (js "{'type':'SETCONF','param':{'region':2}}") zero_Request
  = (mkRequest SetConfRequestType
       (Some (SetConfParam (mkSetConf None EUI64_zero None (Some 2%N) None))), None)
  /\ Request_UnmarshalJSON (js "{'type':'SETCONF','param':{'region':0}}") zero_Request
     = (mkRequest SetConfRequestType
          (Some (SetConfParam (mkSetConf None EUI64_zero None (Some 0%N) None))), None)
  /\ match EUI64_encode EUI64_zero with
     | (t, None) =>
         Marshal_Request
           (mkRequest SetConfRequestType
              (Some (SetConfParam (mkSetConf None EUI64_zero None (Some 2%N) None))))
         = (js "{'type':'SETCONF','param':{'joineui':" ++ t ++ js ",'region':2}}", None)
     | (_, Some e) =>
         Marshal_Request
           (mkRequest SetConfRequestType
              (Some (SetConfParam (mkSetConf None EUI64_zero None (Some 2%N) None))))
         = (EmptyString, Some e)
     end.
Proof.
  split; [ vm_compute; reflexivity |]. split; [ vm_compute; reflexivity |].
  unfold Marshal_Request, encode_requestParam. cbn [Param JoinEUI].
  destruct (EUI64_encode EUI64_zero) as [t [e |]]; [ reflexivity |].
  cbv [json.join fieldText optUint Region ADRMode Interval OpMode app].
  rewrite !append_assoc. reflexivity.
Qed.

End RequestProperties.

Lemma C5_unknown_discriminator_witness :
  Request_UnmarshalJSON (eui := hexEUI64) (js "{'type':'BAR','param':[1,2]}") zero_Request
  = (mkRequest "BAR" None, Some (WithAttributes errInvalidRequestType "type" "BAR")).
Proof.
  apply (proj1 (C5_unknown_discriminator (eui := hexEUI64))
           (js "{'type':'BAR','param':[1,2]}") zero_Request
           (mkBaseRequest "BAR" "[1,2]")).
  - vm_compute. reflexivity.
  - vm_compute. reflexivity.
Defined.

Lemma C7_no_payload_variants_witness :
  Request_UnmarshalJSON (eui := hexEUI64) (js "{'type':'REJOIN','param':{'x':[true]}}")
    zero_Request
  = (mkRequest "REJOIN" None, None).
Proof.
  apply (proj1 (C7_no_payload_variants (eui := hexEUI64))
           (js "{'type':'REJOIN','param':{'x':[true]}}") zero_Request
           (mkBaseRequest "REJOIN" (js "{'x':[true]}"))).
  - vm_compute. reflexivity.
  - left. reflexivity.
Defined.

Lemma C10_absent_param_witness :
  exists r', Request_UnmarshalJSON (eui := hexEUI64) (js "{'type':'GETINFO'}") zero_Request
             = (r', Some SyntaxError).
Proof.
  refine (proj1 (proj2 (C10_absent_param (eui := hexEUI64)
           (js "{'type':'GETINFO'}") (js "{'type':'GETINFO'}")
           [(js "'type'", JLiteral (js "'GETINFO'"))] zero_Request
           (mkBaseRequest "GETINFO" EmptyString) _ _ _)) _);
    vm_compute; reflexivity.
Defined.

(** C9, as stated, fails: an unrecognised discriminator is left in the
    Type of the receiver; a payload that fails to decode leaves the
    discriminator and the part of the parameter that was decoded; a
    failing Hex decode returns the bytes decoded before the error. *)
Lemma C9_receiver_after_error_counterexample :
  (snd (Request_UnmarshalJSON (eui := hexEUI64) (js "{'type':'FOO','param':{}}") zero_Request)
     <> None
   /\ fst (Request_UnmarshalJSON (eui := hexEUI64) (js "{'type':'FOO','param':{}}")
             zero_Request)
      = mkRequest "FOO" None
   /\ mkRequest (eui := hexEUI64) "FOO" None <> zero_Request)
  /\ Request_UnmarshalJSON (eui := hexEUI64) (js "{'type':'GETINFO','param':['a',1]}")
       zero_Request
     = (mkRequest "GETINFO" (Some (GetInfoParam (Some ["a"; EmptyString]))),
        Some (UnmarshalTypeError "number" "string"))
  /\ Hex_UnmarshalJSON (js "'abc'") [] = ([xab], Some ErrLength).
Proof.
  assert (E : Request_UnmarshalJSON (eui := hexEUI64) (js "{'type':'FOO','param':{}}")
                zero_Request
              = (mkRequest "FOO" None, Some (InvalidRequestType "FOO"))) by reflexivity.
  rewrite E. cbn [fst snd].
  split; [ split; [ discriminate | split; [ reflexivity | discriminate ] ] |].
  split; reflexivity.
Qed.

Lemma C9_receiver_after_error_witness :
  Request_UnmarshalJSON (eui := hexEUI64) (js "{'type':'FOO','param':{}}") zero_Request
  = (mkRequest "FOO" None, Some (InvalidRequestType "FOO"))
  /\ exists prefix rest,
       strip_quotes (js "'abzz12'") = prefix ++ rest
       /\ Nat.even (String.length prefix) = true
       /\ all_chars is_hex_digit prefix = true
       /\ map Byte.to_N [xab] = hex_value prefix
       /\ List.length [xab] = Nat.div2 (String.length prefix)
       /\ error_at rest = Some (InvalidByteError "z").
Proof.
  pose proof (C9_receiver_after_error (eui := hexEUI64)
                (js "{'type':'FOO','param':{}}") zero_Request []) as H1.
  pose proof (C9_receiver_after_error (eui := hexEUI64) (js "'abzz12'") zero_Request [])
    as H2.
  split.
  - apply (proj1 (proj2 (proj1 H1))). reflexivity.
  - apply (proj2 (proj1 (proj2 H2) [xab] (InvalidByteError "z") eq_refl)).
Defined.

(** * Numbers and their decimal texts *)

Lemma small_cases (u : N) :
  (u < 10)%N -> In u [0; 1; 2; 3; 4; 5; 6; 7; 8; 9]%N.
Proof.
  intros H. simpl.
  destruct u as [| p]; [ auto |].
  do 4 (destruct p as [p | p |]; try (exfalso; lia); auto 20).
Qed.

(** The character of a digit. *)
Lemma digit_char (u : N) :
  (u < 10)%N ->
  strconv.is_digit (ascii_of_N (code "0" + u)) = true
  /\ (code (ascii_of_N (code "0" + u)) - code "0")%N = u
  /\ (Ascii.eqb (ascii_of_N (code "0" + u)) "0" = true -> u = 0%N)
  /\ between "1" "9" (ascii_of_N (code "0" + u))
     = negb (Ascii.eqb (ascii_of_N (code "0" + u)) "0").
Proof.
  intros H. apply small_cases in H. simpl in H.
  repeat (destruct H as [<- | H]; [ vm_compute; repeat split; congruence |]).
  contradiction.
Qed.

Lemma formatBits_S (fuel : nat) (u : N) (a : string) :
  strconv.formatBits (S fuel) u a
  = if (u <? 10)%N then String (ascii_of_N (code "0" + u)) a
    else strconv.formatBits fuel (u / 10) (String (ascii_of_N (code "0" + u mod 10)) a).
Proof. reflexivity. Qed.

(** What [formatBits] writes before [a]: a nonempty text of digits whose
    value is [u], with a leading zero for zero only. *)
Lemma formatBits_spec (fuel : nat) :
  forall (u : N) (a : string),
    (u < 2 ^ N.of_nat (S fuel))%N ->
    exists c D,
      strconv.formatBits (S fuel) u a = String c D ++ a
      /\ all_chars strconv.is_digit (String c D) = true
      /\ (forall acc b,
             strconv.digits_value acc (String c D ++ b)
             = strconv.digits_value (acc * 10 ^ N.of_nat (String.length (String c D)) + u) b)
      /\ (Ascii.eqb c "0" = true -> u = 0%N /\ D = EmptyString)
      /\ between "1" "9" c = negb (Ascii.eqb c "0").
Proof.
  induction fuel as [| fuel IH]; intros u a Hu.
  - assert (Hlt : (u < 10)%N) by (change (2 ^ N.of_nat 1)%N with 2%N in Hu; lia).
    rewrite formatBits_S, (proj2 (N.ltb_lt u 10) Hlt).
    destruct (digit_char u Hlt) as (Hd & Hv & Hz & Hb).
    exists (ascii_of_N (code "0" + u)), EmptyString. refine (conj _ (conj _ (conj _ (conj _ _)))).
    + reflexivity.
    + cbn [all_chars]. rewrite Hd. reflexivity.
    + intros acc b. cbn [append strconv.digits_value String.length].
      rewrite Hd, Hv. reflexivity.
    + auto.
    + exact Hb.
  - rewrite formatBits_S. destruct (N.ltb_spec u 10) as [Hlt | Hge].
    + destruct (digit_char u Hlt) as (Hd & Hv & Hz & Hb).
      exists (ascii_of_N (code "0" + u)), EmptyString. refine (conj _ (conj _ (conj _ (conj _ _)))).
      * reflexivity.
      * cbn [all_chars]. rewrite Hd. reflexivity.
      * intros acc b. cbn [append strconv.digits_value String.length].
        rewrite Hd, Hv. reflexivity.
      * auto.
      * exact Hb.
    + assert (Hq : (u / 10 < 2 ^ N.of_nat (S fuel))%N).
      { apply N.Div0.div_lt_upper_bound.
        rewrite Nat2N.inj_succ, N.pow_succ_r' in Hu. lia. }
      assert (Hm : (u mod 10 < 10)%N) by (apply N.mod_lt; lia).
      destruct (digit_char _ Hm) as (Hd & Hv & _ & _).
      destruct (IH (u / 10)%N (String (ascii_of_N (code "0" + u mod 10)) a) Hq)
        as (c & D & E & Hall & Hval & Hz & Hb).
      exists c, (D ++ String (ascii_of_N (code "0" + u mod 10)) EmptyString).
      refine (conj _ (conj _ (conj _ (conj _ _)))).
      * rewrite E. cbn [append]. rewrite append_assoc. reflexivity.
      * clear - Hall Hd. cbn [all_chars] in *. apply andb_prop in Hall.
        destruct Hall as [-> Hall]. cbn [andb].
        induction D as [| d D IHD]; cbn [append all_chars] in *.
        -- rewrite Hd. reflexivity.
        -- apply andb_prop in Hall. destruct Hall as [-> Hall]. auto.
      * intros acc b.
        change (String c (D ++ String (ascii_of_N (code "0" + u mod 10)) EmptyString) ++ b)
          with (String c ((D ++ String (ascii_of_N (code "0" + u mod 10)) EmptyString) ++ b)).
        rewrite append_assoc. cbn [append].
        change (String c (D ++ String (ascii_of_N (code "0" + u mod 10)) b))
          with (String c D ++ String (ascii_of_N (code "0" + u mod 10)) b).
        rewrite Hval. cbn [strconv.digits_value]. rewrite Hd, Hv. f_equal.
        cbn [String.length]. rewrite length_app. cbn [String.length].
        replace (S (String.length D + 1)) with (S (S (String.length D))) by lia.
        rewrite (Nat2N.inj_succ (S (String.length D))), N.pow_succ_r'.
        cbn [String.length].
        pose proof (N.div_mod u 10 ltac:(lia)) as Hdm. lia.
      * intros Hc. destruct (Hz Hc) as [Hq0 _].
        exfalso. assert (1 <= u / 10)%N; [| lia ].
        apply N.div_le_lower_bound; lia.
      * exact Hb.
Qed.

(** The text of [FormatUint]. *)
Lemma FormatUint_spec (n : N) :
  exists c D,
    strconv.FormatUint n = String c D
    /\ all_chars strconv.is_digit (String c D) = true
    /\ strconv.digits_value 0 (String c D) = Some n
    /\ (Ascii.eqb c "0" = true -> n = 0%N /\ D = EmptyString)
    /\ between "1" "9" c = negb (Ascii.eqb c "0").
Proof.
  unfold strconv.FormatUint.
  assert (Hn : (n < 2 ^ N.of_nat (S (N.to_nat (N.log2 n))))%N).
  { rewrite Nat2N.inj_succ, N2Nat.id.
    destruct n as [| p]; [ reflexivity |].
    apply N.log2_spec. lia. }
  destruct (formatBits_spec _ n EmptyString Hn) as (c & D & E & Hall & Hval & Hz & Hb).
  exists c, D. rewrite E, append_empty_r.
  refine (conj eq_refl (conj Hall (conj _ (conj Hz Hb)))).
  specialize (Hval 0%N EmptyString). rewrite append_empty_r in Hval.
  rewrite Hval. reflexivity.
Qed.

Lemma ParseUint_FormatUint (n : N) :
  (n < 2 ^ 64)%N -> strconv.ParseUint (strconv.FormatUint n) = Some n.
Proof.
  intros Hn. destruct (FormatUint_spec n) as (c & D & -> & _ & Hval & _).
  unfold strconv.ParseUint. rewrite Hval.
  rewrite (proj2 (N.ltb_lt _ _) Hn). reflexivity.
Qed.

Lemma digit_not_sign (c : ascii) :
  strconv.is_digit c = true ->
  Ascii.eqb c "-" = false /\ Ascii.eqb c "+" = false
  /\ Ascii.eqb c "{" = false /\ Ascii.eqb c "[" = false
  /\ Ascii.eqb c dquote = false /\ Ascii.eqb c "n" = false
  /\ Ascii.eqb c "t" = false /\ Ascii.eqb c "f" = false
  /\ json.isSpace c = false.
Proof.
  destruct c as [[] [] [] [] [] [] [] []]; intros H; try discriminate H;
    vm_compute; auto 10.
Qed.

Lemma ParseInt_FormatInt (i : Z) :
  (- 2 ^ 63 <= i < 2 ^ 63)%Z -> strconv.ParseInt (strconv.FormatInt i) = Some i.
Proof.
  intros Hi. unfold strconv.FormatInt.
  destruct (Z.ltb_spec i 0) as [Hneg | Hpos].
  - destruct (FormatUint_spec (Z.to_N (- i))) as (c & D & -> & _ & Hval & _).
    unfold strconv.ParseInt.
    change (Ascii.eqb "-" "-") with true. change (Ascii.eqb "-" "+") with false.
    cbn [orb]. rewrite Hval.
    assert (H : (Z.to_N (- i) <=? 2 ^ 63)%N = true) by (apply N.leb_le; lia).
    rewrite H. f_equal. lia.
  - destruct (FormatUint_spec (Z.to_N i)) as (c & D & -> & Hall & Hval & _).
    unfold strconv.ParseInt. cbn [all_chars] in Hall. apply andb_prop in Hall.
    destruct (digit_not_sign c (proj1 Hall)) as (-> & -> & _). cbn [orb].
    rewrite Hval.
    assert (H : (Z.to_N i <? 2 ^ 63)%N = true) by (apply N.ltb_lt; lia).
    rewrite H. f_equal. lia.
Qed.

(** ** The scanner on a decimal text *)

Lemma ends_value_not_digit (rest : string) :
  ends_value rest = true ->
  json.digits rest = (EmptyString, rest)
  /\ json.fracPart rest = Some (EmptyString, rest)
  /\ json.expPart rest = Some (EmptyString, rest)
  /\ json.skipSpace rest = rest.
Proof.
  destruct rest as [| c rest]; [ auto |]. cbn [ends_value].
  intros H.
  assert (Hc : c = ","%char \/ c = "}"%char \/ c = "]"%char).
  { destruct (Ascii.eqb_spec c ","); [ auto |].
    destruct (Ascii.eqb_spec c "}"); [ auto |].
    destruct (Ascii.eqb_spec c "]"); [ auto | discriminate ]. }
  destruct Hc as [-> | [-> | ->]]; auto.
Qed.

Lemma digits_app (D rest : string) :
  all_chars strconv.is_digit D = true ->
  ends_value rest = true ->
  json.digits (D ++ rest) = (D, rest).
Proof.
  intros HD Hrest. induction D as [| d D IH]; cbn [append].
  - apply ends_value_not_digit, Hrest.
  - cbn [all_chars] in HD. apply andb_prop in HD. destruct HD as [Hd HD].
    cbn [json.digits]. rewrite Hd, (IH HD). reflexivity.
Qed.

(** A text of digits without a needless leading zero, with or without a
    minus sign before it, is a number. *)
Lemma number_digits (neg : bool) (c : ascii) (D rest : string) :
  all_chars strconv.is_digit (String c D) = true ->
  (Ascii.eqb c "0" = true -> D = EmptyString) ->
  between "1" "9" c = negb (Ascii.eqb c "0") ->
  ends_value rest = true ->
  json.number ((if neg then String "-" (String c D) else String c D) ++ rest)
  = Some (if neg then String "-" (String c D) else String c D, rest).
Proof.
  intros Hall Hz Hb Hrest.
  pose proof Hall as Hall'. cbn [all_chars] in Hall'. apply andb_prop in Hall'.
  destruct Hall' as [Hc HD].
  destruct (digit_not_sign c Hc) as (Hminus & _).
  destruct (ends_value_not_digit rest Hrest) as (_ & Hf & He & _).
  assert (Hint : json.intPart (String c D ++ rest) = Some (String c D, rest)).
  { cbn [append json.intPart]. destruct (Ascii.eqb c "0") eqn:E0.
    - rewrite (Hz eq_refl). reflexivity.
    - rewrite Hb. cbn [negb]. rewrite (digits_app D rest HD Hrest). reflexivity. }
  unfold json.number. destruct neg.
  - cbn [append]. change (Ascii.eqb "-" "-") with true. cbn iota.
    change (String c (D ++ rest)) with (String c D ++ rest).
    rewrite Hint, Hf, He. rewrite !append_empty_r. reflexivity.
  - cbn [append]. rewrite Hminus.
    change (String c (D ++ rest)) with (String c D ++ rest).
    rewrite Hint, Hf, He. rewrite !append_empty_r. reflexivity.
Qed.

Lemma FormatInt_shape (i : Z) :
  exists (neg : bool) (c : ascii) (D : string),
    strconv.FormatInt i = (if neg then String "-"%char (String c D) else String c D)
    /\ all_chars strconv.is_digit (String c D) = true
    /\ (Ascii.eqb c "0" = true -> D = EmptyString)
    /\ between "1" "9" c = negb (Ascii.eqb c "0").
Proof.
  unfold strconv.FormatInt. destruct (i <? 0)%Z.
  - destruct (FormatUint_spec (Z.to_N (- i))) as (c & D & -> & Hall & _ & Hz & Hb).
    exists true, c, D.
    refine (conj eq_refl (conj Hall (conj (fun H => proj2 (Hz H)) Hb))).
  - destruct (FormatUint_spec (Z.to_N i)) as (c & D & -> & Hall & _ & Hz & Hb).
    exists false, c, D.
    refine (conj eq_refl (conj Hall (conj (fun H => proj2 (Hz H)) Hb))).
Qed.

(** The text of a signed decimal number is scanned as a literal, and the
    literal is a number for the decoder. *)
Lemma scans_FormatInt (i : Z) :
  scans_as 1 (strconv.FormatInt i) (JLiteral (strconv.FormatInt i))
  /\ json.literalKind (strconv.FormatInt i) = json.KNumber.
Proof.
  destruct (FormatInt_shape i) as (neg & c & D & -> & Hall & Hz & Hb).
  pose proof Hall as Hall'. cbn [all_chars] in Hall'. apply andb_prop in Hall'.
  destruct Hall' as [Hc HD].
  destruct (digit_not_sign c Hc) as (Hm & Hp & Ho & Ha & Hq & Hn & Ht & Hf & Hs).
  split.
  - intros fuel rest Hfuel Hrest. destruct fuel as [| fuel]; [ lia |].
    pose proof (number_digits neg c D rest Hall Hz Hb Hrest) as Hnum.
    destruct neg.
    + cbn [append] in *. cbn [json.value].
      change (Ascii.eqb "-" "{") with false. change (Ascii.eqb "-" "[") with false.
      change (Ascii.eqb "-" dquote) with false. change (Ascii.eqb "-" "-") with true.
      cbn [orb]. cbv iota. rewrite Hnum. reflexivity.
    + cbn [append] in *. cbn [json.value].
      rewrite Ho, Ha, Hq, Hm, Hc. cbn [orb]. cbv iota. rewrite Hnum. reflexivity.
  - destruct neg; cbn [json.literalKind]; [ reflexivity |].
    rewrite Hn, Ht, Hf, Hq. reflexivity.
Qed.

Lemma FormatInt_of_N (n : N) : strconv.FormatInt (Z.of_N n) = strconv.FormatUint n.
Proof.
  unfold strconv.FormatInt.
  destruct (Z.ltb_spec (Z.of_N n) 0) as [H | _]; [ lia |].
  rewrite N2Z.id. reflexivity.
Qed.

Lemma scans_FormatUint (n : N) :
  scans_as 1 (strconv.FormatUint n) (JLiteral (strconv.FormatUint n))
  /\ json.literalKind (strconv.FormatUint n) = json.KNumber.
Proof. rewrite <- FormatInt_of_N. apply scans_FormatInt. Qed.

(** * UTF-8 *)

(** Linear arithmetic with the divisions and the remainders by
    constants that the shifts and the masks stand for. *)
Ltac lia_div := zify; Z.to_euclidean_division_equations; lia.

(** ** Bits and arithmetic *)

Lemma land_disjoint (U v k : N) :
  (U mod 2 ^ k = 0)%N -> (v < 2 ^ k)%N -> N.land U v = 0%N.
Proof.
  intros HU Hv. apply N.bits_inj. intros n.
  rewrite N.land_spec, N.bits_0.
  destruct (N.ltb_spec n k) as [Hlt | Hge].
  - assert (E : U = (U / 2 ^ k * 2 ^ k)%N).
    { pose proof (N.div_mod' U (2 ^ k)) as H. rewrite HU in H. lia. }
    rewrite E, N.mul_pow2_bits_low by exact Hlt. reflexivity.
  - assert (Hb : N.testbit v n = false).
    { destruct (N.eq_dec v 0) as [-> | Hnz]; [ apply N.bits_0 |].
      apply N.bits_above_log2.
      apply N.lt_le_trans with k; [| exact Hge ].
      apply N.log2_lt_pow2; lia. }
    rewrite Hb. apply andb_false_r.
Qed.

(** Bits that do not overlap are added. *)
Lemma lor_add (U v k : N) :
  (U mod 2 ^ k = 0)%N -> (v < 2 ^ k)%N -> N.lor U v = (U + v)%N.
Proof.
  intros HU Hv. pose proof (land_disjoint U v k HU Hv) as H.
  rewrite <- (N.lxor_lor _ _ H). symmetry. apply N.add_nocarry_lxor, H.
Qed.

Lemma land_63 (x : N) : N.land x 63 = (x mod 64)%N.
Proof. change 63%N with (N.ones 6). apply N.land_ones. Qed.

Lemma land_31 (x : N) : N.land x 31 = (x mod 32)%N.
Proof. change 31%N with (N.ones 5). apply N.land_ones. Qed.

Lemma land_15 (x : N) : N.land x 15 = (x mod 16)%N.
Proof. change 15%N with (N.ones 4). apply N.land_ones. Qed.

Lemma land_7 (x : N) : N.land x 7 = (x mod 8)%N.
Proof. change 7%N with (N.ones 3). apply N.land_ones. Qed.

Lemma code_lt (c : ascii) : (code c < 256)%N.
Proof. apply N_ascii_bounded. Qed.

Lemma chr_code (c : ascii) : utf8.chr (code c) = c.
Proof. apply ascii_N_embedding. Qed.

Lemma rune2_arith (c0 c1 : ascii) :
  rune2 c0 c1 = (code c0 mod 32 * 64 + code c1 mod 64)%N.
Proof.
  unfold rune2. rewrite land_31, land_63, N.shiftl_mul_pow2.
  change (2 ^ 6)%N with 64%N.
  apply (lor_add _ _ 6); change (2 ^ 6)%N with 64%N; lia_div.
Qed.

Lemma rune3_arith (c0 c1 c2 : ascii) :
  rune3 c0 c1 c2 = (code c0 mod 16 * 4096 + code c1 mod 64 * 64 + code c2 mod 64)%N.
Proof.
  unfold rune3. rewrite land_15, !land_63, !N.shiftl_mul_pow2.
  change (2 ^ 6)%N with 64%N. change (2 ^ 12)%N with 4096%N.
  rewrite (lor_add (code c0 mod 16 * 4096) (code c1 mod 64 * 64) 12)
    by (change (2 ^ 12)%N with 4096%N; lia_div).
  apply (lor_add _ _ 6); change (2 ^ 6)%N with 64%N; lia_div.
Qed.

Lemma rune4_arith (c0 c1 c2 c3 : ascii) :
  rune4 c0 c1 c2 c3
  = (code c0 mod 8 * 262144 + code c1 mod 64 * 4096 + code c2 mod 64 * 64
     + code c3 mod 64)%N.
Proof.
  unfold rune4. rewrite land_7, !land_63, !N.shiftl_mul_pow2.
  change (2 ^ 6)%N with 64%N. change (2 ^ 12)%N with 4096%N.
  change (2 ^ 18)%N with 262144%N.
  rewrite (lor_add (code c0 mod 8 * 262144) (code c1 mod 64 * 4096) 18)
    by (change (2 ^ 18)%N with 262144%N; lia_div).
  rewrite (lor_add _ (code c2 mod 64 * 64) 12)
    by (change (2 ^ 12)%N with 4096%N; lia_div).
  apply (lor_add _ _ 6); change (2 ^ 6)%N with 64%N; lia_div.
Qed.

(** The bytes [EncodeRune] writes, in arithmetic. *)
Lemma EncodeRune_2 (r : N) :
  (128 <= r <= 2047)%N ->
  utf8.EncodeRune r
  = String (utf8.chr (192 + r / 64)) (String (utf8.chr (128 + r mod 64)) EmptyString).
Proof.
  intros Hr. unfold utf8.EncodeRune.
  destruct (N.leb_spec r 127) as [H | _]; [ lia |].
  destruct (N.leb_spec r 2047) as [_ | H]; [| lia ].
  rewrite land_63, N.shiftr_div_pow2. change (2 ^ 6)%N with 64%N.
  rewrite (lor_add 192 (r / 64) 6) by (change (2 ^ 6)%N with 64%N; lia_div).
  rewrite (lor_add 128 (r mod 64) 7) by (change (2 ^ 7)%N with 128%N; lia_div).
  reflexivity.
Qed.

Lemma EncodeRune_3 (r : N) :
  (2048 <= r <= 65535)%N -> (r < 55296 \/ 57343 < r)%N ->
  utf8.EncodeRune r
  = String (utf8.chr (224 + r / 4096))
      (String (utf8.chr (128 + r / 64 mod 64))
         (String (utf8.chr (128 + r mod 64)) EmptyString)).
Proof.
  intros Hr Hs. unfold utf8.EncodeRune.
  destruct (N.leb_spec r 127) as [H | _]; [ lia |].
  destruct (N.leb_spec r 2047) as [H | _]; [ lia |].
  assert (E : (utf8.MaxRune <? r)%N || ((55296 <=? r)%N && (r <=? 57343)%N) = false).
  { unfold utf8.MaxRune.
    destruct (N.ltb_spec 1114111 r); [ lia |].
    destruct (N.leb_spec 55296 r); destruct (N.leb_spec r 57343); try reflexivity; lia. }
  rewrite E. destruct (N.leb_spec r 65535) as [_ | H]; [| lia ].
  unfold utf8.encode3.
  rewrite !land_63, !N.shiftr_div_pow2.
  change (2 ^ 6)%N with 64%N. change (2 ^ 12)%N with 4096%N.
  rewrite (lor_add 224 (r / 4096) 5) by (change (2 ^ 5)%N with 32%N; lia_div).
  rewrite (lor_add 128 (r / 64 mod 64) 7) by (change (2 ^ 7)%N with 128%N; lia_div).
  rewrite (lor_add 128 (r mod 64) 7) by (change (2 ^ 7)%N with 128%N; lia_div).
  reflexivity.
Qed.

Lemma EncodeRune_4 (r : N) :
  (65536 <= r <= 1114111)%N ->
  utf8.EncodeRune r
  = String (utf8.chr (240 + r / 262144))
      (String (utf8.chr (128 + r / 4096 mod 64))
         (String (utf8.chr (128 + r / 64 mod 64))
            (String (utf8.chr (128 + r mod 64)) EmptyString))).
Proof.
  intros Hr. unfold utf8.EncodeRune.
  destruct (N.leb_spec r 127) as [H | _]; [ lia |].
  destruct (N.leb_spec r 2047) as [H | _]; [ lia |].
  assert (E : (utf8.MaxRune <? r)%N || ((55296 <=? r)%N && (r <=? 57343)%N) = false).
  { unfold utf8.MaxRune.
    destruct (N.ltb_spec 1114111 r); [ lia |].
    destruct (N.leb_spec 55296 r); destruct (N.leb_spec r 57343); try reflexivity; lia. }
  rewrite E. destruct (N.leb_spec r 65535) as [H | _]; [ lia |].
  rewrite !land_63, !N.shiftr_div_pow2.
  change (2 ^ 6)%N with 64%N. change (2 ^ 12)%N with 4096%N.
  change (2 ^ 18)%N with 262144%N.
  rewrite (lor_add 240 (r / 262144) 4) by (change (2 ^ 4)%N with 16%N; lia_div).
  rewrite (lor_add 128 (r / 4096 mod 64) 7) by (change (2 ^ 7)%N with 128%N; lia_div).
  rewrite (lor_add 128 (r / 64 mod 64) 7) by (change (2 ^ 7)%N with 128%N; lia_div).
  rewrite (lor_add 128 (r mod 64) 7) by (change (2 ^ 7)%N with 128%N; lia_div).
  reflexivity.
Qed.

(** ** What [DecodeRune] returns at a byte that is not ASCII *)

Lemma DecodeRune_cases (c0 : ascii) (rest : string) :
  high c0 = true ->
  let (r, size) := utf8.DecodeRune (String c0 rest) in
  (r = utf8.RuneError /\ size = 1)
  \/ (exists c1 t, rest = String c1 t /\ enc2 c0 c1 = true
                   /\ r = rune2 c0 c1 /\ size = 2)
  \/ (exists c1 c2 t, rest = String c1 (String c2 t) /\ enc3 c0 c1 c2 = true
                      /\ r = rune3 c0 c1 c2 /\ size = 3)
  \/ (exists c1 c2 c3 t, rest = String c1 (String c2 (String c3 t))
                         /\ enc4 c0 c1 c2 c3 = true
                         /\ r = rune4 c0 c1 c2 c3 /\ size = 4).
Proof.
  unfold high. intros Hh. apply negb_true_iff in Hh.
  cbv beta delta [utf8.DecodeRune] iota zeta.
  unfold enc2, enc3, enc4, lead, second_ok, cont.
  rewrite Hh.
  destruct ((code c0 <? 194)%N || (244 <? code c0)%N) eqn:E1; [ left; auto |].
  destruct (code c0 <? 224)%N eqn:E2.
  - destruct rest as [| c1 t]; [ left; auto |].
    cbn [String.length Nat.ltb Nat.leb].
    match goal with |- context [if ?b then (utf8.RuneError, 1) else _] =>
      destruct b eqn:E3 end; [ left; auto |].
    cbn [Nat.leb]. right; left. exists c1, t. rewrite ?E3. auto.
  - destruct (code c0 <? 240)%N eqn:E2'.
    + destruct rest as [| c1 [| c2 t]]; [ left; auto | left; auto |].
      cbn [String.length Nat.ltb Nat.leb].
      match goal with |- context [if ?b then (utf8.RuneError, 1) else _] =>
        destruct b eqn:E3 end; [ left; auto |].
      cbn [Nat.leb].
      match goal with |- context [if ?b then (utf8.RuneError, 1) else _] =>
        destruct b eqn:E4 end; [ left; auto |].
      right; right; left. exists c1, c2, t. rewrite ?E3, ?E4. auto.
    + destruct rest as [| c1 [| c2 [| c3 t]]]; [ left; auto | left; auto | left; auto |].
      cbn [String.length Nat.ltb Nat.leb].
      match goal with |- context [if ?b then (utf8.RuneError, 1) else _] =>
        destruct b eqn:E3 end; [ left; auto |].
      cbn [Nat.leb].
      match goal with |- context [if ?b then (utf8.RuneError, 1) else _] =>
        destruct b eqn:E4 end; [ left; auto |].
      match goal with |- context [if ?b then (utf8.RuneError, 1) else _] =>
        destruct b eqn:E5 end; [ left; auto |].
      right; right; right. exists c1, c2, c3, t. rewrite ?E3, ?E4, ?E5. auto.
Qed.

Ltac bool_props :=
  repeat match goal with
  | H : _ && _ = true |- _ => apply andb_prop in H; destruct H
  | H : negb _ = true |- _ => apply negb_true_iff in H
  | H : _ || _ = false |- _ => apply orb_false_elim in H; destruct H
  end.

Ltac order_props :=
  repeat match goal with
  | H : (_ <? _)%N = true |- _ => apply N.ltb_lt in H
  | H : (_ <? _)%N = false |- _ => apply N.ltb_ge in H
  | H : context [(?a =? ?b)%N] |- _ => destruct (N.eqb_spec a b)
  end.

(** ** The valid encodings *)

Lemma enc2_spec (c0 c1 : ascii) :
  enc2 c0 c1 = true ->
  (forall t, utf8.DecodeRune (String c0 (String c1 t)) = (rune2 c0 c1, 2))
  /\ utf8.EncodeRune (rune2 c0 c1) = String c0 (String c1 EmptyString)
  /\ high c0 = true /\ high c1 = true
  /\ (128 <= rune2 c0 c1 <= 2047)%N.
Proof.
  unfold enc2, lead, second_ok. intros H. bool_props.
  assert (Hdec : forall t, utf8.DecodeRune (String c0 (String c1 t)) = (rune2 c0 c1, 2)).
  { intros t. cbv beta delta [utf8.DecodeRune] iota zeta.
    repeat match goal with H : _ = false |- _ => rewrite H end.
    repeat match goal with H : _ = true |- _ => rewrite H end.
    cbn [orb String.length Nat.ltb Nat.leb]. reflexivity. }
  split; [ exact Hdec |].
  pose proof (code_lt c0). pose proof (code_lt c1).
  assert (Hh1 : high c1 = true).
  { unfold high. apply negb_true_iff. order_props; apply N.ltb_ge; lia. }
  assert (Hh0 : high c0 = true).
  { unfold high. apply negb_true_iff. assumption. }
  order_props; try lia.
  assert (Hr : (128 <= rune2 c0 c1 <= 2047)%N) by (rewrite rune2_arith; lia_div).
  repeat split; try assumption; try apply Hr.
  rewrite (EncodeRune_2 _ Hr), rune2_arith.
  replace (192 + (code c0 mod 32 * 64 + code c1 mod 64) / 64)%N with (code c0) by lia_div.
  replace (128 + (code c0 mod 32 * 64 + code c1 mod 64) mod 64)%N with (code c1) by lia_div.
  rewrite !chr_code. reflexivity.
Qed.

(** The digits of a number in base 64. *)
Lemma split3 (a b c : N) :
  (b < 64)%N -> (c < 64)%N ->
  ((a * 4096 + b * 64 + c) / 4096 = a
   /\ (a * 4096 + b * 64 + c) / 64 mod 64 = b
   /\ (a * 4096 + b * 64 + c) mod 64 = c)%N.
Proof.
  intros Hb Hc.
  assert (E1 : ((a * 4096 + b * 64 + c) / 4096 = a)%N).
  { symmetry. apply (N.div_unique _ _ _ (b * 64 + c)%N); lia. }
  assert (E2 : ((a * 4096 + b * 64 + c) / 64 = a * 64 + b)%N).
  { symmetry. apply (N.div_unique _ _ _ c); lia. }
  assert (E3 : ((a * 4096 + b * 64 + c) mod 64 = c)%N).
  { symmetry. apply (N.mod_unique _ _ (a * 64 + b)%N); lia. }
  rewrite E2. repeat split; try assumption.
  symmetry. apply (N.mod_unique _ _ a); lia.
Qed.

Lemma split4 (a b c d : N) :
  (b < 64)%N -> (c < 64)%N -> (d < 64)%N ->
  ((a * 262144 + b * 4096 + c * 64 + d) / 262144 = a
   /\ (a * 262144 + b * 4096 + c * 64 + d) / 4096 mod 64 = b
   /\ (a * 262144 + b * 4096 + c * 64 + d) / 64 mod 64 = c
   /\ (a * 262144 + b * 4096 + c * 64 + d) mod 64 = d)%N.
Proof.
  intros Hb Hc Hd.
  assert (E1 : ((a * 262144 + b * 4096 + c * 64 + d) / 262144 = a)%N).
  { symmetry. apply (N.div_unique _ _ _ (b * 4096 + c * 64 + d)%N); lia. }
  assert (E2 : ((a * 262144 + b * 4096 + c * 64 + d) / 4096 = a * 64 + b)%N).
  { symmetry. apply (N.div_unique _ _ _ (c * 64 + d)%N); lia. }
  assert (E3 : ((a * 262144 + b * 4096 + c * 64 + d) / 64 = (a * 64 + b) * 64 + c)%N).
  { symmetry. apply (N.div_unique _ _ _ d); lia. }
  assert (E4 : ((a * 262144 + b * 4096 + c * 64 + d) mod 64 = d)%N).
  { symmetry. apply (N.mod_unique _ _ ((a * 64 + b) * 64 + c)%N); lia. }
  rewrite E2, E3. repeat split; try assumption.
  - symmetry. apply (N.mod_unique _ _ a); lia.
  - symmetry. apply (N.mod_unique _ _ (a * 64 + b)%N); lia.
Qed.

(** The low bits of a byte whose high bits are known. *)
Lemma mod_above (x lo m q : N) :
  (lo = m * q)%N -> (lo <= x < lo + m)%N -> (x mod m = x - lo)%N.
Proof. intros -> Hx. symmetry. apply (N.mod_unique _ _ q); lia. Qed.

(** The ranges of the bytes of a valid encoding. *)
Lemma enc3_range (c0 c1 c2 : ascii) :
  enc3 c0 c1 c2 = true ->
  (224 <= code c0 <= 239 /\ 128 <= code c1 <= 191 /\ 128 <= code c2 <= 191
   /\ (code c0 = 224 -> 160 <= code c1) /\ (code c0 = 237 -> code c1 <= 159))%N.
Proof.
  unfold enc3, lead, second_ok, cont. intros H. bool_props. order_props; lia.
Qed.

Lemma enc4_range (c0 c1 c2 c3 : ascii) :
  enc4 c0 c1 c2 c3 = true ->
  (240 <= code c0 <= 244 /\ 128 <= code c1 <= 191 /\ 128 <= code c2 <= 191
   /\ 128 <= code c3 <= 191
   /\ (code c0 = 240 -> 144 <= code c1) /\ (code c0 = 244 -> code c1 <= 143))%N.
Proof.
  unfold enc4, lead, second_ok, cont. intros H. bool_props. order_props; lia.
Qed.

Lemma enc3_spec (c0 c1 c2 : ascii) :
  enc3 c0 c1 c2 = true ->
  (forall t, utf8.DecodeRune (String c0 (String c1 (String c2 t))) = (rune3 c0 c1 c2, 3))
  /\ utf8.EncodeRune (rune3 c0 c1 c2) = String c0 (String c1 (String c2 EmptyString))
  /\ high c0 = true /\ high c1 = true /\ high c2 = true
  /\ (2048 <= rune3 c0 c1 c2 <= 65535)%N.
Proof.
  intros H. destruct (enc3_range c0 c1 c2 H) as (R0 & R1 & R2 & Rlo & Rhi).
  unfold enc3, lead, second_ok, cont in H. bool_props.
  assert (Hdec : forall t,
             utf8.DecodeRune (String c0 (String c1 (String c2 t))) = (rune3 c0 c1 c2, 3)).
  { intros t. cbv beta delta [utf8.DecodeRune] iota zeta.
    repeat match goal with H : _ = false |- _ => rewrite H end.
    repeat match goal with H : _ = true |- _ => rewrite H end.
    cbn [orb String.length Nat.ltb Nat.leb]. reflexivity. }
  split; [ exact Hdec |].
  assert (Hh : forall c, (128 <= code c)%N -> high c = true).
  { intros c Hc. unfold high. apply negb_true_iff, N.ltb_ge, Hc. }
  assert (E : rune3 c0 c1 c2
              = ((code c0 - 224) * 4096 + (code c1 - 128) * 64 + (code c2 - 128))%N).
  { rewrite rune3_arith.
    rewrite (mod_above (code c0) 224 16 14), (mod_above (code c1) 128 64 2),
      (mod_above (code c2) 128 64 2) by lia.
    reflexivity. }
  destruct (split3 (code c0 - 224) (code c1 - 128) (code c2 - 128))
    as (E0 & E1 & E2); [ lia | lia |].
  rewrite <- E in E0, E1, E2.
  assert (Hr : (2048 <= rune3 c0 c1 c2 <= 65535)%N) by (rewrite E; lia).
  assert (Hs : (rune3 c0 c1 c2 < 55296 \/ 57343 < rune3 c0 c1 c2)%N) by (rewrite E; lia).
  repeat split; try (apply Hh; lia); try apply Hr.
  rewrite (EncodeRune_3 _ Hr Hs), E0, E1, E2.
  replace (224 + (code c0 - 224))%N with (code c0) by lia.
  replace (128 + (code c1 - 128))%N with (code c1) by lia.
  replace (128 + (code c2 - 128))%N with (code c2) by lia.
  rewrite !chr_code. reflexivity.
Qed.

Lemma enc4_spec (c0 c1 c2 c3 : ascii) :
  enc4 c0 c1 c2 c3 = true ->
  (forall t, utf8.DecodeRune (String c0 (String c1 (String c2 (String c3 t))))
             = (rune4 c0 c1 c2 c3, 4))
  /\ utf8.EncodeRune (rune4 c0 c1 c2 c3)
     = String c0 (String c1 (String c2 (String c3 EmptyString)))
  /\ high c0 = true /\ high c1 = true /\ high c2 = true /\ high c3 = true
  /\ (65536 <= rune4 c0 c1 c2 c3 <= 1114111)%N.
Proof.
  intros H. destruct (enc4_range c0 c1 c2 c3 H) as (R0 & R1 & R2 & R3 & Rlo & Rhi).
  unfold enc4, lead, second_ok, cont in H. bool_props.
  assert (Hdec : forall t,
             utf8.DecodeRune (String c0 (String c1 (String c2 (String c3 t))))
             = (rune4 c0 c1 c2 c3, 4)).
  { intros t. cbv beta delta [utf8.DecodeRune] iota zeta.
    repeat match goal with H : _ = false |- _ => rewrite H end.
    repeat match goal with H : _ = true |- _ => rewrite H end.
    cbn [orb String.length Nat.ltb Nat.leb]. reflexivity. }
  split; [ exact Hdec |].
  assert (Hh : forall c, (128 <= code c)%N -> high c = true).
  { intros c Hc. unfold high. apply negb_true_iff, N.ltb_ge, Hc. }
  assert (E : rune4 c0 c1 c2 c3
              = ((code c0 - 240) * 262144 + (code c1 - 128) * 4096
                 + (code c2 - 128) * 64 + (code c3 - 128))%N).
  { rewrite rune4_arith.
    rewrite (mod_above (code c0) 240 8 30), (mod_above (code c1) 128 64 2),
      (mod_above (code c2) 128 64 2), (mod_above (code c3) 128 64 2) by lia.
    reflexivity. }
  destruct (split4 (code c0 - 240) (code c1 - 128) (code c2 - 128) (code c3 - 128))
    as (E0 & E1 & E2 & E3); [ lia | lia | lia |].
  rewrite <- E in E0, E1, E2, E3.
  assert (Hr : (65536 <= rune4 c0 c1 c2 c3 <= 1114111)%N) by (rewrite E; lia).
  repeat split; try (apply Hh; lia); try apply Hr.
  rewrite (EncodeRune_4 _ Hr), E0, E1, E2, E3.
  replace (240 + (code c0 - 240))%N with (code c0) by lia.
  replace (128 + (code c1 - 128))%N with (code c1) by lia.
  replace (128 + (code c2 - 128))%N with (code c2) by lia.
  replace (128 + (code c3 - 128))%N with (code c3) by lia.
  rewrite !chr_code. reflexivity.
Qed.

(** A multi-byte encoding that [DecodeRune] accepts: its bytes are given
    back by [EncodeRune] and are read the same way before any text. *)
Lemma DecodeRune_multibyte (c0 : ascii) (rest : string) (r : N) (size : nat) :
  high c0 = true ->
  utf8.DecodeRune (String c0 rest) = (r, size) ->
  (r =? utf8.RuneError)%N && (size =? 1)%nat = false ->
  exists h t,
    String c0 rest = h ++ t
    /\ strings.upto size (String c0 rest) = h
    /\ strings.from size (String c0 rest) = t
    /\ String.length h = size /\ 2 <= size
    /\ all_chars high h = true
    /\ utf8.EncodeRune r = h
    /\ (forall t', utf8.DecodeRune (h ++ t') = (r, size))
    /\ (128 <= r)%N
    /\ ((r = 8232 \/ r = 8233)%N -> size = 3).
Proof.
  intros Hh Hdec Hvalid.
  pose proof (DecodeRune_cases c0 rest Hh) as Hc. rewrite Hdec in Hc.
  destruct Hc as [[-> ->] | [Hc | [Hc | Hc]]].
  - discriminate Hvalid.
  - destruct Hc as (c1 & t & -> & He & -> & ->).
    destruct (enc2_spec c0 c1 He) as (Hd & Henc & H0 & H1 & Hr).
    exists (String c0 (String c1 EmptyString)), t.
    cbn [append strings.upto strings.from String.length all_chars].
    rewrite H0, H1. repeat split; auto; lia.
  - destruct Hc as (c1 & c2 & t & -> & He & -> & ->).
    destruct (enc3_spec c0 c1 c2 He) as (Hd & Henc & H0 & H1 & H2 & Hr).
    exists (String c0 (String c1 (String c2 EmptyString))), t.
    cbn [append strings.upto strings.from String.length all_chars].
    rewrite H0, H1, H2. repeat split; auto; lia.
  - destruct Hc as (c1 & c2 & c3 & t & -> & He & -> & ->).
    destruct (enc4_spec c0 c1 c2 c3 He) as (Hd & Henc & H0 & H1 & H2 & H3 & Hr).
    exists (String c0 (String c1 (String c2 (String c3 EmptyString)))), t.
    cbn [append strings.upto strings.from String.length all_chars].
    rewrite H0, H1, H2, H3. repeat split; auto; lia.
Qed.

(** * Quoted strings *)

(** ** The scanner on the text of the encoder *)

Lemma stringBody_plain (c : ascii) (X : string) :
  plain c = true ->
  json.stringBody (String c X) = prepend (String c EmptyString) (json.stringBody X).
Proof.
  unfold plain. intros H.
  apply andb_prop in H. destruct H as [H H3]. apply andb_prop in H. destruct H as [H1 H2].
  apply negb_true_iff in H1, H2, H3.
  cbn [json.stringBody]. rewrite H1, H2, H3.
  destruct (json.stringBody X) as [[b r] |]; reflexivity.
Qed.

Lemma prepend_app (h k : string) (r : option (string * string)) :
  prepend h (prepend k r) = prepend (h ++ k) r.
Proof. destruct r as [[b t] |]; cbn; [ rewrite append_assoc |]; reflexivity. Qed.

Lemma stringBody_plain_text (h X : string) :
  all_chars plain h = true ->
  json.stringBody (h ++ X) = prepend h (json.stringBody X).
Proof.
  induction h as [| c h IH]; intros H.
  - cbn. destruct (json.stringBody X) as [[b r] |]; reflexivity.
  - cbn [all_chars] in H. apply andb_prop in H. destruct H as [Hc Hh].
    cbn [append]. rewrite (stringBody_plain c _ Hc), (IH Hh), prepend_app. reflexivity.
Qed.

Lemma high_plain (c : ascii) : high c = true -> plain c = true.
Proof. destruct c as [[] [] [] [] [] [] [] []]; intros H; try discriminate H; reflexivity. Qed.

Lemma htmlSafe_plain (c : ascii) : json.htmlSafe c = true -> plain c = true.
Proof. destruct c as [[] [] [] [] [] [] [] []]; intros H; try discriminate H; reflexivity. Qed.

Lemma all_chars_impl (p q : ascii -> bool) (s : string) :
  (forall c, p c = true -> q c = true) ->
  all_chars p s = true -> all_chars q s = true.
Proof.
  intros Hpq. induction s as [| c s IH]; cbn [all_chars]; [ auto |].
  intros H. apply andb_prop in H. destruct H as [Hc Hs].
  rewrite (Hpq c Hc), (IH Hs). reflexivity.
Qed.

(** The escape of a character: the scanner lets it through and
    [unquote] gives the character back. *)
Lemma escapeByte_spec (c : ascii) :
  (code c <? 128)%N = true -> json.htmlSafe c = false ->
  forall (X : string) (f : nat),
    json.stringBody (json.escapeByte c ++ X)
    = prepend (json.escapeByte c) (json.stringBody X)
    /\ json.unquoteLoop (S f) (json.escapeByte c ++ X)
       = json.app_some (String c EmptyString) (json.unquoteLoop f X).
Proof.
  destruct c as [[] [] [] [] [] [] [] []]; intros H1 H2; try discriminate H1;
    try discriminate H2; intros X f; (split;
    [ cbn; destruct (json.stringBody X) as [[b r] |]; reflexivity
    | cbn; destruct (json.unquoteLoop f X); reflexivity ]).
Qed.

Lemma safe_unquote (c : ascii) (X : string) (f : nat) :
  (code c <? 128)%N = true -> json.htmlSafe c = true ->
  json.unquoteLoop (S f) (String c X)
  = json.app_some (String c EmptyString) (json.unquoteLoop f X).
Proof.
  destruct c as [[] [] [] [] [] [] [] []]; intros H1 H2; try discriminate H1;
    try discriminate H2; reflexivity.
Qed.

Lemma ufffd_spec (X : string) (f : nat) :
  json.stringBody (String bslash "ufffd" ++ X)
  = prepend (String bslash "ufffd") (json.stringBody X).
Proof. cbn. destruct (json.stringBody X) as [[b r] |]; reflexivity. Qed.

Lemma u202x_spec (c : N) (X : string) (f : nat) :
  (c =? 8232)%N || (c =? 8233)%N = true ->
  json.stringBody
    (String bslash "u202" ++ String (hex.hexdigit (N.land c 15)) EmptyString ++ X)
  = prepend (String bslash "u202" ++ String (hex.hexdigit (N.land c 15)) EmptyString)
      (json.stringBody X)
  /\ json.unquoteLoop (S f)
       (String bslash "u202" ++ String (hex.hexdigit (N.land c 15)) EmptyString ++ X)
     = json.app_some (utf8.EncodeRune c) (json.unquoteLoop f X).
Proof.
  intros H. apply orb_prop in H.
  destruct H as [H | H]; apply N.eqb_eq in H; subst c; (split;
    [ cbn; destruct (json.stringBody X) as [[b r] |]; reflexivity
    | cbn; destruct (json.unquoteLoop f X); reflexivity ]).
Qed.

Lemma stringLoop_O (s : string) : json.stringLoop 0 s = EmptyString.
Proof. destruct s; reflexivity. Qed.

(** Whatever the encoder writes between the quotation marks, the
    scanner reads it as the body of one string. *)
Lemma stringBody_stringLoop (fuel : nat) :
  forall s rest,
    json.stringBody (json.stringLoop fuel s ++ String dquote rest)
    = Some (json.stringLoop fuel s, rest).
Proof.
  induction fuel as [| fuel IH]; intros s rest.
  - rewrite stringLoop_O. reflexivity.
  - destruct s as [| b s1]; [ reflexivity |].
    cbn [json.stringLoop]. unfold utf8.RuneSelf.
    destruct (code b <? 128)%N eqn:Hb.
    + destruct (json.htmlSafe b) eqn:Hs.
      * cbn [append]. rewrite (stringBody_plain b _ (htmlSafe_plain b Hs)), IH.
        reflexivity.
      * rewrite append_assoc.
        rewrite (proj1 (escapeByte_spec b Hb Hs _ 0)), IH. reflexivity.
    + destruct (utf8.DecodeRune (String b s1)) as [c size] eqn:Hd.
      destruct ((c =? utf8.RuneError)%N && (size =? 1)%nat) eqn:Hv.
      * rewrite append_assoc, (ufffd_spec _ 0), IH. reflexivity.
      * destruct ((c =? 8232)%N || (c =? 8233)%N) eqn:H28.
        -- rewrite !append_assoc.
           rewrite (proj1 (u202x_spec c _ 0 H28)), IH. cbn [prepend].
           rewrite !append_assoc. reflexivity.
        -- assert (Hh : high b = true) by (unfold high; rewrite Hb; reflexivity).
           destruct (DecodeRune_multibyte b s1 c size Hh Hd Hv)
             as (h & t & _ & -> & _ & _ & _ & Hall & _).
           rewrite append_assoc.
           rewrite (stringBody_plain_text h _ (all_chars_impl _ _ _ high_plain Hall)), IH.
           reflexivity.
Qed.

(** ** The text that [unquote] gives back *)

Lemma from_shorter (n : nat) (s : string) :
  String.length (strings.from n s) <= String.length s.
Proof.
  revert s. induction n as [| n IH]; intros s; [ cbn; lia |].
  destruct s as [| c s]; cbn; [ lia |]. specialize (IH s). lia.
Qed.

Lemma app_some_app (h k : string) (r : option string) :
  json.app_some h (json.app_some k r) = json.app_some (h ++ k) r.
Proof. destruct r; cbn; [ rewrite append_assoc |]; reflexivity. Qed.

Lemma unquoteLoop_high (h Y : string) (r : N) (f : nat) :
  2 <= String.length h ->
  all_chars high h = true ->
  utf8.DecodeRune (h ++ Y) = (r, String.length h) ->
  json.unquoteLoop (S f) (h ++ Y)
  = json.app_some (utf8.EncodeRune r) (json.unquoteLoop f Y).
Proof.
  intros Hlen Hall Hdec.
  destruct h as [| c0 h']; [ cbn in Hlen; lia |].
  cbn [all_chars] in Hall. apply andb_prop in Hall. destruct Hall as [Hc _].
  pose proof (high_plain c0 Hc) as Hp. unfold plain in Hp.
  apply andb_prop in Hp. destruct Hp as [Hp H3]. apply andb_prop in Hp.
  destruct Hp as [H1 H2]. apply negb_true_iff in H1, H2, H3.
  unfold high in Hc. apply negb_true_iff in Hc.
  pose proof (from_length_app (String c0 h') Y) as Hfrom.
  change (String c0 h' ++ Y) with (String c0 (h' ++ Y)) in *.
  cbn [json.unquoteLoop]. unfold utf8.RuneSelf.
  rewrite H2, H1, H3, Hc. cbn [orb]. rewrite Hdec, Hfrom. reflexivity.
Qed.

(** The text between the quotation marks stands for the text that was
    encoded, when that text is valid UTF-8. *)
Lemma unquoteLoop_stringLoop (fuel : nat) :
  forall s f2,
    utf8.valid_loop fuel s = true ->
    String.length (json.stringLoop fuel s) <= f2 ->
    json.unquoteLoop f2 (json.stringLoop fuel s) = Some s.
Proof.
  induction fuel as [| fuel IH]; intros s f2 Hvalid Hlen.
  - destruct s; [ destruct f2; reflexivity | discriminate Hvalid ].
  - destruct s as [| b s1]; [ destruct f2; reflexivity |].
    cbn [utf8.valid_loop] in Hvalid. cbn [json.stringLoop] in *.
    unfold utf8.RuneSelf in *.
    destruct (utf8.DecodeRune (String b s1)) as [c size] eqn:Hd.
    destruct ((c =? utf8.RuneError)%N && (size =? 1)%nat) eqn:Hv;
      [ discriminate Hvalid |].
    destruct (code b <? 128)%N eqn:Hb.
    + assert (Hsz : size = 1).
      { unfold utf8.DecodeRune in Hd. rewrite Hb in Hd. inversion Hd. reflexivity. }
      subst size. cbn [strings.from] in Hvalid.
      destruct (json.htmlSafe b) eqn:Hs.
      * cbn [String.length] in Hlen. destruct f2 as [| f2]; [ lia |].
        rewrite (safe_unquote b _ f2 Hb Hs), (IH s1 f2 Hvalid) by lia. reflexivity.
      * rewrite length_app in Hlen.
        assert (Hne : 1 <= String.length (json.escapeByte b)) by (cbn; lia).
        destruct f2 as [| f2]; [ lia |].
        rewrite (proj2 (escapeByte_spec b Hb Hs _ f2)), (IH s1 f2 Hvalid) by lia.
        reflexivity.
    + assert (Hh : high b = true) by (unfold high; rewrite Hb; reflexivity).
      destruct (DecodeRune_multibyte b s1 c size Hh Hd Hv)
        as (h & t & Es & Hup & Hfrom & Hlenh & Hsize & Hall & Henc & Hdec & Hr & H28).
      rewrite Hfrom in *. rewrite Hup in *.
      destruct ((c =? 8232)%N || (c =? 8233)%N) eqn:E28.
      * rewrite !length_app in Hlen. cbn [String.length] in Hlen.
        destruct f2 as [| f2]; [ lia |].
        rewrite (proj2 (u202x_spec c _ f2 E28)), (IH t f2 Hvalid) by lia.
        cbn [json.app_some]. rewrite Henc, Es. reflexivity.
      * rewrite length_app in Hlen.
        destruct f2 as [| f2]; [ lia |].
        rewrite <- Hlenh in Hdec.
        rewrite (unquoteLoop_high h _ c f2 ltac:(lia) Hall (Hdec _)).
        rewrite (IH t f2 Hvalid) by lia.
        cbn [json.app_some]. rewrite Henc, Es. reflexivity.
Qed.

(** ** Quoted literals *)

Lemma unquote_quoted (B : string) :
  json.unquote (Sprintf_quoted B) = json.unquoteLoop (String.length B) B.
Proof.
  unfold json.unquote, Sprintf_quoted.
  destruct (last_char_app_quote B) as [Hlast Hbut].
  assert (Hlast' : last_char (String dquote (B ++ String dquote EmptyString)) = Some dquote).
  { destruct B; exact Hlast. }
  rewrite Ascii.eqb_refl. cbn [andb].
  assert (E2 : (2 <=? String.length (String dquote (B ++ String dquote EmptyString)))%nat
               = true).
  { apply Nat.leb_le. cbn [String.length]. rewrite length_app. cbn. lia. }
  rewrite E2. cbn [andb].
  unfold strings.HasSuffix.
  change (String.length (String dquote EmptyString)) with 1%nat.
  rewrite (from_last _ dquote Hlast'), String.eqb_refl.
  assert (E1 : (1 <=? String.length (String dquote (B ++ String dquote EmptyString)))%nat
               = true) by reflexivity.
  rewrite E1. cbn [andb].
  rewrite upto_but_last, Hbut. reflexivity.
Qed.

(** The quoted literal of a valid UTF-8 text stands for that text. *)
Lemma unquote_quote (s : string) :
  utf8.ValidString s = true -> json.unquote (json.quote s) = Some s.
Proof.
  intros H. unfold json.quote.
  change (String dquote (json.stringLoop (String.length s) s ++ String dquote EmptyString))
    with (Sprintf_quoted (json.stringLoop (String.length s) s)).
  rewrite unquote_quoted. apply unquoteLoop_stringLoop; [ exact H | lia ].
Qed.

Lemma literalKind_quoted (B : string) :
  json.literalKind (Sprintf_quoted B) = json.KString.
Proof. reflexivity. Qed.

(** A quoted literal whose body the scanner accepts is scanned as one
    value. *)
Lemma scans_quoted (B : string) :
  (forall rest, json.stringBody (B ++ String dquote rest) = Some (B, rest)) ->
  scans_as 1 (Sprintf_quoted B) (JLiteral (Sprintf_quoted B)).
Proof.
  intros HB fuel rest Hfuel _. destruct fuel as [| fuel]; [ lia |].
  unfold Sprintf_quoted. cbn [append json.value].
  change (Ascii.eqb dquote "{") with false. change (Ascii.eqb dquote "[") with false.
  rewrite Ascii.eqb_refl. cbv iota.
  rewrite append_assoc. cbn [append]. rewrite HB. reflexivity.
Qed.

Lemma scans_quote (s : string) :
  scans_as 1 (json.quote s) (JLiteral (json.quote s)).
Proof. apply scans_quoted. intros rest. apply stringBody_stringLoop. Qed.

Lemma scans_plain (t : string) :
  all_chars plain t = true ->
  scans_as 1 (Sprintf_quoted t) (JLiteral (Sprintf_quoted t)).
Proof.
  intros H. apply scans_quoted. intros rest.
  rewrite (stringBody_plain_text t _ H).
  change (json.stringBody (String dquote rest)) with (Some (EmptyString, rest)).
  cbn [prepend]. rewrite append_empty_r. reflexivity.
Qed.

Lemma hex_digit_plain (c : ascii) : is_lower_hex_digit c = true -> plain c = true.
Proof. destruct c as [[] [] [] [] [] [] [] []]; intros H; try discriminate H; reflexivity. Qed.

Lemma scans_null : scans_as 1 "null" (JLiteral "null").
Proof.
  intros fuel rest Hfuel _. destruct fuel as [| fuel]; [ lia |].
  reflexivity.
Qed.

(** * Arrays and objects in the text of the encoder *)

Lemma consumed_app (text rest : string) : json.consumed (text ++ rest) rest = text.
Proof.
  unfold json.consumed. rewrite length_app.
  replace (String.length text + String.length rest - String.length rest)
    with (String.length text) by lia.
  apply upto_length_app.
Qed.

(** A text that is scanned as a value starts with a character that is
    neither space nor a closing bracket. *)
Lemma scans_first (k : nat) (text : string) (j : json) :
  scans_as k text j ->
  exists c t, text = String c t /\ json.isSpace c = false
              /\ Ascii.eqb c "]" = false /\ Ascii.eqb c "}" = false.
Proof.
  intros H. specialize (H k EmptyString (le_n k) eq_refl).
  rewrite append_empty_r in H.
  destruct k as [| k]; [ discriminate H |].
  destruct text as [| c t]; [ discriminate H |].
  exists c, t. split; [ reflexivity |].
  destruct (json.isSpace c) eqn:Es.
  - exfalso. unfold json.isSpace in Es.
    destruct (Ascii.eqb_spec c " ") as [-> | _]; [ discriminate H |].
    destruct (Ascii.eqb_spec c "009") as [-> | _]; [ discriminate H |].
    destruct (Ascii.eqb_spec c "013") as [-> | _]; [ discriminate H |].
    destruct (Ascii.eqb_spec c "010") as [-> | _]; [ discriminate H | discriminate Es ].
  - split; [ reflexivity |].
    destruct (Ascii.eqb_spec c "]") as [-> | _]; [ discriminate H |].
    destruct (Ascii.eqb_spec c "}") as [-> | _]; [ discriminate H |]. auto.
Qed.

Lemma skipSpace_scans (k : nat) (text : string) (j : json) (rest : string) :
  scans_as k text j -> json.skipSpace (text ++ rest) = text ++ rest.
Proof.
  intros H. destruct (scans_first k text j H) as (c & t & -> & Hs & _).
  cbn [append json.skipSpace]. rewrite Hs. reflexivity.
Qed.

(** ** Arrays *)

Lemma elements_scans (k : nat) (items : list (string * json)) :
  items <> [] ->
  Forall (fun it => scans_as k (fst it) (snd it)) items ->
  forall fuel rest,
    k + List.length items <= fuel ->
    json.elements fuel (json.join (map fst items) ++ String "]" rest)
    = Some (map snd items, rest).
Proof.
  induction items as [| [text j] items IH]; intros Hne Hall fuel rest Hfuel;
    [ contradiction |].
  inversion Hall as [| ? ? Hhead Htail]; subst. cbn [fst snd] in Hhead.
  cbn [List.length] in Hfuel.
  destruct fuel as [| fuel]; [ lia |].
  destruct items as [| [text2 j2] items].
  - cbn [map fst snd json.join json.elements].
    rewrite (Hhead fuel (String "]" rest)) by (auto; lia).
    reflexivity.
  - assert (Hne2 : (text2, j2) :: items <> []) by discriminate.
    specialize (IH Hne2 Htail fuel rest ltac:(cbn [List.length] in *; lia)).
    change (json.join (map fst ((text, j) :: (text2, j2) :: items)))
      with (text ++ "," ++ json.join (map fst ((text2, j2) :: items))).
    rewrite !append_assoc. cbn [json.elements].
    rewrite (Hhead fuel _) by (auto; cbn in *; lia).
    cbn [append json.skipSpace].
    change (json.isSpace ","%char) with false. cbv iota.
    change (Ascii.eqb "," ",") with true. cbv iota.
    assert (Hskip : forall X, json.skipSpace (json.join (map fst ((text2, j2) :: items)) ++ X)
                              = json.join (map fst ((text2, j2) :: items)) ++ X).
    { intros X. inversion Htail as [| ? ? H2 _]; subst. cbn [fst snd] in H2.
      destruct items as [| it items'].
      - cbn [map fst json.join]. apply (skipSpace_scans k text2 j2 _ H2).
      - change (json.join (map fst ((text2, j2) :: it :: items')))
          with (text2 ++ "," ++ json.join (map fst (it :: items'))).
        rewrite append_assoc. apply (skipSpace_scans k text2 j2 _ H2). }
    rewrite Hskip, IH. reflexivity.
Qed.

(** The text of an array of values, each of which is scanned in [k]
    steps. *)
Lemma scans_array (k : nat) (items : list (string * json)) :
  Forall (fun it => scans_as k (fst it) (snd it)) items ->
  scans_as (S (k + List.length items))
    ("[" ++ json.join (map fst items) ++ "]")
    (JArray ("[" ++ json.join (map fst items) ++ "]") (map snd items)).
Proof.
  intros Hall fuel rest Hfuel _.
  destruct fuel as [| fuel]; [ lia |].
  pose proof (consumed_app ("[" ++ json.join (map fst items) ++ "]") rest) as Hcons.
  rewrite !append_assoc in *. cbn [append] in *.
  cbn [json.value].
  change (Ascii.eqb "[" "{") with false. change (Ascii.eqb "[" "[") with true.
  cbv iota.
  destruct items as [| it items].
  - cbn [map json.join append json.skipSpace] in *.
    change (json.isSpace "]"%char) with false. cbv iota.
    change (Ascii.eqb "]" "]") with true. cbv iota.
    rewrite Hcons. reflexivity.
  - assert (Hne : it :: items <> []) by discriminate.
    pose proof (elements_scans k (it :: items) Hne Hall fuel rest ltac:(lia)) as He.
    assert (Hfirst : exists c t,
               json.join (map fst (it :: items)) ++ String "]" rest = String c t
               /\ json.isSpace c = false /\ Ascii.eqb c "]" = false).
    { inversion Hall as [| ? ? H1 _]; subst.
      destruct (scans_first k _ _ H1) as (c & t & E & Hs & Hb & _).
      destruct items as [| it2 items'].
      - cbn [map json.join]. rewrite E. cbn [append]. eauto.
      - change (json.join (map fst (it :: it2 :: items')))
          with (fst it ++ "," ++ json.join (map fst (it2 :: items'))).
        rewrite E. cbn [append]. eauto. }
    destruct Hfirst as (c & t & E & Hs & Hb).
    rewrite E in *. cbn [json.skipSpace]. rewrite Hs, Hb, He, Hcons. reflexivity.
Qed.

(** ** Objects *)

Lemma fields_text_cons (f g : string * string * json) (fs : list (string * string * json)) :
  fields_text (f :: g :: fs)
  = fieldText (fst (fst f)) (snd (fst f)) ++ "," ++ fields_text (g :: fs).
Proof. reflexivity. Qed.

Lemma fields_text_one (f : string * string * json) :
  fields_text [f] = fieldText (fst (fst f)) (snd (fst f)).
Proof. reflexivity. Qed.

(** The text of the fields starts with the quotation mark of a key. *)
Lemma fields_text_first (f : string * string * json) (fs : list (string * string * json))
    (X : string) :
  exists t, fields_text (f :: fs) ++ X = String dquote t.
Proof.
  destruct fs as [| g fs].
  - rewrite fields_text_one. unfold fieldText, json.quote. cbn [append]. eauto.
  - rewrite fields_text_cons. unfold fieldText, json.quote. cbn [append]. eauto.
Qed.

(** One field at the head of the text of the members. *)
Lemma member_scans (k : nat) (name text : string) (j : json) (fuel : nat) (R : string) :
  scans_as k text j -> k <= fuel -> ends_value R = true ->
  forall q s0,
    fieldText name text ++ R = String q s0 ->
    Ascii.eqb q dquote = true
    /\ exists s1,
         json.stringBody s0 = Some (json.stringLoop (String.length name) name, s1)
         /\ json.skipSpace s1 = String ":" (text ++ R)
         /\ json.value fuel (json.skipSpace (text ++ R)) = Some (j, R)
         /\ json.skipSpace R = R.
Proof.
  intros Hscan Hfuel HR q s0 E.
  unfold fieldText, json.quote in E. rewrite !append_assoc in E. cbn [append] in E.
  inversion E; subst. split; [ reflexivity |].
  exists (String ":" (text ++ R)).
  rewrite append_assoc. cbn [append]. rewrite stringBody_stringLoop.
  split; [ reflexivity |]. split; [ reflexivity |].
  rewrite (skipSpace_scans k text j R Hscan), (Hscan fuel R Hfuel HR).
  split; [ reflexivity |]. apply ends_value_not_digit, HR.
Qed.

Lemma members_scans (k : nat) (fs : list (string * string * json)) :
  fs <> [] ->
  Forall (fun f => scans_as k (snd (fst f)) (snd f)) fs ->
  forall fuel rest,
    k + List.length fs <= fuel ->
    json.members fuel (fields_text fs ++ String "}" rest)
    = Some (fields_members fs, rest).
Proof.
  induction fs as [| [[name text] j] fs IH]; intros Hne Hall fuel rest Hfuel;
    [ contradiction |].
  inversion Hall as [| ? ? Hhead Htail]; subst. cbn [fst snd] in Hhead.
  cbn [List.length] in Hfuel.
  destruct fuel as [| fuel]; [ lia |].
  destruct fs as [| g fs].
  - rewrite fields_text_one. cbn [fst snd].
    destruct (fieldText name text ++ String "}" rest) as [| q s0] eqn:E.
    { unfold fieldText, json.quote in E. discriminate E. }
    destruct (member_scans k name text j fuel (String "}" rest) Hhead ltac:(lia) eq_refl
                q s0 E) as (Hq & s1 & Hbody & Hskip & Hval & HskipR).
    cbn [json.members]. rewrite Hq, Hbody, Hskip.
    change (Ascii.eqb ":" ":") with true. cbv iota.
    rewrite Hval, HskipR.
    change (Ascii.eqb "}" ",") with false. change (Ascii.eqb "}" "}") with true.
    cbv iota. reflexivity.
  - assert (Hne2 : g :: fs <> []) by discriminate.
    specialize (IH Hne2 Htail fuel rest ltac:(cbn [List.length] in *; lia)).
    rewrite fields_text_cons. cbn [fst snd]. rewrite !append_assoc.
    destruct (fieldText name text ++ "," ++ fields_text (g :: fs) ++ String "}" rest)
      as [| q s0] eqn:E.
    { unfold fieldText, json.quote in E. discriminate E. }
    destruct (member_scans k name text j fuel
                ("," ++ fields_text (g :: fs) ++ String "}" rest)
                Hhead ltac:(lia) eq_refl q s0 E)
      as (Hq & s1 & Hbody & Hskip & Hval & HskipR).
    cbn [json.members]. rewrite Hq, Hbody, Hskip.
    change (Ascii.eqb ":" ":") with true. cbv iota.
    rewrite Hval, HskipR. cbn [append].
    change (Ascii.eqb "," ",") with true. cbv iota.
    destruct (fields_text_first g fs (String "}" rest)) as (t & Et).
    rewrite Et. cbn [json.skipSpace].
    change (json.isSpace dquote) with false. cbv iota.
    rewrite <- Et, IH. reflexivity.
Qed.

(** The text of an object whose values are each scanned in [k] steps. *)
Lemma scans_object (k : nat) (fs : list (string * string * json)) :
  fs <> [] ->
  Forall (fun f => scans_as k (snd (fst f)) (snd f)) fs ->
  scans_as (S (k + List.length fs))
    ("{" ++ fields_text fs ++ "}")
    (JObject ("{" ++ fields_text fs ++ "}") (fields_members fs)).
Proof.
  intros Hne Hall fuel rest Hfuel _.
  destruct fuel as [| fuel]; [ lia |].
  pose proof (consumed_app ("{" ++ fields_text fs ++ "}") rest) as Hcons.
  pose proof (members_scans k fs Hne Hall fuel rest ltac:(lia)) as Hm.
  rewrite !append_assoc in *. cbn [append] in *.
  cbn [json.value].
  change (Ascii.eqb "{" "{") with true. cbv iota.
  destruct fs as [| f fs]; [ contradiction |].
  destruct (fields_text_first f fs (String "}" rest)) as (t & Et).
  rewrite Et in *. cbn [json.skipSpace].
  change (json.isSpace dquote) with false. cbv iota.
  change (Ascii.eqb dquote "}") with false. cbv iota.
  rewrite Hm, Hcons. reflexivity.
Qed.

(** * Decoding the text of the encoder *)

Lemma scans_as_mono (k k' : nat) (text : string) (j : json) :
  k <= k' -> scans_as k text j -> scans_as k' text j.
Proof. intros Hk H fuel rest Hfuel Hrest. apply H; [ lia | exact Hrest ]. Qed.

(** A text that is scanned as a value is valid JSON on its own. *)
Lemma scan_scans (k : nat) (text : string) (j : json) :
  scans_as k text j -> k <= 2 * String.length text + 2 -> json.scan text = Some j.
Proof.
  intros H Hk. unfold json.scan.
  pose proof (skipSpace_scans k text j EmptyString H) as Hs.
  pose proof (H (2 * String.length text + 2) EmptyString Hk eq_refl) as Hv.
  rewrite append_empty_r in Hs, Hv. rewrite Hs, Hv. reflexivity.
Qed.

Lemma join_length (l : list string) :
  Forall (fun x => 1 <= String.length x) l ->
  List.length l <= String.length (json.join l) + 1.
Proof.
  induction l as [| x l IH]; intros H; [ cbn; lia |].
  inversion H as [| ? ? Hx Hl]; subst. specialize (IH Hl).
  destruct l as [| y l]; [ cbn; lia |].
  change (json.join (x :: y :: l)) with (x ++ "," ++ json.join (y :: l)).
  rewrite !length_app. cbn [List.length String.length] in *. lia.
Qed.

(** ** Numbers *)

Lemma decodeUint_FormatUint (bits : N) (typ : string) (n v : N) :
  (bits <= 64)%N -> (n < 2 ^ bits)%N ->
  json.decodeUint bits typ (JLiteral (strconv.FormatUint n)) v = (n, json.Done).
Proof.
  intros Hb Hn. unfold json.decodeUint.
  rewrite (proj2 (scans_FormatUint n)).
  assert (H64 : (n < 2 ^ 64)%N).
  { apply N.lt_le_trans with (2 ^ bits)%N; [ exact Hn |].
    apply N.pow_le_mono_r; lia. }
  rewrite (ParseUint_FormatUint n H64), (proj2 (N.ltb_lt _ _) Hn). reflexivity.
Qed.

Lemma decodeInt_FormatInt (typ : string) (i v : Z) :
  int32 i ->
  json.decodeInt 32 typ (JLiteral (strconv.FormatInt i)) v = (i, json.Done).
Proof.
  unfold int32. intros Hi. unfold json.decodeInt.
  rewrite (proj2 (scans_FormatInt i)).
  rewrite (ParseInt_FormatInt i) by lia.
  change (Z.of_N (32 - 1)) with 31%Z.
  destruct (Z.leb_spec (- 2 ^ 31) i); [| lia ].
  destruct (Z.ltb_spec i (2 ^ 31)); [| lia ]. reflexivity.
Qed.

Lemma literalKind_FormatUint_not_null (n : N) (T : Type) (a b : T) :
  match json.literalKind (strconv.FormatUint n) with
  | json.KNull => a
  | _ => b
  end = b.
Proof. rewrite (proj2 (scans_FormatUint n)). reflexivity. Qed.

Lemma decodePtr_FormatUint (bits : N) (typ : string) (n : N) (p : option N) :
  (bits <= 64)%N -> (n < 2 ^ bits)%N ->
  json.decodePtr 0%N (json.decodeUint bits typ) (JLiteral (strconv.FormatUint n)) p
  = (Some n, json.Done).
Proof.
  intros Hb Hn. unfold json.decodePtr.
  rewrite (proj2 (scans_FormatUint n)).
  rewrite (decodeUint_FormatUint bits typ n _ Hb Hn). reflexivity.
Qed.

(** ** Strings *)

Lemma decodeString_quote (typ s v : string) :
  utf8.ValidString s = true ->
  json.decodeString typ (JLiteral (json.quote s)) v = (s, json.Done).
Proof.
  intros H. unfold json.decodeString.
  change (json.literalKind (json.quote s)) with json.KString.
  rewrite (unquote_quote s H). reflexivity.
Qed.

Lemma arrayLoop_quotes (l : list string) :
  Forall (fun s => utf8.ValidString s = true) l ->
  json.arrayLoop EmptyString (json.decodeString "string")
    (map (fun s => JLiteral (json.quote s)) l) []
  = (l, json.Done).
Proof.
  induction l as [| s l IH]; intros H; [ reflexivity |].
  inversion H as [| ? ? Hs Hl]; subst.
  cbn [map json.arrayLoop tl]. rewrite (decodeString_quote _ s _ Hs), (IH Hl).
  reflexivity.
Qed.

(** ** Objects *)

Lemma objectLoop_app {T : Type} (store : string -> json -> T -> T * json.status)
    (A B : list (string * json)) (v v1 : T) :
  json.objectLoop store A v = (v1, json.Done) ->
  json.objectLoop store (A ++ B)%list v = json.objectLoop store B v1.
Proof.
  revert v. induction A as [| [k j] A IH]; intros v H.
  - inversion H. reflexivity.
  - cbn [app json.objectLoop] in *.
    destruct (json.unquote k) as [key |]; [| discriminate H ].
    destruct (store key j v) as [v' st].
    destruct st as [| e | e]; [| | discriminate H ].
    + destruct (json.objectLoop store A v') as [v2 st2] eqn:E.
      cbn [json.andThen] in H. inversion H; subst.
      rewrite (IH v' E).
      destruct (json.objectLoop store B v1) as [v3 st3]. reflexivity.
    + destruct (json.objectLoop store A v') as [v2 st2].
      destruct st2; discriminate H.
Qed.

Lemma fields_members_app (A B : list (string * string * json)) :
  fields_members (A ++ B)%list = (fields_members A ++ fields_members B)%list.
Proof. apply map_app. Qed.

Lemma objectLoop_cons_Done {T : Type} (store : string -> json -> T -> T * json.status)
    (name : string) (j : json) (rest : list (string * json)) (v v1 : T) :
  json.unquote (json.quote name) = Some name ->
  store name j v = (v1, json.Done) ->
  json.objectLoop store ((json.quote name, j) :: rest) v = json.objectLoop store rest v1.
Proof.
  intros Hk Hs. cbn [json.objectLoop]. rewrite Hk, Hs.
  destruct (json.objectLoop store rest v1) as [v2 st]. reflexivity.
Qed.

Section ParamRoundTrip.

Context {eui : EUI64_type}.

(** ** RESET *)

Lemma Reset_roundtrip (n : N) :
  (n < 2 ^ 8)%N ->
  Unmarshal_requestParam (strconv.FormatUint n) (ResetParam 0%N)
  = (ResetParam n, None).
Proof.
  intros Hn. unfold Unmarshal_requestParam, json.Unmarshal.
  rewrite (scan_scans 1 _ _ (proj1 (scans_FormatUint n))) by lia.
  unfold decode_ResetRequestParam.
  rewrite (decodeUint_FormatUint 8 _ n _ ltac:(lia) Hn). reflexivity.
Qed.

(** ** GETINFO *)

Lemma GetInfo_nil_roundtrip :
  Unmarshal_requestParam "null" (GetInfoParam None) = (GetInfoParam None, None).
Proof. reflexivity. Qed.

Lemma quotes_scan (l : list string) :
  Forall (fun it : string * json => scans_as 1 (fst it) (snd it))
    (map (fun s => (json.quote s, JLiteral (json.quote s))) l).
Proof.
  induction l as [| s l IH]; cbn [map]; constructor; [| exact IH ].
  apply scans_quote.
Qed.

Lemma GetInfo_text (l : list string) :
  "[" ++ json.join (map json.quote l) ++ "]"
  = "[" ++ json.join (map fst (map (fun s => (json.quote s, JLiteral (json.quote s))) l))
        ++ "]".
Proof. rewrite map_map. cbn [fst]. reflexivity. Qed.

Lemma GetInfo_scans (l : list string) :
  scans_as (S (1 + List.length l))
    ("[" ++ json.join (map json.quote l) ++ "]")
    (JArray ("[" ++ json.join (map json.quote l) ++ "]")
       (map (fun s => JLiteral (json.quote s)) l)).
Proof.
  pose proof (scans_array 1 _ (quotes_scan l)) as H.
  rewrite <- GetInfo_text, !map_map, length_map in H. cbn [snd] in H. exact H.
Qed.

Lemma quotes_length (l : list string) :
  List.length l <= String.length (json.join (map json.quote l)) + 1.
Proof.
  rewrite <- (length_map json.quote l). apply join_length.
  induction l as [| s l IH]; cbn [map]; constructor; [| exact IH ].
  unfold json.quote. cbn [String.length]. lia.
Qed.

Lemma GetInfo_roundtrip (l : list string) :
  Forall (fun s => utf8.ValidString s = true) l ->
  Unmarshal_requestParam ("[" ++ json.join (map json.quote l) ++ "]") (GetInfoParam None)
  = (GetInfoParam (Some l), None).
Proof.
  intros Hl. unfold Unmarshal_requestParam, json.Unmarshal.
  rewrite (scan_scans _ _ _ (GetInfo_scans l)).
  - unfold decode_GetInfoRequestParam, json.decodeSlice.
    rewrite (arrayLoop_quotes l Hl). reflexivity.
  - pose proof (quotes_length l). rewrite !length_app. cbn [String.length]. lia.
Qed.

(** ** FILEDONE *)

Lemma FileDone_scans (p : FileDoneRequestParam) :
  scans_as 4
    ("{" ++ fields_text [("sid", strconv.FormatInt (SID p), JLiteral (strconv.FormatInt (SID p)));
                         ("sctr", strconv.FormatInt (SCtr p),
                          JLiteral (strconv.FormatInt (SCtr p)))] ++ "}")
    (JObject
       ("{" ++ fields_text [("sid", strconv.FormatInt (SID p),
                             JLiteral (strconv.FormatInt (SID p)));
                            ("sctr", strconv.FormatInt (SCtr p),
                             JLiteral (strconv.FormatInt (SCtr p)))] ++ "}")
       [(json.quote "sid", JLiteral (strconv.FormatInt (SID p)));
        (json.quote "sctr", JLiteral (strconv.FormatInt (SCtr p)))]).
Proof.
  refine (scans_object 1
            [("sid", strconv.FormatInt (SID p), JLiteral (strconv.FormatInt (SID p)));
             ("sctr", strconv.FormatInt (SCtr p), JLiteral (strconv.FormatInt (SCtr p)))]
            _ _); [ discriminate |].
  repeat constructor; cbn [fst snd]; apply scans_FormatInt.
Qed.

Lemma FileDone_roundtrip (p : FileDoneRequestParam) :
  int32 (SID p) -> int32 (SCtr p) ->
  Unmarshal_requestParam (fst (encode_requestParam (FileDoneParam p)))
    (FileDoneParam zero_FileDoneRequestParam)
  = (FileDoneParam p, None).
Proof.
  intros H1 H2. unfold Unmarshal_requestParam, json.Unmarshal.
  change (fst (encode_requestParam (FileDoneParam p)))
    with ("{" ++ fields_text
                   [("sid", strconv.FormatInt (SID p), JLiteral (strconv.FormatInt (SID p)));
                    ("sctr", strconv.FormatInt (SCtr p),
                     JLiteral (strconv.FormatInt (SCtr p)))] ++ "}").
  rewrite (scan_scans _ _ _ (FileDone_scans p))
    by (rewrite !length_app; cbn [String.length]; lia).
  unfold decode_FileDoneRequestParam, json.decodeStruct.
  rewrite (objectLoop_cons_Done store_FileDoneRequestParam "sid" _ _ _
             (mkFileDone (SID p) 0) eq_refl).
  2:{ unfold store_FileDoneRequestParam.
      change (json.findField ["sid"; "sctr"] "sid" None) with (Some "sid").
      cbv iota. change (String.eqb "sid" "sid") with true. cbv iota.
      rewrite (decodeInt_FormatInt _ (SID p) _ H1). reflexivity. }
  rewrite (objectLoop_cons_Done store_FileDoneRequestParam "sctr" _ _ _
             (mkFileDone (SID p) (SCtr p)) eq_refl).
  2:{ unfold store_FileDoneRequestParam.
      change (json.findField ["sid"; "sctr"] "sctr" None) with (Some "sctr").
      cbv iota. change (String.eqb "sctr" "sid") with false. cbv iota.
      rewrite (decodeInt_FormatInt _ (SCtr p) _ H2). reflexivity. }
  destruct p. reflexivity.
Qed.

(** ** FUOTA *)

Lemma hex_quiet (c : ascii) :
  is_lower_hex_digit c = true ->
  Ascii.eqb c "<" || Ascii.eqb c ">" || Ascii.eqb c "&" = false
  /\ Ascii.eqb c dquote = false /\ Ascii.eqb c bslash = false
  /\ (code c =? 226)%N = false.
Proof.
  destruct c as [[] [] [] [] [] [] [] []]; intros H; try discriminate H;
    repeat split; reflexivity.
Qed.

Lemma compactLoop_hex (t : string) :
  all_chars is_lower_hex_digit t = true ->
  json.compactLoop true false (t ++ String dquote EmptyString)
  = t ++ String dquote EmptyString.
Proof.
  induction t as [| c t IH]; intros H; [ reflexivity |].
  cbn [all_chars] in H. apply andb_prop in H. destruct H as [Hc Ht].
  destruct (hex_quiet c Hc) as (H1 & H2 & H3 & H4).
  specialize (IH Ht). cbn [append].
  remember (t ++ String dquote EmptyString) as s1 eqn:E.
  cbn [json.compactLoop]. rewrite H1, H2, H3, H4. cbn [negb andb orb].
  rewrite IH. destruct s1 as [| c1 [| c2 s3]]; reflexivity.
Qed.

Lemma compact_hex (t : string) :
  all_chars is_lower_hex_digit t = true ->
  json.compact (Sprintf_quoted t) = Some (Sprintf_quoted t).
Proof.
  intros H. unfold json.compact.
  pose proof (scans_plain t (all_chars_impl _ _ _ hex_digit_plain H)) as Hs.
  rewrite (scan_scans 1 _ _ Hs) by lia.
  unfold Sprintf_quoted. cbn [json.compactLoop].
  change (Ascii.eqb dquote "<" || Ascii.eqb dquote ">" || Ascii.eqb dquote "&") with false.
  cbv iota.
  assert (E : json.compactLoop true false (t ++ String dquote EmptyString)
              = t ++ String dquote EmptyString) by (apply compactLoop_hex, H).
  destruct (t ++ String dquote EmptyString) as [| c1 [| c2 s3]] eqn:Et.
  - destruct t; discriminate Et.
  - cbn in *. rewrite E. reflexivity.
  - change (code dquote =? 226)%N with false. cbn [andb negb orb].
    change (json.isSpace dquote) with false. cbv iota.
    change (Ascii.eqb dquote dquote) with true.
    change (true && negb false && Ascii.eqb dquote bslash) with false.
    rewrite E. reflexivity.
Qed.

Lemma FUOTA_text (h : Hex) :
  encode_requestParam (FUOTAParam h)
  = (Sprintf_quoted (hex.EncodeToString h), None).
Proof.
  unfold encode_requestParam, json.marshalerEncoder, FUOTARequestParam_MarshalJSON,
    Hex_MarshalJSON.
  rewrite (compact_hex _ (EncodeToString_lower h)). reflexivity.
Qed.

Lemma FUOTA_roundtrip (h : Hex) :
  Unmarshal_requestParam (fst (encode_requestParam (FUOTAParam h))) (FUOTAParam [])
  = (FUOTAParam h, None).
Proof.
  rewrite FUOTA_text. cbn [fst]. unfold Unmarshal_requestParam, json.Unmarshal.
  pose proof (scans_plain _ (all_chars_impl _ _ _ hex_digit_plain (EncodeToString_lower h)))
    as Hs.
  rewrite (scan_scans 1 _ _ Hs) by lia.
  unfold decode_FUOTARequestParam, json.decodeUnmarshaler, FUOTARequestParam_UnmarshalJSON.
  cbn [json.raw].
  change (Sprintf_quoted (hex.EncodeToString h)) with (fst (Hex_MarshalJSON h)).
  rewrite Hex_decode_encode. reflexivity.
Qed.

End ParamRoundTrip.

Section SetConfRoundTrip.

Context {eui : EUI64_type}.

(** ** SETCONF *)

Lemma fields_length (fs : list (string * string * json)) :
  List.length fs <= String.length (fields_text fs) + 1.
Proof.
  unfold fields_text.
  rewrite <- (length_map (fun f => fieldText (fst (fst f)) (snd (fst f))) fs).
  apply join_length.
  induction fs as [| f fs IH]; cbn [map]; constructor; [| exact IH ].
  unfold fieldText, json.quote. cbn [append String.length]. lia.
Qed.

Lemma optField_text (name : string) (o : option N) :
  map (fun f : string * string * json => fieldText (fst (fst f)) (snd (fst f)))
    (optField name o)
  = optUint name o.
Proof. destruct o; reflexivity. Qed.

Lemma SetConf_text (p : SetConfRequestParam) (t : string) :
  EUI64_encode (JoinEUI p) = (Sprintf_quoted t, None) ->
  encode_requestParam (SetConfParam p)
  = ("{" ++ fields_text (SetConf_fields p t) ++ "}", None).
Proof.
  intros H. unfold encode_requestParam. rewrite H.
  unfold fields_text, SetConf_fields. rewrite !map_app, !optField_text. reflexivity.
Qed.

Lemma optField_scans (name : string) (o : option N) :
  Forall (fun f : string * string * json => scans_as 1 (snd (fst f)) (snd f))
    (optField name o).
Proof.
  destruct o as [n |]; cbn [optField]; repeat constructor.
  cbn [fst snd]. apply scans_FormatUint.
Qed.

Lemma SetConf_scans (p : SetConfRequestParam) (t : string) :
  all_chars plain t = true ->
  scans_as (S (1 + List.length (SetConf_fields p t)))
    ("{" ++ fields_text (SetConf_fields p t) ++ "}")
    (JObject ("{" ++ fields_text (SetConf_fields p t) ++ "}")
       (fields_members (SetConf_fields p t))).
Proof.
  intros Ht. apply (scans_object 1 (SetConf_fields p t)).
  - unfold SetConf_fields. destruct (optField "adrmode" (ADRMode p)); discriminate.
  - unfold SetConf_fields.
    apply Forall_app; split; [ apply optField_scans |].
    apply Forall_app; split.
    { repeat constructor. cbn [fst snd]. apply scans_plain, Ht. }
    apply Forall_app; split; [ apply optField_scans |].
    apply Forall_app; split; apply optField_scans.
Qed.

(** A field behind a pointer, written or left out, is read back. *)
Lemma objectLoop_optField {T : Type} (store : string -> json -> T -> T * json.status)
    (name : string) (o : option N) (rest : list (string * json)) (v v1 : T) :
  json.unquote (json.quote name) = Some name ->
  match o with
  | Some n => store name (JLiteral (strconv.FormatUint n)) v = (v1, json.Done)
  | None => v1 = v
  end ->
  json.objectLoop store (fields_members (optField name o) ++ rest)%list v
  = json.objectLoop store rest v1.
Proof.
  intros Hk H. destruct o as [n |]; cbn [optField fields_members map app fst snd].
  - apply objectLoop_cons_Done; assumption.
  - subst v1. reflexivity.
Qed.

Lemma store_SetConf_uint (name : string) (n : N) (v : SetConfRequestParam) (bits : N) :
  (name = "adrmode" \/ name = "interval" \/ name = "region") /\ bits = 8%N
  \/ name = "opmode" /\ bits = 32%N ->
  (n < 2 ^ bits)%N ->
  store_SetConfRequestParam name (JLiteral (strconv.FormatUint n)) v
  = (if String.eqb name "adrmode"
     then mkSetConf (Some n) (JoinEUI v) (Interval v) (Region v) (OpMode v)
     else if String.eqb name "interval"
     then mkSetConf (ADRMode v) (JoinEUI v) (Some n) (Region v) (OpMode v)
     else if String.eqb name "region"
     then mkSetConf (ADRMode v) (JoinEUI v) (Interval v) (Some n) (OpMode v)
     else mkSetConf (ADRMode v) (JoinEUI v) (Interval v) (Region v) (Some n),
     json.Done).
Proof.
  intros [[[-> | [-> | ->]] ->] | [-> ->]] Hn; unfold store_SetConfRequestParam.
  - change (json.findField _ "adrmode" None) with (Some "adrmode"). cbv iota.
    change (String.eqb "adrmode" "adrmode") with true. cbv iota.
    rewrite (decodePtr_FormatUint 8 _ n _ ltac:(lia) Hn). reflexivity.
  - change (json.findField _ "interval" None) with (Some "interval"). cbv iota.
    change (String.eqb "interval" "adrmode") with false.
    change (String.eqb "interval" "joineui") with false.
    change (String.eqb "interval" "interval") with true. cbv iota.
    rewrite (decodePtr_FormatUint 8 _ n _ ltac:(lia) Hn). reflexivity.
  - change (json.findField _ "region" None) with (Some "region"). cbv iota.
    change (String.eqb "region" "adrmode") with false.
    change (String.eqb "region" "joineui") with false.
    change (String.eqb "region" "interval") with false.
    change (String.eqb "region" "region") with true. cbv iota.
    rewrite (decodePtr_FormatUint 8 _ n _ ltac:(lia) Hn). reflexivity.
  - change (json.findField _ "opmode" None) with (Some "opmode"). cbv iota.
    change (String.eqb "opmode" "adrmode") with false.
    change (String.eqb "opmode" "joineui") with false.
    change (String.eqb "opmode" "interval") with false.
    change (String.eqb "opmode" "region") with false. cbv iota.
    rewrite (decodePtr_FormatUint 32 _ n _ ltac:(lia) Hn). reflexivity.
Qed.

Lemma SetConf_decode (p : SetConfRequestParam) (t : string) :
  opt_below 8 (ADRMode p) -> opt_below 8 (Interval p) ->
  opt_below 8 (Region p) -> opt_below 32 (OpMode p) ->
  (forall e0, EUI64_decode (JLiteral (Sprintf_quoted t)) e0 = (JoinEUI p, json.Done)) ->
  json.objectLoop store_SetConfRequestParam (fields_members (SetConf_fields p t))
    zero_SetConfRequestParam
  = (p, json.Done).
Proof.
  intros Ha Hi Hr Ho He. unfold SetConf_fields. rewrite !fields_members_app.
  rewrite (objectLoop_optField _ "adrmode" (ADRMode p) _ _
             (mkSetConf (ADRMode p) EUI64_zero None None None) eq_refl).
  2:{ destruct (ADRMode p) as [n |]; [| reflexivity ].
      rewrite (store_SetConf_uint "adrmode" n _ 8); [ reflexivity | intuition reflexivity | exact Ha ]. }
  cbn [fields_members map app fst snd].
  rewrite (objectLoop_cons_Done _ "joineui" _ _ _
             (mkSetConf (ADRMode p) (JoinEUI p) None None None) eq_refl).
  2:{ unfold store_SetConfRequestParam.
      change (json.findField _ "joineui" None) with (Some "joineui"). cbv iota.
      change (String.eqb "joineui" "adrmode") with false.
      change (String.eqb "joineui" "joineui") with true. cbv iota.
      rewrite He. reflexivity. }
  change (map (fun f : string * string * json => (json.quote (fst (fst f)), snd f)))
    with fields_members.
  rewrite (objectLoop_optField _ "interval" (Interval p) _ _
             (mkSetConf (ADRMode p) (JoinEUI p) (Interval p) None None) eq_refl).
  2:{ destruct (Interval p) as [n |]; [| reflexivity ].
      rewrite (store_SetConf_uint "interval" n _ 8); [ reflexivity | intuition reflexivity | exact Hi ]. }
  rewrite (objectLoop_optField _ "region" (Region p) _ _
             (mkSetConf (ADRMode p) (JoinEUI p) (Interval p) (Region p) None) eq_refl).
  2:{ destruct (Region p) as [n |]; [| reflexivity ].
      rewrite (store_SetConf_uint "region" n _ 8); [ reflexivity | intuition reflexivity | exact Hr ]. }
  rewrite <- (app_nil_r (fields_members (optField "opmode" (OpMode p)))).
  rewrite (objectLoop_optField _ "opmode" (OpMode p) _ _
             (mkSetConf (ADRMode p) (JoinEUI p) (Interval p) (Region p) (OpMode p)) eq_refl).
  2:{ destruct (OpMode p) as [n |]; [| reflexivity ].
      rewrite (store_SetConf_uint "opmode" n _ 32); [ reflexivity | intuition reflexivity | exact Ho ]. }
  destruct p. reflexivity.
Qed.

Lemma SetConf_roundtrip (p : SetConfRequestParam) :
  EUI64_roundtrip ->
  opt_below 8 (ADRMode p) -> opt_below 8 (Interval p) ->
  opt_below 8 (Region p) -> opt_below 32 (OpMode p) ->
  snd (encode_requestParam (SetConfParam p)) = None
  /\ Unmarshal_requestParam (fst (encode_requestParam (SetConfParam p)))
       (SetConfParam zero_SetConfRequestParam)
     = (SetConfParam p, None).
Proof.
  intros Heui Ha Hi Hr Ho.
  destruct (Heui (JoinEUI p)) as (t & Henc & Hplain & Hdec).
  rewrite (SetConf_text p t Henc). split; [ reflexivity |]. cbn [fst].
  unfold Unmarshal_requestParam, json.Unmarshal.
  rewrite (scan_scans _ _ _ (SetConf_scans p t Hplain)).
  - unfold decode_SetConfRequestParam, json.decodeStruct.
    rewrite (SetConf_decode p t Ha Hi Hr Ho Hdec). reflexivity.
  - pose proof (fields_length (SetConf_fields p t)).
    rewrite !length_app. cbn [String.length]. lia.
Qed.

End SetConfRoundTrip.

(** * The round trip of a request *)

Section RequestRoundTrip.

Context {eui : EUI64_type}.

(** ** The envelope *)

Lemma envelope_scans (T text : string) (k : nat) (j : json) :
  1 <= k -> scans_as k text j ->
  scans_as (S (k + 2))
    ("{" ++ fields_text (envelope_fields T (Some (text, j))) ++ "}")
    (JObject ("{" ++ fields_text (envelope_fields T (Some (text, j))) ++ "}")
       (fields_members (envelope_fields T (Some (text, j))))).
Proof.
  intros Hk H.
  refine (scans_object k (envelope_fields T (Some (text, j))) _ _); [ discriminate |].
  constructor; [| constructor; [ exact H | constructor ] ].
  cbn [fst snd]. apply (scans_as_mono 1 k); [ exact Hk | apply scans_quote ].
Qed.

Lemma store_baseRequest_type (T : string) (v : baseRequest) :
  utf8.ValidString T = true ->
  store_baseRequest "type" (JLiteral (json.quote T)) v
  = (mkBaseRequest T (brParam v), json.Done).
Proof.
  intros HT. unfold store_baseRequest.
  change (json.findField ["type"; "param"] "type" None) with (Some "type"). cbv iota.
  change (String.eqb "type" "type") with true. cbv iota.
  rewrite (decodeString_quote _ T _ HT). reflexivity.
Qed.

Lemma store_baseRequest_param (j : json) (v : baseRequest) :
  store_baseRequest "param" j v = (mkBaseRequest (brType v) (json.raw j), json.Done).
Proof. reflexivity. Qed.

(** The envelope the encoder writes around the text of a parameter is
    decoded to the discriminator and that very text. *)
Lemma envelope_param (T text : string) (k : nat) (j : json) :
  utf8.ValidString T = true ->
  1 <= k <= 2 * String.length text + 2 ->
  scans_as k text j -> json.raw j = text ->
  envelope ("{" ++ json.join [fieldText "type" (json.quote T); fieldText "param" text] ++ "}")
  = (mkBaseRequest T text, None).
Proof.
  intros HT Hk Hs Hraw. unfold envelope, json.Unmarshal.
  change ("{" ++ json.join [fieldText "type" (json.quote T); fieldText "param" text] ++ "}")
    with ("{" ++ fields_text (envelope_fields T (Some (text, j))) ++ "}").
  rewrite (scan_scans _ _ _ (envelope_scans T text k j (proj1 Hk) Hs)).
  - unfold decode_baseRequest, json.decodeStruct.
    cbn [envelope_fields fields_members map fst snd].
    rewrite (objectLoop_cons_Done store_baseRequest "type" _ _ _
               (mkBaseRequest T EmptyString) eq_refl)
      by (apply store_baseRequest_type, HT).
    rewrite (objectLoop_cons_Done store_baseRequest "param" _ _ _
               (mkBaseRequest T (json.raw j)) eq_refl)
      by (apply store_baseRequest_param).
    rewrite Hraw. reflexivity.
  - change ("{" ++ fields_text (envelope_fields T (Some (text, j))) ++ "}")
      with ("{" ++ ((json.quote "type" ++ ":" ++ json.quote T) ++ ","
                    ++ (json.quote "param" ++ ":" ++ text)) ++ "}").
    rewrite !length_app. cbn [String.length]. lia.
Qed.

(** ** The parameters *)

(** The text of a parameter is a JSON value, and decoding it into the
    new parameter of its variant gives the parameter back. *)
Lemma param_roundtrip (T : string) (v : requestParam) :
  EUI64_roundtrip ->
  well_formed (mkRequest T (Some v)) -> names_valid (mkRequest T (Some v)) ->
  exists (t : string) (k : nat) (j : json) (p : requestParam),
    encode_requestParam v = (t, None)
    /\ scans_as k t j /\ json.raw j = t
    /\ 1 <= k <= 2 * String.length t + 2
    /\ new_param T = Some p
    /\ utf8.ValidString T = true
    /\ one_of payload_discriminators T = true
    /\ Unmarshal_requestParam t p = (v, None).
Proof.
  intros Heui Hwf Hn. unfold well_formed, names_valid in *. cbn [Param Type_] in *.
  destruct v as [n | [l |] | p | p | h].
  - destruct Hwf as [-> Hlt].
    exists (strconv.FormatUint n), 1, (JLiteral (strconv.FormatUint n)), (ResetParam 0%N).
    repeat split; try reflexivity; try lia.
    + apply scans_FormatUint.
    + apply Reset_roundtrip, Hlt.
  - subst T.
    exists ("[" ++ json.join (map json.quote l) ++ "]"), (S (1 + List.length l)),
      (JArray ("[" ++ json.join (map json.quote l) ++ "]")
         (map (fun s => JLiteral (json.quote s)) l)), (GetInfoParam None).
    repeat split; try reflexivity; try lia.
    + apply GetInfo_scans.
    + pose proof (quotes_length l). rewrite !length_app. cbn [String.length]. lia.
    + apply GetInfo_roundtrip, Hn.
  - subst T. exists "null", 1, (JLiteral "null"), (GetInfoParam None).
    repeat split; try reflexivity; try lia. apply scans_null.
  - destruct Hwf as (-> & Ha & Hi & Hr & Ho).
    destruct (Heui (JoinEUI p)) as (t & Henc & Hplain & Hdec).
    destruct (SetConf_roundtrip p Heui Ha Hi Hr Ho) as [_ Hrt].
    rewrite (SetConf_text p t Henc) in Hrt. cbn [fst] in Hrt.
    exists ("{" ++ fields_text (SetConf_fields p t) ++ "}"),
      (S (1 + List.length (SetConf_fields p t))),
      (JObject ("{" ++ fields_text (SetConf_fields p t) ++ "}")
         (fields_members (SetConf_fields p t))),
      (SetConfParam zero_SetConfRequestParam).
    repeat split; try reflexivity; try lia.
    + apply SetConf_text, Henc.
    + apply SetConf_scans, Hplain.
    + pose proof (fields_length (SetConf_fields p t)).
      rewrite !length_app. cbn [String.length]. lia.
    + exact Hrt.
  - destruct Hwf as (-> & H1 & H2).
    eexists _, 4, _, (FileDoneParam zero_FileDoneRequestParam).
    split; [ reflexivity |]. split; [ apply (FileDone_scans p) |].
    repeat split; try reflexivity; try lia.
    + rewrite !length_app. cbn [String.length]. lia.
    + apply (FileDone_roundtrip p H1 H2).
  - subst T.
    exists (Sprintf_quoted (hex.EncodeToString h)), 1,
      (JLiteral (Sprintf_quoted (hex.EncodeToString h))), (FUOTAParam []).
    repeat split; try reflexivity; try lia.
    + apply FUOTA_text.
    + apply scans_plain, (all_chars_impl _ _ _ hex_digit_plain (EncodeToString_lower h)).
    + pose proof (FUOTA_roundtrip h) as H. rewrite FUOTA_text in H. exact H.
Qed.

(** The round trip of a request, through the envelope. *)
Lemma Request_roundtrip (r r0 : Request) :
  EUI64_roundtrip -> well_formed r -> names_valid r -> Param r0 = None ->
  exists b, Marshal_Request r = (b, None) /\ Request_UnmarshalJSON b r0 = (r, None).
Proof.
  intros Heui Hwf Hn H0. destruct r as [T [v |]].
  - destruct (param_roundtrip T v Heui Hwf Hn)
      as (t & k & j & p & Henc & Hs & Hraw & Hk & Hnew & HT & Hone & Hrt).
    unfold Marshal_Request. cbn [Param Type_]. rewrite Henc.
    eexists. split; [ reflexivity |].
    pose proof (envelope_param T t k j HT Hk Hs Hraw) as Henv.
    destruct (UnmarshalJSON_payload _ r0 _ Henv Hone) as (p' & Hp' & ->).
    cbn [brType brParam] in *. rewrite Hnew in Hp'. inversion Hp'; subst p'.
    rewrite Hrt. reflexivity.
  - unfold well_formed in Hwf. cbn [Param Type_] in Hwf.
    unfold Marshal_Request. cbn [Param Type_].
    eexists. split; [ reflexivity |].
    destruct Hwf as [-> | ->].
    + rewrite (UnmarshalJSON_no_payload _ r0 (mkBaseRequest RejoinRequestType EmptyString));
        [ rewrite H0; reflexivity | vm_compute; reflexivity | left; reflexivity ].
    + rewrite (UnmarshalJSON_no_payload _ r0 (mkBaseRequest MuteRequestType EmptyString));
        [ rewrite H0; reflexivity | vm_compute; reflexivity | right; reflexivity ].
Qed.

End RequestRoundTrip.

(** ** The realisation of the identifier *)

(** The identifier written as hexadecimal digits meets what the round
    trip asks of the identifier. *)
Lemma hexEUI64_roundtrip : EUI64_roundtrip (eui := hexEUI64).
Proof.
  intros e. exists (hex.EncodeToString e). split; [| split ].
  - cbn [EUI64_encode hexEUI64]. unfold json.marshalerEncoder, Hex_MarshalJSON.
    rewrite (compact_hex _ (EncodeToString_lower e)). reflexivity.
  - apply (all_chars_impl _ _ _ hex_digit_plain (EncodeToString_lower e)).
  - intros e0. cbn [EUI64_decode hexEUI64].
    unfold json.decodeUnmarshaler, hexEUI64_UnmarshalJSON. cbn [json.raw].
    change (Sprintf_quoted (hex.EncodeToString e)) with (fst (Hex_MarshalJSON e)).
    rewrite Hex_decode_encode. reflexivity.
Qed.

(** ** The claim on the round trip *)

Section RoundTripClaim.

Context {eui : EUI64_type}.


End RoundTripClaim.



(** ** A payload that is not of the shape of its variant *)

Lemma decodeUint_overflow (bits : N) (typ : string) (n v : N) :
  (2 ^ bits <= n)%N ->
  json.decodeUint bits typ (JLiteral (strconv.FormatUint n)) v
  = (v, json.Saved (UnmarshalTypeError ("number " ++ strconv.FormatUint n) typ)).
Proof.
  intros Hn. unfold json.decodeUint.
  rewrite (proj2 (scans_FormatUint n)).
  destruct (FormatUint_spec n) as (c & D & E & _ & Hval & _).
  rewrite E. unfold strconv.ParseUint. rewrite Hval.
  destruct (n <? 2 ^ 64)%N; [| reflexivity ].
  rewrite (proj2 (N.ltb_ge _ _) Hn). reflexivity.
Qed.

Section PayloadErrors.

Context {eui : EUI64_type}.





(** *** The payloads that are not of the declared shape *)






Lemma andThen_Done (s1 s2 : json.status) :
  json.andThen s1 s2 = json.Done -> s1 = json.Done /\ s2 = json.Done.
Proof. destruct s1, s2; cbn; intros H; try discriminate H; auto. Qed.









(** *** The errors of the payloads *)















End PayloadErrors.




(** * Further properties of the codecs *)

(** ** The case of the hexadecimal digits *)

Lemma fromHexChar_lower (c : ascii) :
  hex.fromHexChar (lower_char c) = hex.fromHexChar c
  /\ Ascii.eqb (lower_char c) dquote = Ascii.eqb c dquote.
Proof. destruct c as [[] [] [] [] [] [] [] []]; split; reflexivity. Qed.

Lemma Decode_lowercase (s : string) :
  hex.Decode (lowercase s)
  = (fst (hex.Decode s), option_map lower_error (snd (hex.Decode s))).
Proof.
  induction s as [| c | c d s IH] using string_pair_ind.
  - reflexivity.
  - cbn [lowercase hex.Decode]. rewrite (proj1 (fromHexChar_lower c)).
    destruct (hex.fromHexChar c); reflexivity.
  - cbn [lowercase hex.Decode].
    rewrite (proj1 (fromHexChar_lower c)), (proj1 (fromHexChar_lower d)), IH.
    destruct (hex.fromHexChar c); [| reflexivity ].
    destruct (hex.fromHexChar d); [| reflexivity ].
    destruct (hex.Decode s) as [out err]. reflexivity.
Qed.

Lemma last_char_lowercase (s : string) :
  last_char (lowercase s) = option_map lower_char (last_char s).
Proof.
  induction s as [| c s IH]; [ reflexivity |].
  destruct s as [| d s]; [ reflexivity |].
  change (last_char (String c (String d s))) with (last_char (String d s)).
  rewrite <- IH. reflexivity.
Qed.

Lemma but_last_lowercase (s : string) :
  but_last (lowercase s) = lowercase (but_last s).
Proof.
  induction s as [| c s IH]; [ reflexivity |].
  destruct s as [| d s]; [ reflexivity |].
  change (but_last (String c (String d s))) with (String c (but_last (String d s))).
  cbn [lowercase]. rewrite <- IH. reflexivity.
Qed.

Lemma strip_quotes_lowercase (s : string) :
  strip_quotes (lowercase s) = lowercase (strip_quotes s).
Proof.
  assert (Ht : forall t, strip_trailing_quote (lowercase t)
                         = lowercase (strip_trailing_quote t)).
  { intros t. unfold strip_trailing_quote. rewrite last_char_lowercase.
    destruct (last_char t) as [c |]; [| reflexivity ]. cbn [option_map].
    rewrite (proj2 (fromHexChar_lower c)).
    destruct (Ascii.eqb c dquote); [ apply but_last_lowercase | reflexivity ]. }
  unfold strip_quotes. destruct s as [| c s]; [ reflexivity |].
  cbn [lowercase strip_leading_quote]. rewrite (proj2 (fromHexChar_lower c)).
  destruct (Ascii.eqb c dquote); [ apply Ht | apply (Ht (String c s)) ].
Qed.

(** X1.  Hex decode does not tell the case of the digits: the text in
    lowercase is decoded to the same bytes, the bytes before the error
    included, and fails when the text fails, with the same error but for
    the case of the byte it reports. *)
Theorem Hex_decode_ignores_case (b : string) (h : Hex) :
  Hex_UnmarshalJSON (lowercase b) h
  = (fst (Hex_UnmarshalJSON b h), option_map lower_error (snd (Hex_UnmarshalJSON b h))).
Proof.
  unfold Hex_UnmarshalJSON, hex.DecodeString.
  rewrite !strip_quotes_Trim, strip_quotes_lowercase. apply Decode_lowercase.
Qed.

(** ** The parameter of FUOTA *)

(** X2.  The decode of a FUOTA parameter is that of Hex into a new value:
    it succeeds when the Hex decode of the text does and then assigns the
    receiver the bytes, it fails with the error of the Hex decode and then
    leaves the receiver as it was; and it reads back what the encode of
    a FUOTA parameter writes, whatever the receiver holds. *)
Theorem FUOTA_decode_follows_Hex (b : string) (h f : FUOTARequestParam) :
  FUOTARequestParam_UnmarshalJSON b f
  = match Hex_UnmarshalJSON b h with
    | (out, None) => (out, None)
    | (_, Some e) => (f, Some e)
    end
  /\ FUOTARequestParam_UnmarshalJSON (fst (FUOTARequestParam_MarshalJSON h)) f = (h, None).
Proof.
  split.
  - unfold FUOTARequestParam_UnmarshalJSON, Hex_UnmarshalJSON. reflexivity.
  - unfold FUOTARequestParam_UnmarshalJSON, FUOTARequestParam_MarshalJSON.
    rewrite Hex_decode_encode. reflexivity.
Qed.

(** X3.  json.Marshal of a FUOTA parameter cannot fail: the text its
    MarshalJSON returns is one JSON string, which the encoder takes as it
    is, without an escape and without a MarshalerError. *)
Theorem FUOTA_Marshal_total (h : FUOTARequestParam) :
  json.scan (fst (FUOTARequestParam_MarshalJSON h))
  = Some (JLiteral (fst (FUOTARequestParam_MarshalJSON h)))
  /\ json.literalKind (fst (FUOTARequestParam_MarshalJSON h)) = json.KString
  /\ json.marshalerEncoder "objects.FUOTARequestParam" (FUOTARequestParam_MarshalJSON h)
     = (fst (Hex_MarshalJSON h), None).
Proof.
  unfold FUOTARequestParam_MarshalJSON, Hex_MarshalJSON. cbn [fst].
  split; [| split ].
  - apply (scan_scans 1); [| lia ].
    apply scans_plain, (all_chars_impl _ _ _ hex_digit_plain (EncodeToString_lower h)).
  - reflexivity.
  - unfold json.marshalerEncoder.
    rewrite (compact_hex _ (EncodeToString_lower h)). reflexivity.
Qed.

(** ** The receiver of Request decode *)

Section RequestExtras.

Context {eui : EUI64_type}.

(** X4.  What Request decode returns does not depend on the request the
    receiver holds: the error is the same for every receiver, and so is
    the Type once the envelope is decoded; for a discriminator with a
    payload the whole request is the same, and for the other envelopes
    that are decoded the Param of the receiver is kept. *)
Theorem decode_independent_of_receiver (b : string) (r1 r2 : Request) :
  snd (Request_UnmarshalJSON b r1) = snd (Request_UnmarshalJSON b r2)
  /\ match envelope b with
     | (br, None) =>
         Type_ (fst (Request_UnmarshalJSON b r1)) = Type_ (fst (Request_UnmarshalJSON b r2))
         /\ if one_of payload_discriminators (brType br)
            then fst (Request_UnmarshalJSON b r1) = fst (Request_UnmarshalJSON b r2)
            else Param (fst (Request_UnmarshalJSON b r1)) = Param r1
     | (_, Some _) => fst (Request_UnmarshalJSON b r1) = r1
     end.
Proof.
  destruct (envelope b) as [br [e |]] eqn:Henv.
  - rewrite !(UnmarshalJSON_envelope_error b _ br e Henv). split; reflexivity.
  - rewrite !(UnmarshalJSON_switch b _ br Henv).
    unfold one_of, payload_discriminators, new_param. cbn [existsb].
    destruct (String.eqb_spec (brType br) ResetRequestType) as [-> | _];
      [ repeat split |].
    destruct (String.eqb_spec (brType br) GetInfoRequestType) as [-> | _];
      [ repeat split |].
    destruct (String.eqb_spec (brType br) SetConfRequestType) as [-> | _];
      [ repeat split |].
    destruct (String.eqb_spec (brType br) FileDoneRequestType) as [-> | _];
      [ repeat split |].
    destruct (String.eqb_spec (brType br) FUOTARequestType) as [-> | _];
      [ repeat split |].
    cbn [orb].
    destruct (String.eqb (brType br) RejoinRequestType || String.eqb (brType br) MuteRequestType);
      repeat split.
Qed.

(** ** The envelope *)

(** X5.  A text that is no JSON object is no envelope.  A text that is
    not valid JSON fails with the syntax error and an array with the type
    error of an array, the receiver being left as it is.  The literal
    null is decoded as an envelope without members: the decode fails
    with InvalidRequestType carrying the empty discriminator, and the
    Type of the receiver is made empty. *)
Theorem envelope_not_an_object (b : string) (r : Request) :
  (json.scan b = None -> Request_UnmarshalJSON b r = (r, Some SyntaxError))
  /\ (forall raw es,
        json.scan b = Some (JArray raw es) ->
        Request_UnmarshalJSON b r
        = (r, Some (UnmarshalTypeError "array" "objects.baseRequest")))
  /\ (forall item,
        json.scan b = Some (JLiteral item) ->
        Request_UnmarshalJSON b r
        = match json.literalKind item with
          | json.KNull => (mkRequest EmptyString (Param r), Some (InvalidRequestType EmptyString))
          | json.KBool => (r, Some (UnmarshalTypeError "bool" "objects.baseRequest"))
          | json.KString => (r, Some (UnmarshalTypeError "string" "objects.baseRequest"))
          | json.KNumber => (r, Some (UnmarshalTypeError "number" "objects.baseRequest"))
          end).
Proof.
  unfold Request_UnmarshalJSON, json.Unmarshal. split; [| split ].
  - intros ->. reflexivity.
  - intros raw es ->. reflexivity.
  - intros item ->. cbn [decode_baseRequest json.decodeStruct].
    unfold decode_baseRequest, json.decodeStruct.
    destruct (json.literalKind item); reflexivity.
Qed.

Lemma store_baseRequest_not_type (key : string) (j : json) (v : baseRequest) :
  match json.findField ["type"; "param"] key None with
  | Some g => String.eqb g "type"
  | None => false
  end = false ->
  brType (fst (store_baseRequest key j v)) = brType v.
Proof.
  unfold store_baseRequest. cbn [json.findField].
  destruct (String.eqb "type" key); [ discriminate |].
  destruct (String.eqb "param" key); [ reflexivity |].
  destruct (json.equalFold "type" key); [ discriminate |].
  destruct (json.equalFold "param" key); reflexivity.
Qed.

Lemma objectLoop_no_type (ms : list (string * json)) (v : baseRequest) :
  has_type_member ms = false ->
  brType (fst (json.objectLoop store_baseRequest ms v)) = brType v.
Proof.
  revert v. induction ms as [| [k j] ms IH]; intros v H; [ reflexivity |].
  cbn [has_type_member existsb fst] in H. apply orb_false_elim in H.
  destruct H as [Hk Hms]. unfold selects in Hk.
  cbn [json.objectLoop].
  destruct (json.unquote k) as [key |]; [| reflexivity ].
  pose proof (store_baseRequest_not_type key j v Hk) as Hs.
  destruct (store_baseRequest key j v) as [v1 st]. cbn [fst] in Hs.
  specialize (IH v1 Hms).
  destruct (json.objectLoop store_baseRequest ms v1) as [v2 st'].
  cbn [fst] in IH.
  destruct st; cbn [fst]; congruence.
Qed.

(** X6.  An envelope without a type member has the empty discriminator:
    when the envelope is decoded, the decode fails with
    InvalidRequestType carrying the empty string, whatever the param
    is, and the receiver keeps its Param. *)
Theorem absent_type (b raw : string) (ms : list (string * json))
    (r : Request) (br : baseRequest) :
  json.scan b = Some (JObject raw ms) ->
  has_type_member ms = false ->
  envelope b = (br, None) ->
  brType br = EmptyString
  /\ Request_UnmarshalJSON b r
     = (mkRequest EmptyString (Param r), Some (InvalidRequestType EmptyString)).
Proof.
  intros Hscan Hms Henv.
  assert (Ht : brType br = EmptyString).
  { revert Henv. unfold envelope, json.Unmarshal. rewrite Hscan.
    unfold decode_baseRequest, json.decodeStruct.
    pose proof (objectLoop_no_type ms zero_baseRequest Hms) as H.
    destruct (json.objectLoop store_baseRequest ms zero_baseRequest) as [v st].
    intros E. inversion E; subst. exact H. }
  split; [ exact Ht |].
  rewrite (UnmarshalJSON_default b r br Henv); rewrite Ht; reflexivity.
Qed.

End RequestExtras.

Lemma absent_type_witness :
  Request_UnmarshalJSON (eui := hexEUI64) (js "{'Param':[1,2],'kind':'MUTE'}")
    (mkRequest "OLD" (Some (ResetParam 7%N)))
  = (mkRequest EmptyString (Some (ResetParam 7%N)), Some (InvalidRequestType EmptyString)).
Proof.
  refine (proj2 (absent_type (eui := hexEUI64)
            (js "{'Param':[1,2],'kind':'MUTE'}") (js "{'Param':[1,2],'kind':'MUTE'}")
            [(js "'Param'", JArray "[1,2]" [JLiteral "1"; JLiteral "2"]);
             (js "'kind'", JLiteral (js "'MUTE'"))]
            (mkRequest "OLD" (Some (ResetParam 7%N)))
            (mkBaseRequest EmptyString "[1,2]") _ _ _)); reflexivity.
Defined.

(** ** Objects of one member *)

Lemma objectLoop_one {T : Type} (store : string -> json -> T -> T * json.status)
    (name : string) (j : json) (v v1 : T) (st : json.status) :
  json.unquote (json.quote name) = Some name ->
  store name j v = (v1, st) ->
  exists st',
    json.objectLoop store [(json.quote name, j)] v = (v1, st')
    /\ json.statusError st' = json.statusError st.
Proof.
  intros Hk Hs. cbn [json.objectLoop]. rewrite Hk, Hs.
  destruct st as [| e | e]; eexists; split; reflexivity.
Qed.

(** The object with the one member [name], whose value is the text
    [text], stored in a structure. *)
Lemma Unmarshal_one_member {T : Type} (store : string -> json -> T -> T * json.status)
    (typ name text : string) (j : json) (v v1 : T) (st : json.status) :
  json.unquote (json.quote name) = Some name ->
  scans_as 1 text j ->
  store name j v = (v1, st) ->
  json.Unmarshal (json.decodeStruct store typ) ("{" ++ fieldText name text ++ "}") v
  = (v1, json.statusError st).
Proof.
  intros Hk Hs Hst. unfold json.Unmarshal.
  pose proof (scans_object 1 [(name, text, j)]) as Hobj.
  rewrite fields_text_one in Hobj. cbn [fst snd fields_members map List.length] in Hobj.
  rewrite (scan_scans _ _ _ (Hobj ltac:(discriminate) ltac:(repeat constructor; exact Hs))).
  - cbn [json.decodeStruct].
    destruct (objectLoop_one store name j v v1 st Hk Hst) as (st' & -> & <-).
    reflexivity.
  - rewrite !length_app. cbn [String.length]. lia.
Qed.

(** ** The widths of the numbers *)

Lemma ParseInt_FormatInt_range (i : Z) :
  strconv.ParseInt (strconv.FormatInt i)
  = if ((- 2 ^ 63 <=? i) && (i <? 2 ^ 63))%Z then Some i else None.
Proof.
  destruct (Z.leb_spec (- 2 ^ 63) i) as [Hlo | Hlo];
    destruct (Z.ltb_spec i (2 ^ 63)) as [Hhi | Hhi]; cbn [andb];
    try (apply ParseInt_FormatInt; lia).
  - unfold strconv.FormatInt.
    destruct (Z.ltb_spec i 0) as [Hneg | _]; [ lia |].
    destruct (FormatUint_spec (Z.to_N i)) as (c & D & -> & Hall & Hval & _).
    unfold strconv.ParseInt. cbn [all_chars] in Hall. apply andb_prop in Hall.
    destruct (digit_not_sign c (proj1 Hall)) as (-> & -> & _). cbn [orb].
    rewrite Hval.
    assert (H : (Z.to_N i <? 2 ^ 63)%N = false) by (apply N.ltb_ge; lia).
    rewrite H. reflexivity.
  - unfold strconv.FormatInt.
    destruct (Z.ltb_spec i 0) as [_ | Hpos]; [| lia ].
    destruct (FormatUint_spec (Z.to_N (- i))) as (c & D & -> & _ & Hval & _).
    unfold strconv.ParseInt.
    change (Ascii.eqb "-" "-") with true. change (Ascii.eqb "-" "+") with false.
    cbn [orb]. rewrite Hval.
    assert (H : (Z.to_N (- i) <=? 2 ^ 63)%N = false) by (apply N.leb_gt; lia).
    rewrite H. reflexivity.
  - lia.
Qed.

Lemma decodeInt_overflow (typ : string) (i v : Z) :
  (i < - 2 ^ 31 \/ 2 ^ 31 <= i)%Z ->
  json.decodeInt 32 typ (JLiteral (strconv.FormatInt i)) v
  = (v, json.Saved (UnmarshalTypeError ("number " ++ strconv.FormatInt i) typ)).
Proof.
  intros Hi. unfold json.decodeInt.
  rewrite (proj2 (scans_FormatInt i)), ParseInt_FormatInt_range.
  destruct ((- 2 ^ 63 <=? i) && (i <? 2 ^ 63))%Z; [| reflexivity ].
  change (Z.of_N (32 - 1)) with 31%Z.
  destruct (Z.leb_spec (- 2 ^ 31) i); destruct (Z.ltb_spec i (2 ^ 31));
    cbn [andb]; try reflexivity; lia.
Qed.

Lemma decodePtr_overflow (bits : N) (typ : string) (n : N) :
  (2 ^ bits <= n)%N ->
  json.decodePtr 0%N (json.decodeUint bits typ) (JLiteral (strconv.FormatUint n)) None
  = (Some 0%N,
     json.Saved (UnmarshalTypeError ("number " ++ strconv.FormatUint n) typ)).
Proof.
  intros Hn. unfold json.decodePtr.
  rewrite (proj2 (scans_FormatUint n)), (decodeUint_overflow bits typ n _ Hn).
  reflexivity.
Qed.

Section Widths.

Context {eui : EUI64_type}.

(** X7.  The widths of the SETCONF numbers.  A number above 255 is no
    adrmode, interval or region: the payload with that one member fails
    with the type error of the number for uint8, and the field is left
    pointing to a zero.  The opmode holds the numbers below 2^32, those
    above 255 included, and fails likewise from 2^32 on. *)
Theorem SetConf_field_widths (n : N) :
  (2 ^ 8 <= n)%N ->
  Unmarshal_requestParam ("{" ++ fieldText "adrmode" (strconv.FormatUint n) ++ "}")
    (SetConfParam zero_SetConfRequestParam)
  = (SetConfParam (mkSetConf (Some 0%N) EUI64_zero None None None),
     Some (UnmarshalTypeError ("number " ++ strconv.FormatUint n) "uint8"))
  /\ Unmarshal_requestParam ("{" ++ fieldText "interval" (strconv.FormatUint n) ++ "}")
       (SetConfParam zero_SetConfRequestParam)
     = (SetConfParam (mkSetConf None EUI64_zero (Some 0%N) None None),
        Some (UnmarshalTypeError ("number " ++ strconv.FormatUint n) "uint8"))
  /\ Unmarshal_requestParam ("{" ++ fieldText "region" (strconv.FormatUint n) ++ "}")
       (SetConfParam zero_SetConfRequestParam)
     = (SetConfParam (mkSetConf None EUI64_zero None (Some 0%N) None),
        Some (UnmarshalTypeError ("number " ++ strconv.FormatUint n) "uint8"))
  /\ Unmarshal_requestParam ("{" ++ fieldText "opmode" (strconv.FormatUint n) ++ "}")
       (SetConfParam zero_SetConfRequestParam)
     = if (n <? 2 ^ 32)%N
       then (SetConfParam (mkSetConf None EUI64_zero None None (Some n)), None)
       else (SetConfParam (mkSetConf None EUI64_zero None None (Some 0%N)),
             Some (UnmarshalTypeError ("number " ++ strconv.FormatUint n) "uint32")).
Proof.
  intros Hn. unfold Unmarshal_requestParam, decode_SetConfRequestParam.
  pose proof (proj1 (scans_FormatUint n)) as Hs.
  split; [| split; [| split ] ].
  - rewrite (Unmarshal_one_member store_SetConfRequestParam _ "adrmode" _ _ _
               (mkSetConf (Some 0%N) EUI64_zero None None None)
               (json.Saved (UnmarshalTypeError ("number " ++ strconv.FormatUint n) "uint8"))
               eq_refl Hs); [ reflexivity |].
    unfold store_SetConfRequestParam.
    change (json.findField _ "adrmode" None) with (Some "adrmode"). cbv iota.
    change (String.eqb "adrmode" "adrmode") with true. cbv iota.
    cbn [ADRMode zero_SetConfRequestParam].
    rewrite (decodePtr_overflow 8 _ n Hn). reflexivity.
  - rewrite (Unmarshal_one_member store_SetConfRequestParam _ "interval" _ _ _
               (mkSetConf None EUI64_zero (Some 0%N) None None)
               (json.Saved (UnmarshalTypeError ("number " ++ strconv.FormatUint n) "uint8"))
               eq_refl Hs); [ reflexivity |].
    unfold store_SetConfRequestParam.
    change (json.findField _ "interval" None) with (Some "interval"). cbv iota.
    change (String.eqb "interval" "adrmode") with false.
    change (String.eqb "interval" "joineui") with false.
    change (String.eqb "interval" "interval") with true. cbv iota.
    cbn [Interval zero_SetConfRequestParam].
    rewrite (decodePtr_overflow 8 _ n Hn). reflexivity.
  - rewrite (Unmarshal_one_member store_SetConfRequestParam _ "region" _ _ _
               (mkSetConf None EUI64_zero None (Some 0%N) None)
               (json.Saved (UnmarshalTypeError ("number " ++ strconv.FormatUint n) "uint8"))
               eq_refl Hs); [ reflexivity |].
    unfold store_SetConfRequestParam.
    change (json.findField _ "region" None) with (Some "region"). cbv iota.
    change (String.eqb "region" "adrmode") with false.
    change (String.eqb "region" "joineui") with false.
    change (String.eqb "region" "interval") with false.
    change (String.eqb "region" "region") with true. cbv iota.
    cbn [Region zero_SetConfRequestParam].
    rewrite (decodePtr_overflow 8 _ n Hn). reflexivity.
  - destruct (N.ltb_spec n (2 ^ 32)) as [Hlt | Hge].
    + rewrite (Unmarshal_one_member store_SetConfRequestParam _ "opmode" _ _ _
                 (mkSetConf None EUI64_zero None None (Some n)) json.Done
                 eq_refl Hs); [ reflexivity |].
      rewrite (store_SetConf_uint "opmode" n _ 32); [ reflexivity | | exact Hlt ].
      right. split; reflexivity.
    + rewrite (Unmarshal_one_member store_SetConfRequestParam _ "opmode" _ _ _
                 (mkSetConf None EUI64_zero None None (Some 0%N))
                 (json.Saved (UnmarshalTypeError ("number " ++ strconv.FormatUint n) "uint32"))
                 eq_refl Hs); [ reflexivity |].
      unfold store_SetConfRequestParam.
      change (json.findField _ "opmode" None) with (Some "opmode"). cbv iota.
      change (String.eqb "opmode" "adrmode") with false.
      change (String.eqb "opmode" "joineui") with false.
      change (String.eqb "opmode" "interval") with false.
      change (String.eqb "opmode" "region") with false. cbv iota.
      cbn [OpMode zero_SetConfRequestParam].
      rewrite (decodePtr_overflow 32 _ n Hge). reflexivity.
Qed.

(** X8.  The members of a FILEDONE payload.  A payload with the one
    member sid is decoded when the number is a signed integer of 32 bits,
    the absent sctr being zero, and fails with the type error of the
    number for int32 when it is not, both fields staying zero. *)
Theorem FileDone_sid_width (i : Z) :
  Unmarshal_requestParam ("{" ++ fieldText "sid" (strconv.FormatInt i) ++ "}")
    (FileDoneParam zero_FileDoneRequestParam)
  = if ((- 2 ^ 31 <=? i) && (i <? 2 ^ 31))%Z
    then (FileDoneParam (mkFileDone i 0), None)
    else (FileDoneParam (mkFileDone 0 0),
          Some (UnmarshalTypeError ("number " ++ strconv.FormatInt i) "int32")).
Proof.
  unfold Unmarshal_requestParam, decode_FileDoneRequestParam.
  pose proof (proj1 (scans_FormatInt i)) as Hs.
  assert (Hf : forall x,
             store_FileDoneRequestParam "sid" x zero_FileDoneRequestParam
             = let (y, st) := json.decodeInt 32 "int32" x 0%Z in (mkFileDone y 0, st)).
  { intros x. unfold store_FileDoneRequestParam.
    change (json.findField ["sid"; "sctr"] "sid" None) with (Some "sid").
    reflexivity. }
  destruct (Z.leb_spec (- 2 ^ 31) i) as [Hlo | Hlo];
    destruct (Z.ltb_spec i (2 ^ 31)) as [Hhi | Hhi]; cbn [andb].
  1: { rewrite (Unmarshal_one_member store_FileDoneRequestParam _ "sid" _ _ _
                  (mkFileDone i 0) json.Done eq_refl Hs); [ reflexivity |].
       rewrite Hf, (decodeInt_FormatInt _ i _ (conj Hlo Hhi)). reflexivity. }
  all: rewrite (Unmarshal_one_member store_FileDoneRequestParam _ "sid" _ _ _
                  (mkFileDone 0 0)
                  (json.Saved (UnmarshalTypeError ("number " ++ strconv.FormatInt i) "int32"))
                  eq_refl Hs); [ reflexivity |];
    rewrite Hf, (decodeInt_overflow _ i _) by lia; reflexivity.
Qed.

(** X9.  A type that is a number is no discriminator: the envelope with
    that one member fails with the type error of a number for a string,
    and the receiver is left as it is. *)
Theorem type_not_a_string (i : Z) (r : Request) :
  Request_UnmarshalJSON ("{" ++ fieldText "type" (strconv.FormatInt i) ++ "}") r
  = (r, Some (UnmarshalTypeError "number" "string")).
Proof.
  apply (UnmarshalJSON_envelope_error _ r zero_baseRequest).
  unfold envelope, decode_baseRequest.
  rewrite (Unmarshal_one_member store_baseRequest _ "type" _ _ _ zero_baseRequest
             (json.Saved (UnmarshalTypeError "number" "string"))
             eq_refl (proj1 (scans_FormatInt i))); [ reflexivity |].
  unfold store_baseRequest.
  change (json.findField ["type"; "param"] "type" None) with (Some "type"). cbv iota.
  change (String.eqb "type" "type") with true. cbv iota.
  unfold json.decodeString. rewrite (proj2 (scans_FormatInt i)). reflexivity.
Qed.

(** ** Requests that are not well formed *)

(** X10.  A request of the type REJOIN or MUTE that holds a parameter is
    encoded with its param, and decoded without it: the parameter is
    lost. *)
Theorem param_lost_without_payload_type (T T' : string) (v : requestParam) :
  EUI64_roundtrip ->
  well_formed (mkRequest T' (Some v)) -> names_valid (mkRequest T' (Some v)) ->
  T = RejoinRequestType \/ T = MuteRequestType ->
  exists t,
    encode_requestParam v = (t, None)
    /\ Marshal_Request (mkRequest T (Some v))
       = ("{" ++ json.join [fieldText "type" (json.quote T); fieldText "param" t] ++ "}",
          None)
    /\ Request_UnmarshalJSON
         ("{" ++ json.join [fieldText "type" (json.quote T); fieldText "param" t] ++ "}")
         zero_Request
       = (mkRequest T None, None).
Proof.
  intros Heui Hwf Hn HT.
  destruct (param_roundtrip T' v Heui Hwf Hn)
    as (t & k & j & p & Henc & Hs & Hraw & Hk & _).
  exists t. split; [ exact Henc |]. split.
  - unfold Marshal_Request. cbn [Param Type_]. rewrite Henc. reflexivity.
  - assert (HV : utf8.ValidString T = true) by (destruct HT as [-> | ->]; reflexivity).
    pose proof (envelope_param T t k j HV Hk Hs Hraw) as Henv.
    apply (UnmarshalJSON_no_payload _ zero_Request _ Henv HT).
Qed.

(** X11.  The encoding tells the well-formed requests apart: two of them
    with the same text are the same request. *)
Theorem Marshal_Request_injective (r1 r2 : Request) :
  EUI64_roundtrip ->
  well_formed r1 -> names_valid r1 -> well_formed r2 -> names_valid r2 ->
  fst (Marshal_Request r1) = fst (Marshal_Request r2) ->
  r1 = r2.
Proof.
  intros Heui Hw1 Hn1 Hw2 Hn2 E.
  destruct (Request_roundtrip r1 zero_Request Heui Hw1 Hn1 eq_refl) as (b1 & Hm1 & Hd1).
  destruct (Request_roundtrip r2 zero_Request Heui Hw2 Hn2 eq_refl) as (b2 & Hm2 & Hd2).
  rewrite Hm1, Hm2 in E. cbn [fst] in E. subst b2.
  rewrite Hd1 in Hd2. inversion Hd2. reflexivity.
Qed.

End Widths.

Lemma SetConf_field_widths_witness :
  Unmarshal_requestParam (eui := hexEUI64) (js "{'opmode':70000}")
    (SetConfParam zero_SetConfRequestParam)
  = (SetConfParam (mkSetConf None EUI64_zero None None (Some 70000%N)), None).
Proof.
  refine (proj2 (proj2 (proj2 (SetConf_field_widths (eui := hexEUI64) 70000%N _)))).
  vm_compute. discriminate.
Defined.

Lemma param_lost_without_payload_type_witness :
  Request_UnmarshalJSON (eui := hexEUI64) (js "{'type':'MUTE','param':5}") zero_Request
  = (mkRequest MuteRequestType None, None).
Proof.
  destruct (param_lost_without_payload_type (eui := hexEUI64)
              MuteRequestType ResetRequestType (ResetParam 5%N))
    as (t & Henc & _ & H).
  - exact hexEUI64_roundtrip.
  - split; reflexivity.
  - exact I.
  - right. reflexivity.
  - inversion Henc. subst t. exact H.
Defined.

Lemma Marshal_Request_injective_witness :
  mkRequest (eui := hexEUI64) FileDoneRequestType (Some (FileDoneParam (mkFileDone (-3) 9)))
  = mkRequest FileDoneRequestType (Some (FileDoneParam (mkFileDone (1 - 4) (3 * 3)))).
Proof.
  apply (Marshal_Request_injective (eui := hexEUI64)).
  - exact hexEUI64_roundtrip.
  - cbn. repeat split; discriminate.
  - exact I.
  - cbn. repeat split; discriminate.
  - exact I.
  - reflexivity.
Defined.

(** * The license headers *)

(** ** Lines *)

Lemma no_newline_app (s t : string) :
  no_newline (s ++ t) = no_newline s && no_newline t.
Proof.
  unfold no_newline. induction s as [| c s IH]; [ reflexivity |].
  cbn [append all_chars]. rewrite IH. apply andb_assoc.
Qed.

Lemma ReadString_line (t rest : string) :
  no_newline t = true ->
  headers.ReadString headers.newline (t ++ String headers.newline rest)
  = (t ++ String headers.newline EmptyString, rest, false).
Proof.
  unfold no_newline. induction t as [| c t IH]; intros H.
  - reflexivity.
  - cbn [all_chars] in H. apply andb_prop in H. destruct H as [Hc Ht].
    cbn [append headers.ReadString].
    apply negb_true_iff in Hc. rewrite Hc, (IH Ht). reflexivity.
Qed.

Lemma ReadString_eof (t : string) :
  no_newline t = true ->
  headers.ReadString headers.newline t = (t, EmptyString, true).
Proof.
  unfold no_newline. induction t as [| c t IH]; intros H.
  - reflexivity.
  - cbn [all_chars] in H. apply andb_prop in H. destruct H as [Hc Ht].
    cbn [headers.ReadString].
    apply negb_true_iff in Hc. rewrite Hc, (IH Ht). reflexivity.
Qed.

(** A text is a line and what follows it, or has no line feed. *)
Lemma line_or_end (s : string) :
  (exists t rest, s = t ++ String headers.newline rest /\ no_newline t = true)
  \/ no_newline s = true.
Proof.
  induction s as [| c s IH]; [ right; reflexivity |].
  destruct (Ascii.eqb c headers.newline) eqn:Ec.
  - left. exists EmptyString, s. apply Ascii.eqb_eq in Ec. subst c. split; reflexivity.
  - destruct IH as [(t & rest & -> & Ht) | Hs].
    + left. exists (String c t), rest. split; [ reflexivity |].
      unfold no_newline in *. cbn [all_chars]. rewrite Ec, Ht. reflexivity.
    + right. unfold no_newline in *. cbn [all_chars]. rewrite Ec, Hs. reflexivity.
Qed.

Lemma complete_lines_from_line (acc t rest : string) :
  no_newline t = true ->
  complete_lines_from acc (t ++ String headers.newline rest)
  = (acc ++ t ++ String headers.newline EmptyString) :: complete_lines rest.
Proof.
  unfold no_newline. revert acc. induction t as [| c t IH]; intros acc H.
  - cbn [append complete_lines_from].
    change (Ascii.eqb headers.newline headers.newline) with true. reflexivity.
  - cbn [all_chars] in H. apply andb_prop in H. destruct H as [Hc Ht].
    cbn [append complete_lines_from].
    apply negb_true_iff in Hc. rewrite Hc, (IH _ Ht), append_assoc. reflexivity.
Qed.

Lemma complete_lines_from_end (acc t : string) :
  no_newline t = true -> complete_lines_from acc t = [].
Proof.
  unfold no_newline. revert acc. induction t as [| c t IH]; intros acc H.
  - reflexivity.
  - cbn [all_chars] in H. apply andb_prop in H. destruct H as [Hc Ht].
    cbn [complete_lines_from]. apply negb_true_iff in Hc. rewrite Hc. apply IH, Ht.
Qed.

Lemma complete_lines_line (t rest : string) :
  no_newline t = true ->
  complete_lines (t ++ String headers.newline rest)
  = (t ++ String headers.newline EmptyString) :: complete_lines rest.
Proof. intros H. apply (complete_lines_from_line EmptyString t rest H). Qed.

Lemma length_line (t rest : string) :
  String.length (t ++ String headers.newline rest) = S (String.length t + String.length rest).
Proof. rewrite length_app. cbn [String.length]. lia. Qed.

(** Induction on the lines of a text. *)
Lemma lines_ind (P : string -> Prop) :
  (forall t, no_newline t = true -> P t) ->
  (forall t rest, no_newline t = true -> P rest -> P (t ++ String headers.newline rest)) ->
  forall s, P s.
Proof.
  intros Hend Hline s.
  assert (H : forall n s, String.length s < n -> P s).
  { clear s. induction n as [| n IH]; intros s Hn; [ lia |].
    destruct (line_or_end s) as [(t & rest & -> & Ht) | Hs]; [| apply Hend, Hs ].
    apply Hline; [ exact Ht |]. apply IH. rewrite length_line in Hn. lia. }
  apply (H (S (String.length s))). lia.
Qed.

Lemma complete_lines_one_line (s : string) : Forall one_line (complete_lines s).
Proof.
  induction s as [t Ht | t rest Ht IH] using lines_ind.
  - unfold complete_lines. rewrite (complete_lines_from_end _ t Ht). constructor.
  - rewrite (complete_lines_line t rest Ht). constructor; [| exact IH ].
    exists t. split; [ reflexivity | exact Ht ].
Qed.

Lemma concat_lines_app (l1 l2 : list string) :
  concat_lines (l1 ++ l2)%list = concat_lines l1 ++ concat_lines l2.
Proof.
  induction l1 as [| x l1 IH]; [ reflexivity |].
  cbn [app concat_lines]. rewrite IH, append_assoc. reflexivity.
Qed.

(** ** The loops *)

(** The loop of [addHeader] ends, and writes the lines of the license
    with their prefix. *)
Lemma addHeaderLoop_spec (withPrefix : string -> string) (licenseReader : string) :
  forall fuel written,
    String.length licenseReader < fuel ->
    headers.addHeaderLoop fuel withPrefix licenseReader written
    = Some (written ++ concat_lines (map withPrefix (complete_lines licenseReader))).
Proof.
  induction licenseReader as [t Ht | t rest Ht IH] using lines_ind;
    intros fuel written Hfuel; (destruct fuel as [| fuel]; [ lia |]).
  - cbn [headers.addHeaderLoop]. rewrite (ReadString_eof t Ht).
    unfold complete_lines. rewrite (complete_lines_from_end _ t Ht).
    cbn [map concat_lines]. rewrite append_empty_r. reflexivity.
  - cbn [headers.addHeaderLoop]. rewrite (ReadString_line t rest Ht).
    rewrite (complete_lines_line t rest Ht). cbn [map concat_lines].
    rewrite length_line in Hfuel. rewrite IH by lia.
    rewrite append_assoc. reflexivity.
Qed.

(** The loop of [hasHeaders] ends, and compares the lines of the license
    with those of the file. *)
Lemma hasHeadersLoop_spec (withPrefix : string -> string) (licenseReader : string) :
  forall fuel checkedFileReader,
    String.length licenseReader < fuel ->
    headers.hasHeadersLoop fuel withPrefix licenseReader checkedFileReader
    = Some (header_lines_match withPrefix (complete_lines licenseReader) checkedFileReader).
Proof.
  induction licenseReader as [t Ht | t rest Ht IH] using lines_ind;
    intros fuel file Hfuel; (destruct fuel as [| fuel]; [ lia |]).
  - cbn [headers.hasHeadersLoop]. rewrite (ReadString_eof t Ht).
    unfold complete_lines. rewrite (complete_lines_from_end _ t Ht). reflexivity.
  - cbn [headers.hasHeadersLoop]. rewrite (ReadString_line t rest Ht).
    rewrite (complete_lines_line t rest Ht). cbn [header_lines_match].
    destruct (headers.ReadString headers.newline file) as [[checked file'] eof].
    rewrite length_line in Hfuel.
    destruct (String.eqb checked (withPrefix (t ++ String headers.newline EmptyString)));
      cbn [negb]; [ apply IH; lia |].
    destruct (headers.Match headers.generatedRegex checked); reflexivity.
Qed.

(** The lines of a header are read back one by one. *)
Lemma header_lines_match_valid (withPrefix : string -> string) (lines : list string)
    (rest : string) :
  Forall (fun line => one_line (withPrefix line)) lines ->
  header_lines_match withPrefix lines (concat_lines (map withPrefix lines) ++ rest)
  = (true, false).
Proof.
  induction lines as [| line lines IH]; intros H; [ reflexivity |].
  inversion H as [| ? ? (t & Et & Ht) Hl]; subst.
  cbn [map concat_lines header_lines_match].
  rewrite append_assoc, Et, append_assoc. cbn [append].
  rewrite (ReadString_line t _ Ht), String.eqb_refl. apply IH, Hl.
Qed.

Lemma removeHeadersLoop_lines (lines : list string) (rest : string) :
  Forall one_line lines ->
  headers.removeHeadersLoop (List.length lines) (concat_lines lines ++ rest) = inl rest.
Proof.
  induction lines as [| line lines IH]; intros H; [ reflexivity |].
  inversion H as [| ? ? (t & Et & Ht) Hl]; subst.
  cbn [List.length concat_lines headers.removeHeadersLoop].
  rewrite !append_assoc. cbn [append].
  rewrite (ReadString_line t _ Ht). apply IH, Hl.
Qed.

Lemma removeHeadersLoop_short (s : string) :
  forall n,
    List.length (complete_lines s) < n ->
    headers.removeHeadersLoop n s
    = inr (headers.Errorf "could not read original file content (EOF)").
Proof.
  induction s as [t Ht | t rest Ht IH] using lines_ind; intros n Hn;
    (destruct n as [| n]; [ lia |]).
  - cbn [headers.removeHeadersLoop]. rewrite (ReadString_eof t Ht). reflexivity.
  - cbn [headers.removeHeadersLoop]. rewrite (ReadString_line t rest Ht).
    rewrite (complete_lines_line t rest Ht) in Hn. cbn [List.length] in Hn.
    apply IH. lia.
Qed.

(** ** The number of the lines *)

Lemma nbLinesLoop_spec (str : string) :
  forall nb, headers.nbLinesLoop nb str = (nb + Z.of_nat (List.length (complete_lines str)))%Z.
Proof.
  induction str as [t Ht | t rest Ht IH] using lines_ind; intros nb.
  - unfold complete_lines. rewrite (complete_lines_from_end _ t Ht). cbn [List.length].
    rewrite Z.add_0_r. revert nb. unfold no_newline in Ht.
    induction t as [| c t IHt]; intros nb; [ reflexivity |].
    cbn [all_chars] in Ht. apply andb_prop in Ht. destruct Ht as [Hc Ht].
    cbn [headers.nbLinesLoop]. apply negb_true_iff in Hc. rewrite Hc. apply IHt, Ht.
  - rewrite (complete_lines_line t rest Ht). cbn [List.length].
    revert nb. unfold no_newline in Ht.
    induction t as [| c t IHt]; intros nb.
    + cbn [append headers.nbLinesLoop].
      change (Ascii.eqb headers.newline headers.newline) with true. rewrite IH. lia.
    + cbn [all_chars] in Ht. apply andb_prop in Ht. destruct Ht as [Hc Ht].
      cbn [append headers.nbLinesLoop]. apply negb_true_iff in Hc. rewrite Hc.
      apply IHt, Ht.
Qed.

Lemma complete_lines_app (a b : string) :
  List.length (complete_lines (a ++ b))
  = List.length (complete_lines a) + List.length (complete_lines b).
Proof.
  induction a as [t Ht | t rest Ht IH] using lines_ind.
  - unfold complete_lines at 2. rewrite (complete_lines_from_end _ t Ht). cbn [List.length].
    induction b as [u Hu | u rest Hu _] using lines_ind.
    + unfold complete_lines.
      rewrite !complete_lines_from_end; [ reflexivity | exact Hu |].
      rewrite no_newline_app, Ht, Hu. reflexivity.
    + rewrite <- append_assoc, !complete_lines_line; [ reflexivity | exact Hu |].
      rewrite no_newline_app, Ht, Hu. reflexivity.
  - rewrite append_assoc. cbn [append].
    rewrite !(complete_lines_line t _ Ht). cbn [List.length]. rewrite IH. reflexivity.
Qed.

(** ** The patterns *)

Lemma upto_from (n : nat) (s : string) : strings.upto n s ++ strings.from n s = s.
Proof.
  revert s. induction n as [| n IH]; intros s; [ reflexivity |].
  destruct s as [| c s]; [ reflexivity |].
  cbn [strings.upto strings.from append]. rewrite IH. reflexivity.
Qed.

(** A literal and then the end of the text: the text is the literal. *)
Lemma matchHere_literal_end (x s : string) :
  headers.matchHere [headers.Lit x; headers.EndText] s = String.eqb s x.
Proof.
  cbn [headers.matchHere]. unfold strings.HasPrefix.
  destruct (String.eqb_spec s x) as [-> | Hne].
  - rewrite Nat.leb_refl.
    pose proof (upto_length_app x EmptyString) as Hu.
    pose proof (from_length_app x EmptyString) as Hf.
    rewrite append_empty_r in Hu, Hf. rewrite Hu, Hf, String.eqb_refl. reflexivity.
  - destruct (String.length x <=? String.length s)%nat; [| reflexivity ].
    destruct (String.eqb_spec (strings.upto (String.length x) s) x) as [E | _];
      [| reflexivity ].
    destruct (strings.from (String.length x) s) as [| c r] eqn:Ef; [| reflexivity ].
    exfalso. apply Hne.
    rewrite <- (upto_from (String.length x) s), E, Ef. apply append_empty_r.
Qed.

Lemma matchHere_star (x : string) (c : ascii) (s : string) :
  headers.matchHere [headers.AnyStar; headers.Lit x; headers.EndText] (String c s)
  = headers.matchHere [headers.Lit x; headers.EndText] (String c s)
    || negb (Ascii.eqb c headers.newline)
       && headers.matchHere [headers.AnyStar; headers.Lit x; headers.EndText] s.
Proof. reflexivity. Qed.

Lemma matchHere_star_ends (x s : string) :
  headers.matchHere [headers.AnyStar; headers.Lit x; headers.EndText] s = true ->
  ends_with s x = true.
Proof.
  induction s as [| c s IH].
  - change (headers.matchHere [headers.AnyStar; headers.Lit x; headers.EndText] EmptyString)
      with (headers.matchHere [headers.Lit x; headers.EndText] EmptyString || false).
    rewrite matchHere_literal_end. cbn [ends_with]. auto.
  - rewrite matchHere_star, matchHere_literal_end. cbn [ends_with].
    destruct (String.eqb (String c s) x); [ reflexivity |]. cbn [orb].
    intros H. apply andb_prop in H. apply IH, H.
Qed.

(** The pattern [.*x$] finds the names that end with [x]. *)
Lemma Match_suffix (x s : string) :
  headers.Match [headers.AnyStar; headers.Lit x; headers.EndText] s = ends_with s x.
Proof.
  induction s as [| c s IH].
  - change (headers.Match [headers.AnyStar; headers.Lit x; headers.EndText] EmptyString)
      with ((headers.matchHere [headers.Lit x; headers.EndText] EmptyString || false)
            || false).
    rewrite matchHere_literal_end, !orb_false_r. cbn [ends_with].
    rewrite orb_false_r. reflexivity.
  - cbn [headers.Match ends_with]. rewrite IH, matchHere_star, matchHere_literal_end.
    destruct (String.eqb (String c s) x); [ reflexivity |]. cbn [orb].
    destruct (ends_with s x) eqn:E; [ apply orb_true_r |].
    rewrite orb_false_r.
    destruct (headers.matchHere [headers.AnyStar; headers.Lit x; headers.EndText] s) eqn:Em;
      [| apply andb_false_r ].
    rewrite (matchHere_star_ends x s Em) in E. discriminate E.
Qed.

(** The pattern of a literal finds the texts that have the literal in
    them. *)
Lemma Match_literal (x s : string) :
  headers.Match [headers.Lit x] s = contains s x.
Proof.
  induction s as [| c s IH]; cbn [headers.Match headers.matchHere contains].
  - rewrite andb_true_r. reflexivity.
  - rewrite IH, andb_true_r. reflexivity.
Qed.

(** ** The prefix of a line *)

Lemma prefixFunction_text (filename line : string) :
  headers.prefixFunction filename line
  = comment_prefix filename
    ++ (if String.eqb line EmptyString || String.eqb line (String headers.newline EmptyString)
        then line else " " ++ line).
Proof.
  unfold headers.prefixFunction, comment_prefix, headers.makeRegex, headers.makefileRegex,
    headers.shRegex.
  rewrite !Match_suffix.
  destruct (String.eqb line EmptyString || String.eqb line (String headers.newline EmptyString));
    reflexivity.
Qed.

Lemma comment_prefix_no_newline (filename : string) :
  no_newline (comment_prefix filename) = true.
Proof. unfold comment_prefix. destruct (_ || _); reflexivity. Qed.

(** A line with its prefix is a line. *)
Lemma prefixFunction_one_line (filename line : string) :
  one_line line -> one_line (headers.prefixFunction filename line).
Proof.
  intros (t & -> & Ht). rewrite prefixFunction_text.
  destruct (String.eqb (t ++ String headers.newline EmptyString) EmptyString
            || String.eqb (t ++ String headers.newline EmptyString)
                 (String headers.newline EmptyString)).
  - exists (comment_prefix filename ++ t). rewrite append_assoc. split; [ reflexivity |].
    rewrite no_newline_app, comment_prefix_no_newline, Ht. reflexivity.
  - exists (comment_prefix filename ++ " " ++ t). rewrite !append_assoc.
    split; [ reflexivity |].
    rewrite !no_newline_app, comment_prefix_no_newline, Ht. reflexivity.
Qed.

Lemma header_lines_one_line (licenseContent filename : string) :
  Forall (fun line => one_line (headers.prefixFunction filename line))
    (complete_lines licenseContent).
Proof.
  pose proof (complete_lines_one_line licenseContent) as H.
  induction H as [| line lines Hl _ IH]; constructor; [| exact IH ].
  apply prefixFunction_one_line, Hl.
Qed.

(** ** The names of the temporary files *)

Lemma name_not_temp (filename suffix : string) :
  suffix <> EmptyString ->
  String.eqb filename (filename ++ suffix) = false
  /\ String.eqb (filename ++ suffix) filename = false.
Proof.
  intros Hs.
  assert (H : filename <> filename ++ suffix).
  { intros E. apply (f_equal String.length) in E. rewrite length_app in E.
    destruct suffix; [ contradiction | cbn [String.length] in E; lia ]. }
  split; apply String.eqb_neq; congruence.
Qed.

(** ** hasHeaders, by the lines of the license *)

Lemma hasHeaders_lines (fs : headers.FS) (licenseContent filename : string) :
  headers.hasHeaders fs licenseContent filename
  = match fs filename with
    | None => Some (false, false, Some (headers.PathError "open" filename))
    | Some file =>
        Some (header_lines_match (headers.prefixFunction filename)
                (complete_lines licenseContent) file, None)
    end.
Proof.
  unfold headers.hasHeaders. destruct (fs filename) as [file |]; [| reflexivity ].
  rewrite hasHeadersLoop_spec by lia.
  destruct (header_lines_match _ _ _). reflexivity.
Qed.

Lemma header_lines_match_exclusive (withPrefix : string -> string) (lines : list string) :
  forall file,
    fst (header_lines_match withPrefix lines file)
    && snd (header_lines_match withPrefix lines file) = false.
Proof.
  induction lines as [| line lines IH]; intros f; [ reflexivity |].
  cbn [header_lines_match].
  destruct (headers.ReadString headers.newline f) as [[checked f'] eof].
  destruct (String.eqb checked _); [ apply IH |].
  destruct (headers.Match headers.generatedRegex checked); reflexivity.
Qed.

(** The file with the header and one more line before its contents is
    valid. *)
Lemma hasHeaders_header (fs : headers.FS) (licenseContent filename rest : string) :
  fs filename = Some (header_of licenseContent filename ++ rest) ->
  headers.hasHeaders fs licenseContent filename = Some (true, false, None)
  /\ file_ok fs licenseContent filename = true.
Proof.
  intros Hf. rewrite hasHeaders_lines. unfold file_ok. rewrite Hf. unfold header_of.
  rewrite (header_lines_match_valid _ _ _ (header_lines_one_line licenseContent filename)).
  split; reflexivity.
Qed.

(** ** The functions of the program *)

(** X12.  The prefix of a line is told by the end of the name of the
    file: # for a name that ends with .make, Makefile or .sh, and //
    for the others; a space follows the prefix, but not before an empty
    line or a bare line feed.  A line of the license with its prefix is
    again one line. *)
Theorem prefixFunction_spec (filename line : string) :
  headers.prefixFunction filename line
  = (if ends_with filename ".make" || ends_with filename "Makefile"
        || ends_with filename ".sh"
     then "#" else "//")
    ++ (if String.eqb line EmptyString || String.eqb line (String headers.newline EmptyString)
        then line else " " ++ line)
  /\ (one_line line -> one_line (headers.prefixFunction filename line)).
Proof.
  split; [ apply prefixFunction_text | apply prefixFunction_one_line ].
Qed.

(** X13.  nbLines is one more than the number of the line feeds: one
    more than the number of the lines that end with a line feed, so that
    it is at least one and the numbers of two texts add up, less one. *)
Theorem nbLines_spec (a b : string) :
  headers.nbLines a = (1 + Z.of_nat (List.length (complete_lines a)))%Z
  /\ (1 <= headers.nbLines a)%Z
  /\ headers.nbLines (a ++ b) = (headers.nbLines a + headers.nbLines b - 1)%Z.
Proof.
  unfold headers.nbLines. rewrite !nbLinesLoop_spec, complete_lines_app.
  repeat split; lia.
Qed.

(** X14.  hasHeaders returns: its loop ends within the rounds the
    license gives it.  It fails for a file that does not exist and for
    no other; the result is that of comparing the lines of the license
    that end with a line feed, each with its prefix, with the first
    lines of the file, and a file is never both valid and generated. *)
Theorem hasHeaders_returns (fs : headers.FS) (licenseContent filename : string) :
  headers.hasHeaders fs licenseContent filename
  = match fs filename with
    | None => Some (false, false, Some (headers.PathError "open" filename))
    | Some file =>
        Some (header_lines_match (headers.prefixFunction filename)
                (complete_lines licenseContent) file, None)
    end
  /\ forall valid generated e,
       headers.hasHeaders fs licenseContent filename = Some (valid, generated, e) ->
       valid && generated = false.
Proof.
  split; [ apply hasHeaders_lines |].
  intros valid generated e. rewrite hasHeaders_lines.
  destruct (fs filename) as [file |]; [| intros H; inversion H; reflexivity ].
  pose proof (header_lines_match_exclusive (headers.prefixFunction filename)
                (complete_lines licenseContent) file) as H.
  destruct (header_lines_match _ _ _) as [v g]. intros H'. inversion H'; subst. exact H.
Qed.

Lemma complete_lines_tail (s tail : string) :
  no_newline tail = true -> complete_lines (s ++ tail) = complete_lines s.
Proof.
  intros Ht. induction s as [t Hs | t rest Hs IH] using lines_ind.
  - unfold complete_lines. rewrite !complete_lines_from_end; [ reflexivity | exact Hs |].
    rewrite no_newline_app, Hs, Ht. reflexivity.
  - rewrite append_assoc. cbn [append]. rewrite !(complete_lines_line t _ Hs), IH.
    reflexivity.
Qed.

(** X15.  What follows the last line feed of the license is not part of
    the header: hasHeaders and addHeader do the same without it.  A
    license without a line feed thus makes every file that exists
    valid. *)
Theorem license_tail_ignored (fs : headers.FS) (licenseContent tail filename : string) :
  no_newline tail = true ->
  headers.hasHeaders fs (licenseContent ++ tail) filename
  = headers.hasHeaders fs licenseContent filename
  /\ headers.addHeader fs (licenseContent ++ tail) filename
     = headers.addHeader fs licenseContent filename
  /\ (fs filename <> None ->
      headers.hasHeaders fs tail filename = Some (true, false, None)).
Proof.
  intros Ht. split; [| split ].
  - unfold headers.hasHeaders. destruct (fs filename) as [file |]; [| reflexivity ].
    rewrite !hasHeadersLoop_spec by lia. rewrite (complete_lines_tail _ _ Ht). reflexivity.
  - unfold headers.addHeader.
    rewrite !addHeaderLoop_spec by lia. rewrite (complete_lines_tail _ _ Ht). reflexivity.
  - intros Hf. unfold headers.hasHeaders. destruct (fs filename) as [file |]; [| congruence ].
    rewrite hasHeadersLoop_spec by lia.
    unfold complete_lines. rewrite (complete_lines_from_end _ tail Ht). reflexivity.
Qed.

Lemma license_tail_ignored_witness :
  headers.hasHeaders (fun _ => Some "package main") "Copyright" "main.go"
  = Some (true, false, None).
Proof.
  apply (proj2 (proj2 (license_tail_ignored (fun _ => Some "package main")
                         EmptyString "Copyright" "main.go" eq_refl))).
  discriminate.
Defined.

(** What [addHeader] does to a file that exists. *)
Lemma addHeader_exists (fs : headers.FS) (licenseContent filename originalFile : string) :
  fs filename = Some originalFile ->
  headers.addHeader fs licenseContent filename
  = Some (headers.Rename
            (headers.write
               (headers.write
                  (headers.write (headers.write fs (filename ++ "-fixed-headers") EmptyString)
                     (filename ++ "-fixed-headers") (header_of licenseContent filename))
                  (filename ++ "-fixed-headers")
                  (header_of licenseContent filename ++ String headers.newline EmptyString))
               (filename ++ "-fixed-headers")
               ((header_of licenseContent filename ++ String headers.newline EmptyString)
                ++ originalFile))
            (filename ++ "-fixed-headers") filename, None).
Proof.
  intros Hf. unfold headers.addHeader.
  rewrite addHeaderLoop_spec by lia. cbn [append].
  fold (header_of licenseContent filename).
  unfold headers.write at 1 2 3.
  rewrite (proj1 (name_not_temp filename "-fixed-headers" ltac:(discriminate))), Hf.
  reflexivity.
Qed.

(** The file system after [addHeader] of a file that exists. *)
Lemma addHeader_file (fs : headers.FS) (licenseContent filename originalFile : string) :
  fs filename = Some originalFile ->
  exists fs',
    headers.addHeader fs licenseContent filename = Some (fs', None)
    /\ fs' filename
       = Some (header_of licenseContent filename ++ String headers.newline originalFile)
    /\ fs' (filename ++ "-fixed-headers") = None
    /\ (forall n, n <> filename -> n <> filename ++ "-fixed-headers" -> fs' n = fs n).
Proof.
  intros Hf. eexists. split; [ apply (addHeader_exists _ _ _ _ Hf) |].
  destruct (name_not_temp filename "-fixed-headers" ltac:(discriminate)) as [N1 N2].
  split; [| split ].
  - unfold headers.Rename, headers.write. rewrite !String.eqb_refl.
    rewrite append_assoc. reflexivity.
  - unfold headers.Rename. rewrite N2, String.eqb_refl. reflexivity.
  - intros n H1 H2. unfold headers.Rename, headers.write.
    apply String.eqb_neq in H1, H2. rewrite H1, H2. reflexivity.
Qed.

(** X16.  addHeader of a file that exists puts the header and an empty
    line before the contents of the file, removes the temporary file
    and leaves the other files as they are; the file then has a valid
    header, whatever it held. *)
Theorem addHeader_makes_valid (fs : headers.FS)
    (licenseContent filename originalFile : string) :
  fs filename = Some originalFile ->
  exists fs',
    headers.addHeader fs licenseContent filename = Some (fs', None)
    /\ fs' filename
       = Some (header_of licenseContent filename ++ String headers.newline originalFile)
    /\ fs' (filename ++ "-fixed-headers") = None
    /\ (forall n, n <> filename -> n <> filename ++ "-fixed-headers" -> fs' n = fs n)
    /\ headers.hasHeaders fs' licenseContent filename = Some (true, false, None).
Proof.
  intros Hf.
  destruct (addHeader_file fs licenseContent filename originalFile Hf)
    as (fs' & Hadd & Hcontent & Htemp & Hother).
  exists fs'. repeat (split; [ assumption |]).
  apply (hasHeaders_header _ _ _ (String headers.newline originalFile)), Hcontent.
Qed.

Lemma addHeader_makes_valid_witness :
  exists fs',
    headers.addHeader (fun n => if String.eqb n "a.sh" then Some "echo" else None)
      (String "L" (String headers.newline EmptyString)) "a.sh"
    = Some (fs', None)
    /\ fs' "a.sh"
       = Some (String "#" (String " " (String "L" (String headers.newline
                 (String headers.newline "echo"))))).
Proof.
  destruct (addHeader_makes_valid
              (fun n => if String.eqb n "a.sh" then Some "echo" else None)
              (String "L" (String headers.newline EmptyString)) "a.sh" "echo" eq_refl)
    as (fs' & H1 & H2 & _).
  exists fs'. split; [ exact H1 | exact H2 ].
Defined.

(** What [removeHeaders] does to a file that begins with the header and
    one more line. *)
Lemma removeHeaders_header (fs : headers.FS) (licenseContent filename line rest : string) :
  fs filename = Some (header_of licenseContent filename ++ line ++ rest) ->
  one_line line ->
  headers.removeHeaders fs (headers.nbLines licenseContent) filename
  = (headers.Rename
       (headers.write (headers.write fs (filename ++ "-without-headers") EmptyString)
          (filename ++ "-without-headers") rest)
       (filename ++ "-without-headers") filename, None).
Proof.
  intros Hf Hline. unfold headers.removeHeaders.
  unfold headers.write at 1.
  rewrite (proj1 (name_not_temp filename "-without-headers" ltac:(discriminate))), Hf.
  assert (E : headers.removeHeadersLoop (Z.to_nat (headers.nbLines licenseContent))
                (header_of licenseContent filename ++ line ++ rest) = inl rest).
  { unfold headers.nbLines. rewrite nbLinesLoop_spec.
    replace (Z.to_nat (1 + Z.of_nat (List.length (complete_lines licenseContent))))
      with (List.length (map (headers.prefixFunction filename)
                           (complete_lines licenseContent) ++ [line])%list)
      by (rewrite List.length_app, length_map; cbn [List.length]; lia).
    replace (header_of licenseContent filename ++ line ++ rest)
      with (concat_lines (map (headers.prefixFunction filename)
                            (complete_lines licenseContent) ++ [line])%list ++ rest).
    - apply removeHeadersLoop_lines. apply Forall_app. split.
      + apply Forall_map, header_lines_one_line.
      + constructor; [ exact Hline | constructor ].
    - rewrite concat_lines_app. cbn [concat_lines]. rewrite append_empty_r.
      unfold header_of. apply append_assoc. }
  rewrite E. reflexivity.
Qed.

(** The file system after [removeHeaders] of a file that begins with
    the header and one more line. *)
Lemma removeHeaders_file (fs : headers.FS) (licenseContent filename line rest : string) :
  fs filename = Some (header_of licenseContent filename ++ line ++ rest) ->
  one_line line ->
  exists fs',
    headers.removeHeaders fs (headers.nbLines licenseContent) filename = (fs', None)
    /\ fs' filename = Some rest
    /\ fs' (filename ++ "-without-headers") = None
    /\ (forall n, n <> filename -> n <> filename ++ "-without-headers" -> fs' n = fs n).
Proof.
  intros Hf Hline. eexists.
  split; [ apply (removeHeaders_header _ _ _ _ _ Hf Hline) |].
  destruct (name_not_temp filename "-without-headers" ltac:(discriminate)) as [N1 N2].
  split; [| split ].
  - unfold headers.Rename, headers.write. rewrite !String.eqb_refl. reflexivity.
  - unfold headers.Rename. rewrite N2, String.eqb_refl. reflexivity.
  - intros n H1 H2. unfold headers.Rename, headers.write.
    apply String.eqb_neq in H1, H2. rewrite H1, H2. reflexivity.
Qed.

(** X17.  removeHeaders, given the number of the lines of the license,
    removes the header and the line after it, whatever that line holds:
    a file that begins with the header and one more line, which is
    valid, is left with what follows that line, and the temporary file
    is removed. *)
Theorem removeHeaders_drops_next_line (fs : headers.FS)
    (licenseContent filename line rest : string) :
  fs filename = Some (header_of licenseContent filename ++ line ++ rest) ->
  one_line line ->
  exists fs',
    headers.removeHeaders fs (headers.nbLines licenseContent) filename = (fs', None)
    /\ fs' filename = Some rest
    /\ fs' (filename ++ "-without-headers") = None
    /\ (forall n, n <> filename -> n <> filename ++ "-without-headers" -> fs' n = fs n)
    /\ headers.hasHeaders fs licenseContent filename = Some (true, false, None).
Proof.
  intros Hf Hline.
  destruct (removeHeaders_file fs licenseContent filename line rest Hf Hline)
    as (fs' & Hrem & Hcontent & Htemp & Hother).
  exists fs'. repeat (split; [ assumption |]).
  apply (hasHeaders_header _ _ _ (line ++ rest)), Hf.
Qed.

Lemma removeHeaders_drops_next_line_witness :
  exists fs',
    headers.removeHeaders
      (fun n => if String.eqb n "a.go"
                then Some (String "/" (String "/" (String " " (String "L"
                             (String headers.newline
                                (String "x" (String headers.newline "code")))))))
                else None)
      (headers.nbLines (String "L" (String headers.newline EmptyString))) "a.go"
    = (fs', None)
    /\ fs' "a.go" = Some "code".
Proof.
  destruct (removeHeaders_drops_next_line
              (fun n => if String.eqb n "a.go"
                        then Some (String "/" (String "/" (String " " (String "L"
                                     (String headers.newline
                                        (String "x" (String headers.newline "code")))))))
                        else None)
              (String "L" (String headers.newline EmptyString)) "a.go"
              (String "x" (String headers.newline EmptyString)) "code")
    as (fs' & H1 & H2 & _).
  - reflexivity.
  - exists "x". split; reflexivity.
  - exists fs'. split; [ exact H1 | exact H2 ].
Defined.

(** [removeHeaders] after [addHeader]. *)
Lemma remove_after_add (fs fs1 : headers.FS)
    (licenseContent filename originalFile : string) :
  fs filename = Some originalFile ->
  headers.addHeader fs licenseContent filename = Some (fs1, None) ->
  exists fs2,
    headers.removeHeaders fs1 (headers.nbLines licenseContent) filename = (fs2, None)
    /\ fs2 filename = Some originalFile
    /\ fs2 (filename ++ "-fixed-headers") = None
    /\ fs2 (filename ++ "-without-headers") = None
    /\ (forall n,
          n <> filename -> n <> filename ++ "-fixed-headers" ->
          n <> filename ++ "-without-headers" -> fs2 n = fs n).
Proof.
  intros Hf Hadd.
  destruct (addHeader_file fs licenseContent filename originalFile Hf)
    as (fs' & Hadd' & Hcontent & Htemp & Hother).
  rewrite Hadd in Hadd'. inversion Hadd'; subst fs'.
  destruct (removeHeaders_file fs1 licenseContent filename
              (String headers.newline EmptyString) originalFile)
    as (fs2 & Hrem & H1 & H2 & H3).
  { rewrite Hcontent. reflexivity. }
  { exists EmptyString. split; reflexivity. }
  exists fs2. split; [ exact Hrem |]. split; [ exact H1 |].
  assert (Hne : filename ++ "-fixed-headers" <> filename ++ "-without-headers").
  { clear. induction filename as [| c f IH]; cbn [append]; [ discriminate |].
    intros E. inversion E. auto. }
  split; [| split ].
  - rewrite H3; [ exact Htemp | | exact Hne ].
    apply String.eqb_neq, (name_not_temp filename "-fixed-headers"). discriminate.
  - exact H2.
  - intros n N1 N2 N3. rewrite H3 by assumption. apply Hother; assumption.
Qed.

(** X18.  removeHeaders undoes addHeader: after the two, the file holds
    what it held, the two temporary files do not exist, and the other
    files are as they were. *)
Theorem removeHeaders_undoes_addHeader (fs : headers.FS)
    (licenseContent filename originalFile : string) :
  fs filename = Some originalFile ->
  exists fs1 fs2,
    headers.addHeader fs licenseContent filename = Some (fs1, None)
    /\ headers.removeHeaders fs1 (headers.nbLines licenseContent) filename = (fs2, None)
    /\ fs2 filename = Some originalFile
    /\ fs2 (filename ++ "-fixed-headers") = None
    /\ fs2 (filename ++ "-without-headers") = None
    /\ (forall n,
          n <> filename -> n <> filename ++ "-fixed-headers" ->
          n <> filename ++ "-without-headers" -> fs2 n = fs n).
Proof.
  intros Hf.
  destruct (addHeader_file fs licenseContent filename originalFile Hf)
    as (fs1 & Hadd & _).
  destruct (remove_after_add fs fs1 licenseContent filename originalFile Hf Hadd)
    as (fs2 & H).
  exists fs1, fs2. split; [ exact Hadd | exact H ].
Qed.

Lemma removeHeaders_undoes_addHeader_witness :
  exists fs1 fs2,
    headers.addHeader (fun n => if String.eqb n "a.sh" then Some "echo" else None)
      (String "L" (String headers.newline EmptyString)) "a.sh"
    = Some (fs1, None)
    /\ headers.removeHeaders fs1
         (headers.nbLines (String "L" (String headers.newline EmptyString))) "a.sh"
       = (fs2, None)
    /\ fs2 "a.sh" = Some "echo".
Proof.
  destruct (removeHeaders_undoes_addHeader
              (fun n => if String.eqb n "a.sh" then Some "echo" else None)
              (String "L" (String headers.newline EmptyString)) "a.sh" "echo" eq_refl)
    as (fs1 & fs2 & H1 & H2 & H3 & _).
  exists fs1, fs2. auto.
Defined.

(** X19.  removeHeaders of a file with fewer lines than it is to remove
    fails at the end of the file: the file keeps its contents, and the
    temporary file, which was created, is left behind, empty. *)
Theorem removeHeaders_short_file (fs : headers.FS) (nbLines : Z)
    (filename originalFile : string) :
  fs filename = Some originalFile ->
  (Z.of_nat (List.length (complete_lines originalFile)) < nbLines)%Z ->
  exists fs',
    headers.removeHeaders fs nbLines filename
    = (fs', Some (headers.Errorf "could not read original file content (EOF)"))
    /\ fs' filename = Some originalFile
    /\ fs' (filename ++ "-without-headers") = Some EmptyString
    /\ (forall n, n <> filename ++ "-without-headers" -> fs' n = fs n).
Proof.
  intros Hf Hn. unfold headers.removeHeaders.
  destruct (name_not_temp filename "-without-headers" ltac:(discriminate)) as [N1 N2].
  unfold headers.write at 1. rewrite N1, Hf.
  rewrite removeHeadersLoop_short by lia.
  eexists. split; [ reflexivity |]. unfold headers.write.
  rewrite N1, String.eqb_refl. repeat split; try assumption.
  intros n H. apply String.eqb_neq in H. rewrite H. reflexivity.
Qed.

Lemma removeHeaders_short_file_witness :
  snd (headers.removeHeaders (fun _ => Some "one line") 1 "f")
  = Some (headers.Errorf "could not read original file content (EOF)").
Proof.
  destruct (removeHeaders_short_file (fun _ => Some "one line") 1 "f" "one line"
              eq_refl ltac:(reflexivity)) as (fs' & H & _).
  rewrite H. reflexivity.
Defined.

(** X20.  addHeader of a file that does not exist fails when it opens
    the file, after it has written the temporary file, which is left
    behind with the header in it. *)
Theorem addHeader_missing_file (fs : headers.FS) (licenseContent filename : string) :
  fs filename = None ->
  exists fs',
    headers.addHeader fs licenseContent filename
    = Some (fs', Some (headers.PathError "open" filename))
    /\ fs' (filename ++ "-fixed-headers")
       = Some (header_of licenseContent filename ++ String headers.newline EmptyString)
    /\ (forall n, n <> filename ++ "-fixed-headers" -> fs' n = fs n).
Proof.
  intros Hf. unfold headers.addHeader.
  rewrite addHeaderLoop_spec by lia. cbn [append].
  fold (header_of licenseContent filename).
  destruct (name_not_temp filename "-fixed-headers" ltac:(discriminate)) as [N1 N2].
  unfold headers.write at 1 2 3. rewrite N1, Hf.
  eexists. split; [ reflexivity |]. unfold headers.write.
  rewrite String.eqb_refl. split; [ reflexivity |].
  intros n H. apply String.eqb_neq in H. rewrite H. reflexivity.
Qed.

Lemma addHeader_missing_file_witness :
  exists fs',
    headers.addHeader (fun _ => None) (String "L" (String headers.newline EmptyString)) "a.go"
    = Some (fs', Some (headers.PathError "open" "a.go"))
    /\ fs' "a.go-fixed-headers"
       = Some (String "/" (String "/" (String " " (String "L"
                 (String headers.newline (String headers.newline EmptyString)))))).
Proof.
  destruct (addHeader_missing_file (fun _ => None)
              (String "L" (String headers.newline EmptyString)) "a.go" eq_refl)
    as (fs' & H1 & H2 & _).
  exists fs'. split; [ exact H1 | exact H2 ].
Defined.

(** ** The operations *)

Lemma checkLoop_spec (fs : headers.FS) (o : headers.headersOperation) (files : list string) :
  forall log allFilesValid,
  exists msgs,
    headers.checkLoop fs o files log allFilesValid
    = Some ((log ++ msgs)%list,
            allFilesValid && forallb (file_ok fs (headers.licenseContent o)) files)
    /\ List.length msgs
       = List.length (filter (fun f => negb (file_ok fs (headers.licenseContent o) f)) files).
Proof.
  induction files as [| file files IH]; intros log acc.
  - exists []. rewrite app_nil_r, andb_true_r. split; reflexivity.
  - cbn [headers.checkLoop forallb filter]. rewrite hasHeaders_lines. unfold file_ok at 1 3.
    destruct (fs file) as [content |].
    + destruct (header_lines_match _ _ content) as [v g].
      destruct v, g; cbn [negb andb orb];
        try (destruct (IH log acc) as (msgs & -> & Hl); exists msgs; split;
             [ reflexivity | exact Hl ]).
      destruct (IH (log ++ [("Invalid headers in " ++ file ++ "."
                             ++ String headers.newline EmptyString)%string])%list false)
        as (msgs & -> & Hl).
      eexists (_ :: msgs). rewrite <- app_assoc, andb_false_r. cbn [app List.length].
      split; [ reflexivity | rewrite Hl; reflexivity ].
    + cbn [negb].
      destruct (IH (log ++ [("Could not check headers in " ++ file ++ ": "
                             ++ headers.Error (headers.PathError "open" file)
                             ++ String headers.newline EmptyString)%string])%list false)
        as (msgs & -> & Hl).
      eexists (_ :: msgs). rewrite <- app_assoc, andb_false_r. cbn [app List.length].
      split; [ reflexivity | rewrite Hl; reflexivity ].
Qed.

(** X21.  check returns, and tells whether every file passes: the file
    exists, and its header is valid or the file is generated.  It logs
    one message for every file that does not pass. *)
Theorem check_spec (fs : headers.FS) (o : headers.headersOperation) :
  exists log,
    headers.check fs o
    = Some (log, forallb (file_ok fs (headers.licenseContent o)) (headers.filenames o))
    /\ List.length log
       = List.length (filter (fun f => negb (file_ok fs (headers.licenseContent o) f))
                        (headers.filenames o)).
Proof.
  unfold headers.check.
  destruct (checkLoop_spec fs o (headers.filenames o) [] true) as (msgs & -> & Hl).
  exists msgs. split; [ reflexivity | exact Hl ].
Qed.

Lemma fixLoop_nothing (fs : headers.FS) (o : headers.headersOperation) (files : list string) :
  forallb (file_ok fs (headers.licenseContent o)) files = true ->
  forall log wasError,
    headers.fixLoop fs o files log wasError = Some (fs, log, wasError).
Proof.
  induction files as [| file files IH]; intros H log wasError; [ reflexivity |].
  cbn [forallb] in H. apply andb_prop in H. destruct H as [Hok Hrest].
  cbn [headers.fixLoop]. rewrite hasHeaders_lines. unfold file_ok in Hok.
  destruct (fs file) as [content |]; [| discriminate Hok ].
  destruct (header_lines_match _ _ content) as [v g].
  destruct v, g; try discriminate Hok; cbn [negb andb]; apply IH, Hrest.
Qed.

(** X22.  fix changes nothing when every file passes the check: the
    file system is as it was, nothing is logged and the result is
    true. *)
Theorem fix_nothing_to_do (fs : headers.FS) (o : headers.headersOperation) :
  forallb (file_ok fs (headers.licenseContent o)) (headers.filenames o) = true ->
  headers.fix_ fs o = Some (fs, [], true)
  /\ headers.check fs o = Some ([], true).
Proof.
  intros H. unfold headers.fix_, headers.check.
  rewrite (fixLoop_nothing fs o _ H). split; [ reflexivity |].
  destruct (checkLoop_spec fs o (headers.filenames o) [] true) as (msgs & -> & Hl).
  rewrite H. replace msgs with (@nil string); [ reflexivity |].
  assert (E : filter (fun f => negb (file_ok fs (headers.licenseContent o) f))
                (headers.filenames o) = []).
  { clear Hl. induction (headers.filenames o) as [| f l IH]; [ reflexivity |].
    cbn [forallb] in H. apply andb_prop in H. destruct H as [Hf Hl].
    cbn [filter]. rewrite Hf. apply IH, Hl. }
  rewrite E in Hl. destruct msgs; [ reflexivity | discriminate Hl ].
Qed.

Lemma fix_nothing_to_do_witness :
  headers.fix_ (fun _ => Some "// generated by hand")
    (headers.mkOperation (String "L" (String headers.newline EmptyString)) ["a.go"; "b.go"])
  = Some (fun _ => Some "// generated by hand", [], true).
Proof.
  apply (proj1 (fix_nothing_to_do (fun _ => Some "// generated by hand")
                  (headers.mkOperation (String "L" (String headers.newline EmptyString))
                     ["a.go"; "b.go"]) eq_refl)).
Defined.

(** X23.  fix of one file that exists and does not pass the check adds
    the header: it logs that the file is fixed and returns true; the
    file then passes the check, and remove gives it back the contents it
    had. *)
Theorem fix_then_check_and_remove (fs : headers.FS)
    (licenseContent filename originalFile : string) :
  fs filename = Some originalFile ->
  file_ok fs licenseContent filename = false ->
  exists fs1 fs2,
    headers.fix_ fs (headers.mkOperation licenseContent [filename])
    = Some (fs1, ["Fixed headers in " ++ filename ++ "." ++ String headers.newline EmptyString],
            true)
    /\ fs1 filename
       = Some (header_of licenseContent filename ++ String headers.newline originalFile)
    /\ headers.check fs1 (headers.mkOperation licenseContent [filename]) = Some ([], true)
    /\ headers.remove fs1 (headers.mkOperation licenseContent [filename])
       = Some (fs2, [], true)
    /\ fs2 filename = Some originalFile.
Proof.
  intros Hf Hok.
  destruct (addHeader_file fs licenseContent filename originalFile Hf)
    as (fs1 & Hadd & Hcontent & _).
  destruct (remove_after_add fs fs1 licenseContent filename originalFile Hf Hadd)
    as (fs2 & Hrem & Hback & _).
  exists fs1, fs2.
  pose proof (proj1 (hasHeaders_header _ _ _ (String headers.newline originalFile) Hcontent))
    as Hvalid.
  split; [| split; [ exact Hcontent | split; [| split; [| exact Hback ] ] ] ].
  - unfold headers.fix_. cbn [headers.filenames headers.licenseContent headers.fixLoop].
    rewrite hasHeaders_lines. unfold file_ok in Hok. rewrite Hf in *.
    destruct (header_lines_match _ _ originalFile) as [v g].
    destruct v, g; try discriminate Hok. cbn [negb andb].
    rewrite Hadd. reflexivity.
  - unfold headers.check. cbn [headers.filenames headers.licenseContent headers.checkLoop].
    rewrite Hvalid. reflexivity.
  - unfold headers.remove. cbn [headers.filenames headers.licenseContent headers.removeLoop].
    rewrite Hvalid. cbn [negb]. rewrite Hrem. reflexivity.
Qed.

Lemma fix_then_check_and_remove_witness :
  exists fs1 fs2,
    headers.fix_ (fun n => if String.eqb n "a.sh" then Some "echo" else None)
      (headers.mkOperation (String "L" (String headers.newline EmptyString)) ["a.sh"])
    = Some (fs1, ["Fixed headers in a.sh." ++ String headers.newline EmptyString], true)
    /\ headers.remove fs1
         (headers.mkOperation (String "L" (String headers.newline EmptyString)) ["a.sh"])
       = Some (fs2, [], true)
    /\ fs2 "a.sh" = Some "echo".
Proof.
  destruct (fix_then_check_and_remove
              (fun n => if String.eqb n "a.sh" then Some "echo" else None)
              (String "L" (String headers.newline EmptyString)) "a.sh" "echo"
              eq_refl eq_refl)
    as (fs1 & fs2 & H1 & _ & _ & H2 & H3).
  exists fs1, fs2. auto.
Defined.

(** ** The names of the members of the envelope *)

Ltac fold_letter :=
  let c := fresh "c" in
  intros c; destruct c as [[] [] [] [] [] [] [] []]; reflexivity.

Lemma fold_t : forall c, (json.upper "t" =? json.upper c)%N = Ascii.eqb (lower_char c) "t".
Proof. fold_letter. Qed.

Lemma fold_y : forall c, (json.upper "y" =? json.upper c)%N = Ascii.eqb (lower_char c) "y".
Proof. fold_letter. Qed.

Lemma fold_p : forall c, (json.upper "p" =? json.upper c)%N = Ascii.eqb (lower_char c) "p".
Proof. fold_letter. Qed.

Lemma fold_e : forall c, (json.upper "e" =? json.upper c)%N = Ascii.eqb (lower_char c) "e".
Proof. fold_letter. Qed.

Lemma fold_a : forall c, (json.upper "a" =? json.upper c)%N = Ascii.eqb (lower_char c) "a".
Proof. fold_letter. Qed.

Lemma fold_r : forall c, (json.upper "r" =? json.upper c)%N = Ascii.eqb (lower_char c) "r".
Proof. fold_letter. Qed.

Lemma fold_m : forall c, (json.upper "m" =? json.upper c)%N = Ascii.eqb (lower_char c) "m".
Proof. fold_letter. Qed.

Lemma String_eqb_cons (c d : ascii) (s t : string) :
  String.eqb (String c s) (String d t) = Ascii.eqb c d && String.eqb s t.
Proof. cbn [String.eqb]. destruct (Ascii.eqb c d); reflexivity. Qed.

Lemma equalFold_type (key : string) :
  json.equalFold "type" key = String.eqb (lowercase key) "type".
Proof.
  change (json.equalFold "type" key) with (json.simpleLetterEqualFold "type" key).
  destruct key as [| c1 [| c2 [| c3 [| c4 [| c5 k]]]]];
    cbn [json.simpleLetterEqualFold lowercase];
    rewrite ?fold_t, ?fold_y, ?fold_p, ?fold_e, ?String_eqb_cons;
    try reflexivity;
    repeat match goal with |- context [Ascii.eqb ?a ?b] => destruct (Ascii.eqb a b) end;
    reflexivity.
Qed.

Lemma equalFold_param (key : string) :
  json.equalFold "param" key = String.eqb (lowercase key) "param".
Proof.
  change (json.equalFold "param" key) with (json.simpleLetterEqualFold "param" key).
  destruct key as [| c1 [| c2 [| c3 [| c4 [| c5 [| c6 k]]]]]];
    cbn [json.simpleLetterEqualFold lowercase];
    rewrite ?fold_p, ?fold_a, ?fold_r, ?fold_m, ?String_eqb_cons;
    try reflexivity;
    repeat match goal with |- context [Ascii.eqb ?a ?b] => destruct (Ascii.eqb a b) end;
    reflexivity.
Qed.

Lemma findField_envelope (key : string) :
  json.findField ["type"; "param"] key None
  = if String.eqb (lowercase key) "type" then Some "type"
    else if String.eqb (lowercase key) "param" then Some "param"
    else None.
Proof.
  cbn [json.findField]. rewrite equalFold_type, equalFold_param.
  destruct (String.eqb_spec "type" key) as [<- | _]; [ reflexivity |].
  destruct (String.eqb_spec "param" key) as [<- | _]; [ reflexivity |].
  destruct (String.eqb (lowercase key) "type"); reflexivity.
Qed.

Section MoreRequestExtras.

Context {eui : EUI64_type}.

(** X24.  The names of the members of an envelope are matched without
    regard to the case of their letters: a member is stored as the type
    when its name in lowercase is type, as the param when it is param,
    and is skipped otherwise. *)
Theorem envelope_names_ignore_case (key : string) (j : json) (v : baseRequest) :
  store_baseRequest key j v
  = if String.eqb (lowercase key) "type" then store_baseRequest "type" j v
    else if String.eqb (lowercase key) "param" then store_baseRequest "param" j v
    else (v, json.Done).
Proof.
  unfold store_baseRequest at 1. rewrite findField_envelope.
  destruct (String.eqb (lowercase key) "type").
  - unfold store_baseRequest.
    change (json.findField ["type"; "param"] "type" None) with (Some "type"). reflexivity.
  - destruct (String.eqb (lowercase key) "param"); reflexivity.
Qed.

(** X25.  The payload of FUOTA need not be a JSON string: the text of
    whatever JSON value the param is goes to the Hex decode, which takes
    a quotation mark at either end as optional.  The request holds the
    bytes when the Hex decode succeeds, and no bytes, with the error of
    the Hex decode, when it fails. *)
Theorem FUOTA_payload_any_value (b : string) (r : Request) (br : baseRequest) (j : json) :
  envelope b = (br, None) ->
  brType br = FUOTARequestType ->
  json.scan (brParam br) = Some j ->
  Request_UnmarshalJSON b r
  = match Hex_UnmarshalJSON (json.raw j) [] with
    | (h, None) => (mkRequest FUOTARequestType (Some (FUOTAParam h)), None)
    | (_, Some e) => (mkRequest FUOTARequestType (Some (FUOTAParam [])), Some e)
    end.
Proof.
  intros Henv HT Hs. rewrite (UnmarshalJSON_switch b r br Henv), HT.
  change (String.eqb FUOTARequestType RejoinRequestType
          || String.eqb FUOTARequestType MuteRequestType) with false.
  change (new_param FUOTARequestType) with (Some (FUOTAParam [])).
  cbv iota. unfold Unmarshal_requestParam, json.Unmarshal. rewrite Hs.
  unfold decode_FUOTARequestParam, json.decodeUnmarshaler, FUOTARequestParam_UnmarshalJSON.
  destruct (Hex_UnmarshalJSON (json.raw j) []) as [h [e |]]; reflexivity.
Qed.

End MoreRequestExtras.

Lemma FUOTA_payload_any_value_witness :
  Request_UnmarshalJSON (eui := hexEUI64) (js "{'type':'FUOTA','param':1234}") zero_Request
  = (mkRequest FUOTARequestType (Some (FUOTAParam [x12; x34])), None)
  /\ Request_UnmarshalJSON (eui := hexEUI64) (js "{'type':'FUOTA','param':null}")
       zero_Request
     = (mkRequest FUOTARequestType (Some (FUOTAParam [])), Some (InvalidByteError "n")).
Proof.
  split.
  - apply (FUOTA_payload_any_value (eui := hexEUI64) (js "{'type':'FUOTA','param':1234}")
             zero_Request (mkBaseRequest FUOTARequestType "1234") (JLiteral "1234"));
      reflexivity.
  - apply (FUOTA_payload_any_value (eui := hexEUI64) (js "{'type':'FUOTA','param':null}")
             zero_Request (mkBaseRequest FUOTARequestType "null") (JLiteral "null"));
      reflexivity.
Defined.

(** ** Generated files *)

(** X26.  A file whose first line is not the first line of the header is
    not valid, and is taken for a generated file when that line has the
    text generated in it, wherever in the line. *)
Theorem generated_detection (fs : headers.FS)
    (licenseContent filename file line checked rest : string)
    (lines : list string) (eof : bool) :
  fs filename = Some file ->
  complete_lines licenseContent = line :: lines ->
  headers.ReadString headers.newline file = (checked, rest, eof) ->
  checked <> headers.prefixFunction filename line ->
  headers.hasHeaders fs licenseContent filename
  = Some (false, contains checked "generated", None).
Proof.
  intros Hf Hl Hr Hne. rewrite hasHeaders_lines, Hf, Hl.
  cbn [header_lines_match]. rewrite Hr.
  apply String.eqb_neq in Hne. rewrite Hne.
  unfold headers.generatedRegex. rewrite Match_literal.
  destruct (contains checked "generated"); reflexivity.
Qed.

Lemma generated_detection_witness :
  headers.hasHeaders (fun _ => Some "// Code generated by protoc. DO NOT EDIT.")
    (String "L" (String headers.newline EmptyString)) "a.pb.go"
  = Some (false, true, None).
Proof.
  apply (generated_detection (fun _ => Some "// Code generated by protoc. DO NOT EDIT.")
           (String "L" (String headers.newline EmptyString)) "a.pb.go"
           "// Code generated by protoc. DO NOT EDIT."
           (String "L" (String headers.newline EmptyString))
           "// Code generated by protoc. DO NOT EDIT." EmptyString [] true);
    try reflexivity.
  discriminate.
Defined.

(** ** remove *)

Lemma removeLoop_nothing (fs : headers.FS) (o : headers.headersOperation)
    (files : list string) :
  Forall (fun f => exists file generated,
            fs f = Some file
            /\ header_lines_match (headers.prefixFunction f)
                 (complete_lines (headers.licenseContent o)) file = (false, generated))
    files ->
  forall log wasError,
  exists msgs,
    headers.removeLoop fs o files log wasError = Some (fs, (log ++ msgs)%list, wasError).
Proof.
  induction files as [| file files IH]; intros H log wasError.
  - exists []. rewrite app_nil_r. reflexivity.
  - inversion H as [| ? ? (content & generated & Hf & Hm) Hrest]; subst.
    cbn [headers.removeLoop]. rewrite hasHeaders_lines, Hf, Hm.
    destruct generated; cbn [negb].
    + apply (IH Hrest).
    + destruct (IH Hrest (log ++ [("No headers in " ++ file ++ "."
                                   ++ String headers.newline EmptyString)%string])%list
                  wasError) as (msgs & ->).
      eexists (_ :: msgs). rewrite <- app_assoc. reflexivity.
Qed.

(** X27.  remove leaves a file without a valid header as it is, whether
    the file is generated or not: when no file has a valid header, the
    file system is as it was and the result is true. *)
Theorem remove_without_headers (fs : headers.FS) (o : headers.headersOperation) :
  Forall (fun f => exists file generated,
            fs f = Some file
            /\ header_lines_match (headers.prefixFunction f)
                 (complete_lines (headers.licenseContent o)) file = (false, generated))
    (headers.filenames o) ->
  exists log, headers.remove fs o = Some (fs, log, true).
Proof.
  intros H. unfold headers.remove.
  destruct (removeLoop_nothing fs o (headers.filenames o) H [] None) as (msgs & ->).
  exists msgs. reflexivity.
Qed.

Lemma remove_without_headers_witness :
  exists log,
    headers.remove (fun _ => Some "package main")
      (headers.mkOperation (String "L" (String headers.newline EmptyString)) ["a.go"])
    = Some (fun _ => Some "package main", log, true).
Proof.
  apply (remove_without_headers (fun _ => Some "package main")
           (headers.mkOperation (String "L" (String headers.newline EmptyString)) ["a.go"])).
  constructor; [| constructor ].
  exists "package main", false. split; reflexivity.
Defined.
